(** * Augmented Random Search (python/ray/rllib/ars/ars.py)

    A shallow embedding of the ARS trainer: the shared noise table, the
    rollout worker and the coordinator's aggregation step, followed by the
    properties of the specification that concern them.

    Conventions of the embedding.
    - Python integers are [Z].
    - numpy [float64] scalars are the carrier [A] of a [Numeric] structure.
      Theorems stated for every carrier hold of float64 as the code has it.
      Two carriers are provided: IEEE binary64 ([PrimFloat.float]), on which
      the code is evaluated where rounding or a non-finite value matters,
      and exact rationals ([Qc]), for the few statements that are about sums
      and ranks up to rounding and say so.
    - arrays are lists; a two-column reward array is a list of pairs.
    - a method that mutates [self] and may raise is a function
      [S -> S * res X]: the state reached when the exception is raised is
      kept, as it is in Python. *)

From Stdlib Require Import ZArith QArith Qcanon Qround List Bool Lia.
From Stdlib Require Import Floats.PrimFloat Floats.FloatOps Floats.SpecFloat.
From Stdlib Require Import Numbers.Cyclic.Int63.Uint63.
Import ListNotations.

Set Implicit Arguments.
Local Open Scope Z_scope.

(* ================================================================== *)
(** * Exceptions and the state-and-exception monad *)

Inductive exn : Type :=
| ValueError
| ZeroDivisionError
| AxisError
| IndexError.

Inductive res (X : Type) : Type :=
| Ok (x : X)
| Raise (e : exn).

Arguments Ok {X} x.
Arguments Raise {X} e.

Definition M (S X : Type) : Type := S -> S * res X.

Definition ret {S X : Type} (x : X) : M S X := fun s => (s, Ok x).

Definition raise {S X : Type} (e : exn) : M S X := fun s => (s, Raise e).

Definition bind {S X Y : Type} (m : M S X) (k : X -> M S Y) : M S Y :=
  fun s =>
    match m s with
    | (s', Ok x) => k x s'
    | (s', Raise e) => (s', Raise e)
    end.

Definition gets {S X : Type} (f : S -> X) : M S X := fun s => (s, Ok (f s)).

Definition modify {S : Type} (f : S -> S) : M S unit := fun s => (f s, Ok tt).

Definition lift_res {S X : Type} (r : res X) : M S X := fun s => (s, r).

Declare Scope py_scope.
Delimit Scope py_scope with py.
Notation "x <- m ;; k" := (bind m (fun x => k))
  (at level 61, m at next level, right associativity) : py_scope.
Notation "m ;;; k" := (bind m (fun _ => k))
  (at level 61, right associativity) : py_scope.
Notation "' pat <- m ;; k" := (bind m (fun x => match x with pat => k end))
  (at level 61, pat pattern, m at next level, right associativity) : py_scope.

(** Runs [m] on a component of the state reached through [proj]/[inj]
    (a method call on an attribute of [self]). *)
Definition zoom {S T X : Type} (proj : S -> T) (inj : S -> T -> S)
  (m : M T X) : M S X :=
  fun s => let (t', r) := m (proj s) in (inj s t', r).

(* ================================================================== *)
(** * Scalars *)

(** The operations the code applies to float64 values. [nleb a b] is
    [a <= b]; [of_Z] is [float(n)]; [nfloor] is [floor]. *)
Class Numeric (A : Type) : Type := {
  nzero : A;
  nadd : A -> A -> A;
  nsub : A -> A -> A;
  nmul : A -> A -> A;
  ndiv : A -> A -> A;
  nsqrt : A -> A;
  nleb : A -> A -> bool;
  of_Z : Z -> A;
  nfloor : A -> Z
}.

Definition Qcleb (a b : Qc) : bool := Qle_bool a b.

Definition Qcfloor (a : Qc) : Z := Qfloor a.

Definition Qc_of_Z (z : Z) : Qc := Q2Qc (inject_Z z).

(** Exact rationals. The square root is a parameter: no theorem below
    depends on which function it is. *)
Definition Qc_numeric (sq : Qc -> Qc) : Numeric Qc := {|
  nzero := Q2Qc 0;
  nadd := Qcplus;
  nsub := Qcminus;
  nmul := Qcmult;
  ndiv := Qcdiv;
  nsqrt := sq;
  nleb := Qcleb;
  of_Z := Qc_of_Z;
  nfloor := Qcfloor
|}.

(** A square root on [Qc] that is exact on squares of rationals. *)
Definition Qc_sqrt (a : Qc) : Qc :=
  Q2Qc (Qmake (Z.sqrt (Qnum a)) (Z.to_pos (Z.sqrt (Zpos (Qden a))))).

Definition float_of_Z (z : Z) : float :=
  match z with
  | Z0 => PrimFloat.zero
  | Zpos _ => PrimFloat.of_uint63 (Uint63.of_Z z)
  | Zneg _ => PrimFloat.opp (PrimFloat.of_uint63 (Uint63.of_Z (- z)))
  end.

Definition float_floor (x : float) : Z :=
  match Prim2SF x with
  | S754_finite s m e =>
      let n := if s then Zneg m else Zpos m in
      if 0 <=? e then n * 2 ^ e else n / 2 ^ (- e)
  | _ => 0
  end.

(** IEEE 754 binary64, as numpy's float64. *)
Definition float_numeric : Numeric float := {|
  nzero := PrimFloat.zero;
  nadd := PrimFloat.add;
  nsub := PrimFloat.sub;
  nmul := PrimFloat.mul;
  ndiv := PrimFloat.div;
  nsqrt := PrimFloat.sqrt;
  nleb := PrimFloat.leb;
  of_Z := float_of_Z;
  nfloor := float_floor
|}.

(* ================================================================== *)
(** * Arrays *)

Section Arrays.
Context {X : Type}.

Definition len (l : list X) : Z := Z.of_nat (length l).

(** An index of a slice bound, as Python normalises it: a negative bound
    counts from the end, and every bound is clipped to [0, len]. *)
Definition slice_bound (n i : Z) : Z :=
  if i <? 0 then Z.max 0 (i + n) else Z.min i n.

(** [l[i:j]] *)
Definition py_slice (l : list X) (i j : Z) : list X :=
  let lo := slice_bound (len l) i in
  let hi := slice_bound (len l) j in
  firstn (Z.to_nat (hi - lo)) (skipn (Z.to_nat lo) l).

(** [l[:k]] *)
Definition py_prefix (l : list X) (k : Z) : list X :=
  py_slice l 0 k.

Fixpoint zip_with {Y W : Type} (f : X -> Y -> W) (l : list X) (r : list Y)
  : list W :=
  match l, r with
  | x :: l', y :: r' => f x y :: zip_with f l' r'
  | _, _ => []
  end.
End Arrays.

(* ================================================================== *)
(** * SharedNoiseTable *)

(** numpy's [RandomState], as far as the code uses it: [randint low high]
    draws from the half-open interval and advances the generator; it raises
    [ValueError] when the interval is empty. *)
Class RandomState (G : Type) : Type := {
  randint : Z -> Z -> M G Z;
  randint_range : forall lo hi g, lo < hi ->
    exists n g', randint lo hi g = (g', Ok n) /\ lo <= n < hi;
  randint_empty : forall lo hi g, hi <= lo ->
    randint lo hi g = (g, Raise ValueError)
}.

Section NoiseTable.
Context {G : Type} {RS : RandomState G} {A : Type}.

Record SharedNoiseTable : Type := {
  rg : G;
  noise : list A
}.

Definition set_rg (t : SharedNoiseTable) (g : G) : SharedNoiseTable :=
  {| rg := g; noise := noise t |}.

(** [def get(self, i, dim): return self.noise[i:i + dim]] *)
Definition get (i dim : Z) : M SharedNoiseTable (list A) :=
  fun t => (t, Ok (py_slice (noise t) i (i + dim))).

(** [def sample_index(self, dim):
       return self.rg.randint(0, len(self.noise) - dim + 1)] *)
Definition sample_index (dim : Z) : M SharedNoiseTable Z :=
  fun t => zoom rg set_rg (randint 0 (len (noise t) - dim + 1)) t.

(** [def get_delta(self, dim):
       idx = self.sample_index(dim); return idx, self.get(idx, dim)] *)
Definition get_delta (dim : Z) : M SharedNoiseTable (Z * list A) :=
  (idx <- sample_index dim ;;
   v <- get idx dim ;;
   ret (idx, v))%py.
End NoiseTable.

Arguments SharedNoiseTable G A : clear implicits.


(* ================================================================== *)
(** * External collaborators *)

(** The gym environment of a worker: [reset], [step] (observation, reward,
    done) and the episode step limit [env.spec.timestep_limit]. *)
Class Gym (A Env Ob Act : Type) : Type := {
  env_reset : Env -> Env * Ob;
  env_step : Env -> Act -> Env * (Ob * A * bool);
  timestep_limit : Env -> Z
}.

(** [LinearPolicy.compute] (ray.rllib.ars.policies is not among the
    sources): the action for an observation under the current weights; the
    observation filter is the only state it may change, and it is told
    whether [update_filter] is set. *)
Class PolicyModel (A Filter Ob Act : Type) : Type := {
  compute : list A -> bool -> Filter -> Ob -> Filter * Act
}.

(** The update rule (ray.rllib.ars.optimizers is not among the sources):
    [_compute_step] maps a gradient estimate to a step and may update the
    optimizer's own state. *)
Class Optimizer (A Opt : Type) : Type := {
  _compute_step : list A -> M Opt (list A)
}.

(** One entry of a worker's [rollout_rewards]: a single return for an
    evaluation rollout, [[pos_reward, neg_reward]] otherwise. *)
Inductive reward_entry (A : Type) : Type :=
| Single (reward : A)
| Pair (pos_reward neg_reward : A).

Arguments Single {A} reward.
Arguments Pair {A} pos_reward neg_reward.

(* ================================================================== *)
(** * Worker *)

Module Worker.
Section Defs.
Context {A : Type} {NA : Numeric A} {G : Type} {RS : RandomState G}.
Context {Env Ob Act Filter : Type}.
Context {GY : Gym A Env Ob Act} {PM : PolicyModel A Filter Ob Act}.

Record Policy : Type := {
  weights : list A;
  update_filter : bool;
  observation_filter : Filter
}.

(** What one call of [rollout] ran with and returned. The worker keeps the
    list of its calls as a history variable ([calls] below); the code reads
    it nowhere. *)
Record RolloutCall : Type := {
  call_weights : list A;
  call_update_filter : bool;
  call_shift : A;
  call_length : Z;
  call_result : A * Z
}.

Record t : Type := {
  env : Env;
  deltas : SharedNoiseTable G A;
  policy : Policy;
  delta_std : A;
  rollout_length : Z;
  calls : list RolloutCall
}.

Definition set_env (w : t) (e : Env) : t :=
  {| env := e; deltas := deltas w; policy := policy w;
     delta_std := delta_std w; rollout_length := rollout_length w;
     calls := calls w |}.

Definition set_deltas (w : t) (d : SharedNoiseTable G A) : t :=
  {| env := env w; deltas := d; policy := policy w;
     delta_std := delta_std w; rollout_length := rollout_length w;
     calls := calls w |}.

Definition set_policy (w : t) (p : Policy) : t :=
  {| env := env w; deltas := deltas w; policy := p;
     delta_std := delta_std w; rollout_length := rollout_length w;
     calls := calls w |}.

Definition log_call (c : RolloutCall) (w : t) : t :=
  {| env := env w; deltas := deltas w; policy := policy w;
     delta_std := delta_std w; rollout_length := rollout_length w;
     calls := calls w ++ [c] |}.

(** [self.policy.set_weights(x)] *)
Definition set_weights (x : list A) : M t unit :=
  modify (fun w =>
    set_policy w {| weights := x;
                    update_filter := update_filter (policy w);
                    observation_filter := observation_filter (policy w) |}).

(** [self.policy.update_filter = b] *)
Definition set_update_filter (b : bool) : M t unit :=
  modify (fun w =>
    set_policy w {| weights := weights (policy w);
                    update_filter := b;
                    observation_filter := observation_filter (policy w) |}).

(** [self.policy.compute(ob)] *)
Definition policy_compute (ob : Ob) : M t Act :=
  fun w =>
    let p := policy w in
    let (f', action) :=
      compute (weights p) (update_filter p) (observation_filter p) ob in
    (set_policy w {| weights := weights p;
                     update_filter := update_filter p;
                     observation_filter := f' |}, Ok action).

(** [self.env.reset()] *)
Definition reset : M t Ob :=
  fun w => let (e', ob) := env_reset (env w) in (set_env w e', Ok ob).

(** [self.env.step(action)] *)
Definition step (action : Act) : M t (Ob * A * bool) :=
  fun w => let (e', r) := env_step (env w) action in (set_env w e', Ok r).

(** The body of [for i in range(rollout_length)] in [rollout], with [n]
    iterations left. *)
Fixpoint rollout_loop (shift : A) (n : nat) (ob : Ob) (total_reward : A)
  (steps : Z) : M t (A * Z) :=
  match n with
  | O => ret (total_reward, steps)
  | S n' =>
      (action <- policy_compute ob ;;
       '(ob', reward, done) <- step action ;;
       let steps := steps + 1 in
       let total_reward := nadd total_reward (nsub reward shift) in
       if (done : bool) then ret (total_reward, steps)
       else rollout_loop shift n' ob' total_reward steps)%py
  end.

(** [def rollout(self, shift = 0., rollout_length = None)] *)
Definition rollout (shift : A) (rollout_length' : option Z) : M t (A * Z) :=
  (n <- match rollout_length' with
        | None => gets rollout_length
        | Some n => ret n
        end ;;
   p <- gets policy ;;
   ob <- reset ;;
   r <- rollout_loop shift (Z.to_nat n) ob nzero 0 ;;
   modify (log_call {| call_weights := weights p;
                       call_update_filter := update_filter p;
                       call_shift := shift;
                       call_length := n;
                       call_result := r |}) ;;;
   ret r)%py.

(** [ndarray.reshape]: the size must not change. *)
Definition reshape (x : list A) (size : Z) : M t (list A) :=
  if len x =? size then ret x else raise ValueError.

(** The dictionary [do_rollouts] returns. *)
Record RolloutResult : Type := {
  deltas_idx : list Z;
  rollout_rewards : list (reward_entry A);
  steps : Z
}.

(** One iteration of the loop of [do_rollouts]; [r] holds the three local
    accumulators. *)
Definition do_rollouts_body (w_policy : list A) (shift : A) (evaluate : bool)
  (r : RolloutResult) : M t RolloutResult :=
  if evaluate then
    (set_weights w_policy ;;;
     set_update_filter false ;;;
     limit <- gets (fun w => timestep_limit (env w)) ;;
     '(reward, r_steps) <- rollout nzero (Some limit) ;;
     ret {| deltas_idx := deltas_idx r ++ [-1];
            rollout_rewards := rollout_rewards r ++ [Single reward];
            steps := steps r |})%py
  else
    ('(idx, delta) <- zoom deltas set_deltas (get_delta (len w_policy)) ;;
     std <- gets delta_std ;;
     delta <- reshape (map (nmul std) delta) (len w_policy) ;;
     set_update_filter true ;;;
     set_weights (zip_with nadd w_policy delta) ;;;
     '(pos_reward, pos_steps) <- rollout shift None ;;
     set_weights (zip_with nsub w_policy delta) ;;;
     '(neg_reward, neg_steps) <- rollout shift None ;;
     ret {| deltas_idx := deltas_idx r ++ [idx];
            rollout_rewards := rollout_rewards r ++ [Pair pos_reward neg_reward];
            steps := steps r + (pos_steps + neg_steps) |})%py.

Fixpoint do_rollouts_loop (w_policy : list A) (shift : A) (evaluate : bool)
  (n : nat) (r : RolloutResult) : M t RolloutResult :=
  match n with
  | O => ret r
  | S n' =>
      (r' <- do_rollouts_body w_policy shift evaluate r ;;
       do_rollouts_loop w_policy shift evaluate n' r')%py
  end.

(** [def do_rollouts(self, w_policy, num_rollouts = 1, shift = 1,
                     evaluate = False)] *)
Definition do_rollouts (w_policy : list A) (num_rollouts : Z) (shift : A)
  (evaluate : bool) : M t RolloutResult :=
  do_rollouts_loop w_policy shift evaluate (Z.to_nat num_rollouts)
    {| deltas_idx := []; rollout_rewards := []; steps := 0 |}.

(** ** The episode a rollout runs, for stating what [rollout] returns *)

(** The steps the environment takes from observation [ob] within a budget
    of [n]: each with its reward and terminal signal, and none after a
    terminal one. *)
Fixpoint episode (n : nat) (w : t) (ob : Ob) : list (A * bool) :=
  match n with
  | O => []
  | S n' =>
      match policy_compute ob w with
      | (w1, Ok action) =>
          match step action w1 with
          | (w2, Ok (ob', reward, done)) =>
              (reward, done) :: (if done then [] else episode n' w2 ob')
          | (_, Raise _) => []
          end
      | (_, Raise _) => []
      end
  end.

(** The sum the loop accumulates: [total_reward += reward - shift] from
    [0.], first step first. *)
Definition shifted_return (shift : A) (ep : list (A * bool)) : A :=
  fold_left (fun total rd => nadd total (nsub (fst rd) shift)) ep nzero.

End Defs.

Arguments t A G Env Filter : clear implicits.
Arguments Policy A Filter : clear implicits.
Arguments RolloutCall A : clear implicits.
Arguments RolloutResult A : clear implicits.
End Worker.

(* ================================================================== *)
(** * numpy, as far as the coordinator uses it *)

(** A float64 array of one axis, or of two with rows of length two. *)
Inductive ndarray (A : Type) : Type :=
| Array1 (a : list A)
| Array2 (a : list (A * A)).

Arguments Array1 {A} a.
Arguments Array2 {A} a.

Section Numpy.
Context {A : Type} {NA : Numeric A}.

(** [np.max] of two values: the larger one, and nan when either is nan
    (numpy's maximum propagates nan). A value is nan exactly when it does
    not compare with itself; when neither [a <= b] nor [b <= a] holds, one
    of the two is nan and is the result. *)
Definition nmax (a b : A) : A :=
  if nleb a b then b
  else if nleb b a then a
  else if nleb a a then b else a.

Definition vzero (dim : Z) : list A := repeat nzero (Z.to_nat dim).

Definition vadd (u v : list A) : list A := zip_with nadd u v.

Definition vsub (u v : list A) : list A := zip_with nsub u v.

Definition vscale (c : A) (v : list A) : list A := map (nmul c) v.

Definition vdiv (v : list A) (c : A) : list A := map (fun x => ndiv x c) v.

(** [np.array(rollout_rewards, dtype = np.float64)]: a list of floats is
    an array of one axis, a list of pairs one of two; a list that mixes
    them is refused. *)
Fixpoint singles (l : list (reward_entry A)) : option (list A) :=
  match l with
  | [] => Some []
  | Single r :: l' => option_map (cons r) (singles l')
  | Pair _ _ :: _ => None
  end.

Fixpoint pairs (l : list (reward_entry A)) : option (list (A * A)) :=
  match l with
  | [] => Some []
  | Pair p n :: l' => option_map (cons (p, n)) (pairs l')
  | Single _ :: _ => None
  end.

Definition np_array (l : list (reward_entry A)) : res (ndarray A) :=
  match singles l, pairs l with
  | Some a, _ => Ok (Array1 a)
  | None, Some a => Ok (Array2 a)
  | None, None => Raise ValueError
  end.

Definition flatten (a : list (A * A)) : list A :=
  flat_map (fun r => [fst r; snd r]) a.

Definition elements (a : ndarray A) : list A :=
  match a with
  | Array1 l => l
  | Array2 l => flatten l
  end.

(** [a.max()] over all elements: an empty array has no maximum. *)
Definition np_max_all (a : ndarray A) : res A :=
  match elements a with
  | [] => Raise ValueError
  | x :: l => Ok (fold_left nmax l x)
  end.

(** [np.max(a, axis = 1)]: needs a second axis. *)
Definition np_max_axis1 (a : ndarray A) : res (list A) :=
  match a with
  | Array1 _ => Raise AxisError
  | Array2 l => Ok (map (fun r => nmax (fst r) (snd r)) l)
  end.

Definition np_sum (l : list A) : A := fold_left nadd l nzero.

Definition np_mean (l : list A) : A := ndiv (np_sum l) (of_Z (len l)).

(** [np.std(a)]: the square root of the mean squared deviation from the
    mean, over all elements. *)
Definition np_std (l : list A) : A :=
  let m := np_mean l in
  nsqrt (np_mean (map (fun x => nmul (nsub x m) (nsub x m)) l)).

Fixpoint insert_sorted (x : A) (l : list A) : list A :=
  match l with
  | [] => [x]
  | y :: l' => if nleb x y then x :: l else y :: insert_sorted x l'
  end.

Definition np_sort (l : list A) : list A := fold_right insert_sorted [] l.

(** Whether an array holds a nan: a value that does not compare with
    itself. *)
Definition has_nan (a : list A) : bool :=
  existsb (fun x => negb (nleb x x)) a.

(** [np.percentile(a, q)] with the default linear interpolation: [q] must
    lie in [0, 100]; the result is
    [ap[below] * weight_below + ap[above] * weight_above] for the two order
    statistics that surround position [q/100 * (n - 1)] of the sorted array
    [ap], computed in that form (so rounding, an infinite element times a
    zero weight, and the like show as numpy has them). An array that holds
    a nan has percentile nan, and so has an empty array. *)
Definition np_percentile (a : list A) (q : A) : res A :=
  let q := ndiv q (of_Z 100) in
  if nleb (of_Z 0) q && nleb q (of_Z 1) then
    if has_nan a then Ok (ndiv nzero nzero)
    else
      match np_sort a with
      | [] => Ok (ndiv nzero nzero)
      | (x0 :: _) as ap =>
          let index := nmul q (of_Z (len a - 1)) in
          let below := nfloor index in
          let above := Z.min (below + 1) (len a - 1) in
          let weight_above := nsub index (of_Z below) in
          let weight_below := nsub (of_Z 1) weight_above in
          Ok (nadd (nmul (nth (Z.to_nat below) ap x0) weight_below)
                   (nmul (nth (Z.to_nat above) ap x0) weight_above))
      end
  else Raise ValueError.

(** [np.arange(mask.size)[mask]]: the positions at which [mask] holds. *)
Fixpoint np_where (i : nat) (mask : list bool) : list nat :=
  match mask with
  | [] => []
  | b :: mask' => if b then i :: np_where (S i) mask' else np_where (S i) mask'
  end.

(** [a[idx]] for an array of indices: every index must be in range. *)
Fixpoint np_take {X : Type} (a : list X) (idx : list nat) : res (list X) :=
  match idx with
  | [] => Ok []
  | i :: idx' =>
      match nth_error a i, np_take a idx' with
      | Some x, Ok l => Ok (x :: l)
      | None, _ => Raise IndexError
      | _, Raise e => Raise e
      end
  end.

End Numpy.

(* ================================================================== *)
(** * utils.batched_weighted_sum *)

Section BatchedSum.
Context {A : Type} {NA : Numeric A}.

(** The groups of at most [k] consecutive items of [l]; [fuel] bounds the
    number of groups and [length l] is enough of it. *)
Fixpoint itergroups {X : Type} (fuel k : nat) (l : list X) : list (list X) :=
  match fuel with
  | O => []
  | S fuel' =>
      match l with
      | [] => []
      | _ :: _ => firstn k l :: itergroups fuel' k (skipn k l)
      end
  end.

(** [np.dot(weights, vecs)] for one group: the sum of the vectors, each
    scaled by its weight. *)
Definition np_dot (dim : Z) (weights : list A) (vecs : list (list A))
  : list A :=
  fold_left (fun total wv => vadd total (vscale (fst wv) (snd wv)))
    (combine weights vecs) (vzero dim).

(** Modelled from the spec: [utils.batched_weighted_sum] of ray.rllib.es is
    called by [aggregate_rollouts] and is not among the sources. The spec
    (section 4.4, step 6): "accumulate (reward_pos - reward_neg) *
    perturbation, summed over all retained trials, in batches to bound peak
    memory". The weights and the vectors are cut into groups of
    [batch_size]; each group contributes the dot product of its weights
    with its vectors; the result is the total and the number of items
    summed. [dim] is the length of the vectors. *)
Definition batched_weighted_sum (dim : Z) (weights : list A)
  (vecs : list (list A)) (batch_size : nat) : list A * Z :=
  fold_left
    (fun tc g =>
       (vadd (fst tc) (np_dot dim (fst g) (snd g)), snd tc + len (fst g)))
    (combine (itergroups (length weights) batch_size weights)
             (itergroups (length vecs) batch_size vecs))
    (vzero dim, 0).

(** The sum the spec describes, one trial after the other. *)
Fixpoint weighted_sum (dim : Z) (wvs : list (A * list A)) : list A :=
  match wvs with
  | [] => vzero dim
  | (w, v) :: wvs' => vadd (vscale w v) (weighted_sum dim wvs')
  end.

End BatchedSum.

(* ================================================================== *)
(** * ARSAgent *)

Module ARSAgent.
Section Defs.
Context {A : Type} {NA : Numeric A} {G : Type} {RS : RandomState G}.
Context {Env Ob Act Filter Opt : Type}.
Context {GY : Gym A Env Ob Act} {PM : PolicyModel A Filter Ob Act}.
Context {OP : Optimizer A Opt}.

Local Abbreviation Worker := (Worker.t A G Env Filter).
Local Abbreviation RolloutResult := (Worker.RolloutResult A).

Record t : Type := {
  timesteps : Z;
  num_deltas : Z;
  deltas_used : Z;
  shift : A;
  deltas : SharedNoiseTable G A;
  num_workers : Z;
  workers : list Worker;
  w_policy : list A;
  optimizer : Opt
}.

Definition set_timesteps (s : t) (x : Z) : t :=
  {| timesteps := x; num_deltas := num_deltas s;
     deltas_used := deltas_used s; shift := shift s; deltas := deltas s;
     num_workers := num_workers s; workers := workers s;
     w_policy := w_policy s; optimizer := optimizer s |}.

Definition set_deltas_used (s : t) (x : Z) : t :=
  {| timesteps := timesteps s; num_deltas := num_deltas s;
     deltas_used := x; shift := shift s; deltas := deltas s;
     num_workers := num_workers s; workers := workers s;
     w_policy := w_policy s; optimizer := optimizer s |}.

Definition set_deltas (s : t) (x : SharedNoiseTable G A) : t :=
  {| timesteps := timesteps s; num_deltas := num_deltas s;
     deltas_used := deltas_used s; shift := shift s; deltas := x;
     num_workers := num_workers s; workers := workers s;
     w_policy := w_policy s; optimizer := optimizer s |}.

Definition set_workers (s : t) (x : list Worker) : t :=
  {| timesteps := timesteps s; num_deltas := num_deltas s;
     deltas_used := deltas_used s; shift := shift s; deltas := deltas s;
     num_workers := num_workers s; workers := x;
     w_policy := w_policy s; optimizer := optimizer s |}.

Definition set_w_policy (s : t) (x : list A) : t :=
  {| timesteps := timesteps s; num_deltas := num_deltas s;
     deltas_used := deltas_used s; shift := shift s; deltas := deltas s;
     num_workers := num_workers s; workers := workers s;
     w_policy := x; optimizer := optimizer s |}.

Definition set_optimizer (s : t) (x : Opt) : t :=
  {| timesteps := timesteps s; num_deltas := num_deltas s;
     deltas_used := deltas_used s; shift := shift s; deltas := deltas s;
     num_workers := num_workers s; workers := workers s;
     w_policy := w_policy s; optimizer := x |}.

(** [int(a / b)]: true division, then truncation towards zero. *)
Definition int_div (a b : Z) : M t Z :=
  if b =? 0 then raise ZeroDivisionError else ret (Z.quot a b).

(** [a % b] *)
Definition py_mod (a b : Z) : M t Z :=
  if b =? 0 then raise ZeroDivisionError else ret (a mod b).

(** [a / b] on integers: true division. *)
Definition true_div (a b : Z) : M t A :=
  if b =? 0 then raise ZeroDivisionError else ret (ndiv (of_Z a) (of_Z b)).

(** ** Dispatch *)

(** The requests one call of [aggregate_rollouts] sends, in the order it
    sends them: the position of the worker in [self.workers] and the
    [num_rollouts] asked of it. [rollout_ids_one] asks every worker for
    [num_rollouts] trials; [rollout_ids_two] asks each worker of
    [self.workers[:extra]] for one more. *)
Definition requests_one (n_workers : nat) (num_rollouts : Z)
  : list (nat * Z) :=
  map (fun i => (i, num_rollouts)) (seq 0 n_workers).

Definition requests_two (n_workers : nat) (extra : Z) : list (nat * Z) :=
  map (fun i => (i, 1)) (py_prefix (seq 0 n_workers) extra).

(** With [num_rollouts = int(num_deltas / self.num_workers)] and
    [extra = num_deltas % self.num_workers]. *)
Definition dispatch_plan (n_workers : nat) (num_deltas nw : Z)
  : list (nat * Z) :=
  requests_one n_workers (Z.quot num_deltas nw)
    ++ requests_two n_workers (num_deltas mod nw).

(** The trials a plan asks of worker [i] in all. *)
Definition trials_of (plan : list (nat * Z)) (i : nat) : Z :=
  fold_right Z.add 0
    (map snd (filter (fun r => Nat.eqb (fst r) i) plan)).

(** The number of requests a plan sends to worker [i]. *)
Definition requests_to (plan : list (nat * Z)) (i : nat) : nat :=
  length (filter (fun r => Nat.eqb (fst r) i) plan).

(** [worker.do_rollouts.remote(...)] on the worker at position [i]: the
    actor runs the call on its own state; what it returns or raises is
    kept for [ray.get]. *)
Definition remote (i : nat) (call : M Worker RolloutResult)
  : M t (res RolloutResult) :=
  fun s =>
    match nth_error (workers s) i with
    | Some w =>
        let (w', r) := call w in
        (set_workers s (firstn i (workers s) ++ w' :: skipn (S i) (workers s)),
         Ok r)
    | None => (s, Raise IndexError)
    end.

Fixpoint remote_all (reqs : list (nat * Z))
  (call : Z -> M Worker RolloutResult) : M t (list (res RolloutResult)) :=
  match reqs with
  | [] => ret []
  | (i, n) :: reqs' =>
      (r <- remote i (call n) ;;
       rs <- remote_all reqs' call ;;
       ret (r :: rs))%py
  end.

(** [ray.get(ids)]: the results in order; the first call that raised makes
    [ray.get] raise. *)
Fixpoint ray_get {X : Type} (ids : list (res X)) : res (list X) :=
  match ids with
  | [] => Ok []
  | Raise e :: _ => Raise e
  | Ok x :: ids' =>
      match ray_get ids' with
      | Ok l => Ok (x :: l)
      | Raise e => Raise e
      end
  end.

(** The two loops over [results_one] and [results_two]. *)
Fixpoint gather (evaluate : bool) (results : list RolloutResult)
  (acc : list Z * list (reward_entry A)) : M t (list Z * list (reward_entry A)) :=
  match results with
  | [] => ret acc
  | result :: results' =>
      ((if evaluate then ret tt
        else modify (fun s =>
               set_timesteps s (timesteps s + Worker.steps result))) ;;;
       gather evaluate results'
         (fst acc ++ Worker.deltas_idx result,
          snd acc ++ Worker.rollout_rewards result))%py
  end.

(** Lines 269-312: the rollouts of one step, generated by the workers and
    gathered: the noise offsets and the reward array. *)
Definition generate_rollouts (num_rollouts : option Z) (evaluate : bool)
  : M t (list Z * ndarray A) :=
  (num_deltas' <- match num_rollouts with
                  | None => gets num_deltas
                  | Some n => ret n
                  end ;;
   policy_id <- gets w_policy ;;
   nw <- gets num_workers ;;
   num_rollouts' <- int_div num_deltas' nw ;;
   sh <- gets shift ;;
   n <- gets (fun s => length (workers s)) ;;
   rollout_ids_one <-
     remote_all (requests_one n num_rollouts')
       (fun k => Worker.do_rollouts policy_id k sh evaluate) ;;
   extra <- py_mod num_deltas' nw ;;
   rollout_ids_two <-
     remote_all (requests_two n extra)
       (fun k => Worker.do_rollouts policy_id k sh evaluate) ;;
   results_one <- lift_res (ray_get rollout_ids_one) ;;
   results_two <- lift_res (ray_get rollout_ids_two) ;;
   acc <- gather evaluate results_one ([], []) ;;
   acc <- gather evaluate results_two acc ;;
   rollout_rewards <- lift_res (np_array (snd acc)) ;;
   lift_res (np_max_all rollout_rewards) ;;;
   ret (fst acc, rollout_rewards))%py.

(** The percentile rank of line 325:
    [100*(1 - (self.deltas_used / self.num_deltas))]. *)
Definition percentile_rank : M t A :=
  (du <- gets deltas_used ;;
   nd <- gets num_deltas ;;
   ratio <- true_div du nd ;;
   ret (nmul (of_Z 100) (nsub (of_Z 1) ratio)))%py.

(** Lines 320-327: the directions kept. [np.max(rollout_rewards, axis = 1)]
    needs an array of two axes. *)
Definition select_top (deltas_idx : list Z) (rollout_rewards : ndarray A)
  : M t (list Z * list (A * A)) :=
  match rollout_rewards with
  | Array1 _ => raise AxisError
  | Array2 rows =>
      let max_rewards := map (fun r => nmax (fst r) (snd r)) rows in
      (du <- gets deltas_used ;;
       nd <- gets num_deltas ;;
       (if nd <? du then modify (fun s => set_deltas_used s (num_deltas s))
        else ret tt) ;;;
       q <- percentile_rank ;;
       p <- lift_res (np_percentile max_rewards q) ;;
       let idx := np_where 0 (map (fun m => nleb p m) max_rewards) in
       deltas_idx' <- lift_res (np_take deltas_idx idx) ;;
       rows' <- lift_res (np_take rows idx) ;;
       ret (deltas_idx', rows'))%py
  end.

(** Lines 329-330: [rollout_rewards /= np.std(rollout_rewards)]. *)
Definition normalize (rows : list (A * A)) : list (A * A) :=
  let std := np_std (flatten rows) in
  map (fun r => (ndiv (fst r) std, ndiv (snd r) std)) rows.

(** The generator [(self.deltas.get(idx, size) for idx in deltas_idx)]. *)
Fixpoint get_all (deltas_idx : list Z) (size : Z)
  : M (SharedNoiseTable G A) (list (list A)) :=
  match deltas_idx with
  | [] => ret []
  | idx :: deltas_idx' =>
      (v <- get idx size ;;
       vs <- get_all deltas_idx' size ;;
       ret (v :: vs))%py
  end.

(** Lines 332-341: the gradient estimate from the directions kept, whose
    rewards have been normalised. *)
Definition weigh (deltas_idx : list Z) (rows : list (A * A))
  : M t (list A) :=
  (size <- gets (fun s => len (w_policy s)) ;;
   vecs <- zoom deltas set_deltas (get_all deltas_idx size) ;;
   let gc :=
     batched_weighted_sum size
       (map (fun r => nsub (fst r) (snd r)) rows) vecs 500 in
   ret (vdiv (fst gc) (of_Z (len deltas_idx))))%py.

(** [def aggregate_rollouts(self, num_rollouts = None, evaluate = False)] *)
Definition aggregate_rollouts (num_rollouts : option Z) (evaluate : bool)
  : M t (ndarray A) :=
  (dr <- generate_rollouts num_rollouts evaluate ;;
   if evaluate then ret (snd dr)
   else
     kept <- select_top (fst dr) (snd dr) ;;
     g_hat <- weigh (fst kept) (normalize (snd kept)) ;;
     ret (Array1 g_hat))%py.

(** [ndarray.reshape]: the size must not change. *)
Definition reshape (x : list A) (size : Z) : M t (list A) :=
  if len x =? size then ret x else raise ValueError.

(** [def train_step(self)]. [aggregate_rollouts()] returns the gradient
    estimate, an array of one axis. *)
Definition train_step : M t unit :=
  (g <- aggregate_rollouts None false ;;
   match g with
   | Array1 g_hat =>
       step <- zoom optimizer set_optimizer (_compute_step g_hat) ;;
       size <- gets (fun s => len (w_policy s)) ;;
       step' <- reshape step size ;;
       modify (fun s => set_w_policy s (vsub (w_policy s) step'))
   | Array2 _ => raise ValueError
   end)%py.

End Defs.

Arguments t A G Env Filter Opt : clear implicits.
End ARSAgent.

(* ================================================================== *)
(** * A concrete generator *)

(** A linear congruential generator, for concrete runs. *)
Definition lcg_next (g : Z) : Z := (g * 1103515245 + 12345) mod 2147483648.

Definition lcg_randint (lo hi : Z) : M Z Z :=
  fun g =>
    if lo <? hi then (lcg_next g, Ok (lo + lcg_next g mod (hi - lo)))
    else (g, Raise ValueError).

#[export] Instance lcg_RandomState : RandomState Z.
Proof.
  refine {| randint := lcg_randint |}.
  - intros lo hi g Hlt. unfold lcg_randint.
    destruct (Z.ltb_spec lo hi) as [_ | Hge]; [| lia].
    eexists; eexists; split; [reflexivity |].
    pose proof (Z.mod_pos_bound (lcg_next g) (hi - lo)); lia.
  - intros lo hi g Hle. unfold lcg_randint.
    destruct (Z.ltb_spec lo hi); [lia | reflexivity].
Defined.

(* ================================================================== *)
(** * Vocabulary of the properties *)

Section WorkerVocabulary.
Import Worker.
Context {A : Type} {NA : Numeric A} {G : Type} {RS : RandomState G}.
Context {Env Ob Act Filter : Type}.
Context {GY : Gym A Env Ob Act} {PM : PolicyModel A Filter Ob Act}.
Implicit Types w : Worker.t A G Env Filter.

(** What a rollout leaves alone: everything but the environment and the
    observation filter. *)
Definition same_setup w w' : Prop :=
  weights (policy w') = weights (policy w)
  /\ update_filter (policy w') = update_filter (policy w)
  /\ deltas w' = deltas w
  /\ delta_std w' = delta_std w
  /\ rollout_length w' = rollout_length w
  /\ calls w' = calls w.

(** The call a rollout logs. *)
Definition call_of w (shift : A) (n : Z) (r : A * Z) : RolloutCall A :=
  {| call_weights := weights (policy w);
     call_update_filter := update_filter (policy w);
     call_shift := shift;
     call_length := n;
     call_result := r |}.

(** The length [rollout] runs with. *)
Definition length_of w (rollout_length' : option Z) : Z :=
  match rollout_length' with
  | None => rollout_length w
  | Some n => n
  end.

(** The episode [rollout] runs: from the environment's reset, within the
    length asked for. *)
Definition rollout_episode w (rollout_length' : option Z) : list (A * bool) :=
  let (e0, ob0) := env_reset (env w) in
  episode (Z.to_nat (length_of w rollout_length')) (set_env w e0) ob0.

(** One antithetic trial, as it shows in what the worker returns (the
    offset [idx] and the reward entry) and in the two rollouts it ran
    ([cpos], then [cneg]): the perturbation is the slice of the noise table
    at [idx], scaled by [std]. *)
Definition antithetic_trial (base : list A) (std : A) (table : list A)
  (shift : A) (n : Z) (idx : Z) (entry : reward_entry A)
  (cpos cneg : RolloutCall A) : Prop :=
  let delta := vscale std (py_slice table idx (idx + len base)) in
  0 <= idx <= len table - len base
  /\ call_weights cpos = vadd base delta
  /\ call_weights cneg = vsub base delta
  /\ call_update_filter cpos = true
  /\ call_update_filter cneg = true
  /\ call_shift cpos = shift
  /\ call_shift cneg = shift
  /\ call_length cpos = n
  /\ call_length cneg = n
  /\ entry = Pair (fst (call_result cpos)) (fst (call_result cneg)).

(** The trials of a batch, as they show in the offsets, the reward entries
    and the rollouts logged: trial [i] has offset [i], entry [i] and the
    rollouts [2i] and [2i + 1]. *)
Inductive trials_logged
  (P : Z -> reward_entry A -> RolloutCall A -> RolloutCall A -> Prop)
  : list Z -> list (reward_entry A) -> list (RolloutCall A) -> Prop :=
| logged_nil : trials_logged P [] [] []
| logged_cons idx entry cpos cneg idxs entries cs :
    P idx entry cpos cneg ->
    trials_logged P idxs entries cs ->
    trials_logged P (idx :: idxs) (entry :: entries) (cpos :: cneg :: cs).

(** What [do_rollouts] leaves alone. *)
Definition same_tables w w' : Prop :=
  noise (deltas w') = noise (deltas w)
  /\ delta_std w' = delta_std w
  /\ rollout_length w' = rollout_length w.

End WorkerVocabulary.

Definition zsum (l : list Z) : Z := fold_right Z.add 0 l.

Section MaskVocabulary.
Context {X : Type}.

(** The items of [l] at which [mask] holds. *)
Fixpoint masked (mask : list bool) (l : list X) : list X :=
  match mask, l with
  | b :: mask', x :: l' => if b then x :: masked mask' l' else masked mask' l'
  | _, _ => []
  end.

End MaskVocabulary.

Section AgentVocabulary.
Import ARSAgent.
Context {A : Type} {NA : Numeric A} {G : Type} {RS : RandomState G}.
Context {Env Ob Act Filter Opt : Type}.
Implicit Types s : ARSAgent.t A G Env Filter Opt.

(** [max(reward_pos, reward_neg)] of a trial. *)
Definition row_max (r : A * A) : A := nmax (fst r) (snd r).

(** The percentile rank of the selection, with [deltas_used] clamped to
    [num_deltas]: [100 * (1 - deltas_used / num_deltas)]. *)
Definition clamped_rank s : A :=
  nmul (of_Z 100)
    (nsub (of_Z 1)
       (ndiv (of_Z (Z.min (deltas_used s) (num_deltas s)))
             (of_Z (num_deltas s)))).

(** The state the selection leaves: [deltas_used] clamped. *)
Definition clamped s : ARSAgent.t A G Env Filter Opt :=
  if num_deltas s <? deltas_used s then set_deltas_used s (num_deltas s)
  else s.

(** The canonical weights, the noise table, the optimizer and the
    configuration are the same in both states. *)
Definition same_canon s s' : Prop :=
  w_policy s' = w_policy s
  /\ deltas s' = deltas s
  /\ optimizer s' = optimizer s
  /\ num_deltas s' = num_deltas s
  /\ num_workers s' = num_workers s
  /\ shift s' = shift s.

(** A computation that, returning or raising, leaves them alone. *)
Definition keeps_canon {X : Type}
  (m : M (ARSAgent.t A G Env Filter Opt) X) : Prop :=
  forall s, same_canon s (fst (m s)).

End AgentVocabulary.

(** Every element is below the ones after it. *)
Inductive ascending : list Qc -> Prop :=
| asc_nil : ascending []
| asc_cons x l : Forall (fun y => (x <= y)%Qc) l -> ascending l ->
                 ascending (x :: l).

(** The estimate the spec describes, for the trials kept, each an offset
    with its two (normalised) rewards: the sum over the trials of
    [(reward_pos - reward_neg)] times the slice of the noise table at the
    offset (what [get(offset, dim)] returns), divided by their number. *)
Definition g_hat_of (sq : Qc -> Qc) (table : list Qc) (dim : Z)
  (trials : list (Z * (Qc * Qc))) : list Qc :=
  vdiv (NA := Qc_numeric sq)
    (weighted_sum (NA := Qc_numeric sq) dim
       (map (fun t => (Qcminus (fst (snd t)) (snd (snd t)),
                       py_slice table (fst t) (fst t + dim)))
            trials))
    (Qc_of_Z (len trials)).

(* ================================================================== *)
(** * A small instance, for concrete runs *)

Module Toy.
Section Defs.
Context {A : Type} {NA : Numeric A}.

(** An environment whose reward is the action taken; an episode ends
    after two steps. The state is the number of steps taken. *)
Definition linear_env : Gym A Z Z A := {|
  env_reset := fun _ => (0, 0);
  env_step := fun e a => (e + 1, (e + 1, a, 2 <=? e + 1));
  timestep_limit := fun _ => 3
|}.

(** An environment that pays 1 for every step, whatever the action; an
    episode ends after two steps. *)
Definition constant_env : Gym A Z Z A := {|
  env_reset := fun _ => (0, 0);
  env_step := fun e _ => (e + 1, (e + 1, of_Z 1, 2 <=? e + 1));
  timestep_limit := fun _ => 3
|}.

(** A policy whose action is its first weight; the filter counts the
    observations it was updated with. *)
Definition first_weight : PolicyModel A Z Z A := {|
  compute := fun w update f _ => (if update then f + 1 else f, hd nzero w)
|}.

(** Plain gradient steps: the optimizer's state is its step size. *)
Definition sgd : Optimizer A A := {|
  _compute_step := fun g lr => (lr, Ok (vscale lr g))
|}.

Definition worker (seed : Z) (table : list A) (std : A)
  : Worker.t A Z Z Z := {|
  Worker.env := 0;
  Worker.deltas := {| rg := seed; noise := table |};
  Worker.policy := {| Worker.weights := [nzero];
                      Worker.update_filter := false;
                      Worker.observation_filter := 0 |};
  Worker.delta_std := std;
  Worker.rollout_length := 2;
  Worker.calls := []
|}.

Definition agent (table : list A) (std lr : A) (n_deltas used : Z)
  : ARSAgent.t A Z Z Z A := {|
  ARSAgent.timesteps := 0;
  ARSAgent.num_deltas := n_deltas;
  ARSAgent.deltas_used := used;
  ARSAgent.shift := nzero;
  ARSAgent.deltas := {| rg := 3; noise := table |};
  ARSAgent.num_workers := 2;
  ARSAgent.workers := [worker 7 table std; worker 14 table std];
  ARSAgent.w_policy := [of_Z 1];
  ARSAgent.optimizer := lr
|}.

End Defs.

Definition half : Qc := Q2Qc (1 # 2).

Definition table_Qc : list Qc :=
  [Q2Qc (1 # 1); Q2Qc (-1 # 2); Q2Qc (3 # 4); Q2Qc (-2 # 1); Q2Qc (1 # 4)].

Definition table_float : list float :=
  [1%float; (-0.5)%float; 0.75%float; (-2)%float; 0.25%float].

Definition NQ : Numeric Qc := Qc_numeric Qc_sqrt.

Definition agent_Qc (used : Z) : ARSAgent.t Qc Z Z Z Qc :=
  agent (NA := NQ) table_Qc half half 3 used.

Definition agent_float : ARSAgent.t float Z Z Z float :=
  agent (NA := float_numeric) table_float 0.5%float 0.5%float 3 3.

Definition worker_Qc : Worker.t Qc Z Z Z :=
  worker (NA := NQ) 7 table_Qc half.

Definition do_rollouts_Qc :=
  Worker.do_rollouts (NA := NQ) (GY := linear_env)
    (PM := first_weight (NA := NQ)).

Definition generate_Qc :=
  ARSAgent.generate_rollouts (NA := NQ) (GY := linear_env)
    (PM := first_weight (NA := NQ)) (Opt := Qc).

Definition select_top_Qc :=
  ARSAgent.select_top (NA := NQ) (G := Z) (Env := Z) (Filter := Z)
    (Opt := Qc).

Definition aggregate_Qc :=
  ARSAgent.aggregate_rollouts (NA := NQ) (GY := linear_env)
    (PM := first_weight (NA := NQ)) (Opt := Qc).

Definition train_step_Qc :=
  ARSAgent.train_step (NA := NQ) (GY := linear_env)
    (PM := first_weight (NA := NQ)) (OP := sgd (NA := NQ)).

Definition generate_float :=
  ARSAgent.generate_rollouts (NA := float_numeric)
    (GY := constant_env (NA := float_numeric))
    (PM := first_weight (NA := float_numeric)) (Opt := float).

Definition select_top_float :=
  ARSAgent.select_top (NA := float_numeric) (G := Z) (Env := Z)
    (Filter := Z) (Opt := float).

Definition aggregate_float :=
  ARSAgent.aggregate_rollouts (NA := float_numeric)
    (GY := constant_env (NA := float_numeric))
    (PM := first_weight (NA := float_numeric)) (Opt := float).

(** Three trials for the selection step. *)
Definition rows_Qc : list (Qc * Qc) :=
  [(Q2Qc 1, Q2Qc 2); (Q2Qc 3, Q2Qc 0); (half, half)].

End Toy.


(* ================================================================== *)
(** * Vocabulary of the further properties *)

Section WorkerVocabularyMore.
Import Worker.
Context {A : Type} {NA : Numeric A}.

(** A rollout of an evaluation batch: unperturbed weights, no update of
    the observation filter, rewards not shifted. *)
Definition evaluation_call (base : list A) (c : RolloutCall A) : Prop :=
  call_weights c = base
  /\ call_update_filter c = false
  /\ call_shift c = nzero.

(** A rollout of a training batch: [update_filter] on, the shift given,
    and weights [base + delta] or [base - delta] for [delta] the slice of
    the noise table at some offset in range, scaled by [std]. *)
Definition training_call (base : list A) (std : A) (table : list A)
  (shift : A) (c : RolloutCall A) : Prop :=
  call_update_filter c = true
  /\ call_shift c = shift
  /\ exists idx,
       0 <= idx <= len table - len base
       /\ let delta := vscale std (py_slice table idx (idx + len base)) in
          call_weights c = vadd base delta \/ call_weights c = vsub base delta.

(** The environment steps a list of logged rollouts took. *)
Definition steps_of (cs : list (RolloutCall A)) : Z :=
  fold_right Z.add 0 (map (fun c => snd (call_result c)) cs).

End WorkerVocabularyMore.

Section WorkerTables.
Import Worker.
Context {A : Type} {G Env Filter : Type}.

(** What a worker is configured with: the buffer of its noise table,
    [delta_std] and [rollout_length]. *)
Definition tables (w : Worker.t A G Env Filter) : list A * A * Z :=
  (noise (deltas w), delta_std w, rollout_length w).

End WorkerTables.

Section BatchVocabulary.
Import Worker.
Context {A : Type}.

(** What a batch of [n] trials returns, as the coordinator reads it: [n]
    offsets, [n] reward entries that are all scalars (evaluation) or all
    pairs (training), and a step count within [bound]. *)
Definition batch_of (evaluate : bool) (n : nat) (bound : Z)
  (r : RolloutResult A) : Prop :=
  length (deltas_idx r) = n
  /\ (if evaluate
      then exists a, singles (rollout_rewards r) = Some a /\ length a = n
      else exists rows,
             pairs (rollout_rewards r) = Some rows /\ length rows = n)
  /\ 0 <= steps r <= bound.

(** The steps a batch of [n] trials may take at most: evaluation does not
    count its steps, a training trial runs two rollouts. *)
Definition steps_bound (evaluate : bool) (n : nat) (rollout_length : Z) : Z :=
  if evaluate then 0 else 2 * Z.of_nat n * Z.max 0 rollout_length.

End BatchVocabulary.

Section FrameVocabulary.
Context {S X Y : Type}.

(** A computation that, returning or raising, leaves the observation [f]
    of the state as it was. *)
Definition preserves (f : S -> Y) (m : M S X) : Prop :=
  forall s, f (fst (m s)) = f s.

End FrameVocabulary.

Section AgentVocabularyMore.
Import ARSAgent.
Context {A : Type} {G Env Filter Opt : Type}.

(** The counters of the coordinator that only training may move. *)
Definition counters (s : ARSAgent.t A G Env Filter Opt) : Z * Z :=
  (timesteps s, deltas_used s).

(** The number of trials a call of [aggregate_rollouts] is to collect: the
    argument [num_rollouts], or [self.num_deltas] when it is [None]. *)
Definition asked (num_rollouts : option Z)
  (s : ARSAgent.t A G Env Filter Opt) : Z :=
  match num_rollouts with
  | None => num_deltas s
  | Some n => n
  end.

End AgentVocabularyMore.


(* ================================================================== *)
(** * utils.process_rollout *)

Section ProcessRollout.
Context {A : Type} {NA : Numeric A}.

(** The loop of [discount_sum], over the elements of [x] it still has to
    visit (last element first), with the running sum and the list [y] it
    appends to:
    [for t in range(len(x)-1, -1, -1):
         run_sum = x[t] + gamma*run_sum
         y.append(run_sum)] *)
Fixpoint discount_sum_loop (xs : list A) (gamma run_sum : A) (y : list A)
  : list A :=
  match xs with
  | [] => y
  | xt :: xs' =>
      let run_sum := nadd xt (nmul gamma run_sum) in
      discount_sum_loop xs' gamma run_sum (y ++ [run_sum])
  end.

(** [def discount_sum(x, gamma, terminal=0.0)]: [run_sum] starts at
    [terminal], the loop visits [x] backwards and the result is
    [np.array(y[::-1])]. *)
Definition discount_sum (x : list A) (gamma terminal : A) : list A :=
  rev (discount_sum_loop (rev x) gamma terminal []).

End ProcessRollout.

(* ================================================================== *)
(** * Further small instances *)

Module Cases.

(** A coordinator configured without workers. *)
Definition no_workers : ARSAgent.t Qc Z Z Z Qc := {|
  ARSAgent.timesteps := 0;
  ARSAgent.num_deltas := 3;
  ARSAgent.deltas_used := 2;
  ARSAgent.shift := Q2Qc 0;
  ARSAgent.deltas := {| rg := 3; noise := Toy.table_Qc |};
  ARSAgent.num_workers := 0;
  ARSAgent.workers := [];
  ARSAgent.w_policy := [Qc_of_Z 1];
  ARSAgent.optimizer := Toy.half
|}.

(** A coordinator with two workers and [num_deltas = 0]. *)
Definition no_deltas : ARSAgent.t Qc Z Z Z Qc :=
  Toy.agent (NA := Toy.NQ) Toy.table_Qc Toy.half Toy.half 0 0.

(** A coordinator whose workers have an empty noise table. *)
Definition short_table : ARSAgent.t Qc Z Z Z Qc :=
  Toy.agent (NA := Toy.NQ) [] Toy.half Toy.half 3 2.





End Cases.

(* ================================================================== *)
(** * Properties *)


(** ** Slices *)

Section SliceFacts.
Context {X : Type}.
Implicit Types l : list X.

Lemma len_nonneg l : 0 <= len l.
Proof. unfold len; lia. Qed.

Lemma len_app l1 l2 : len (l1 ++ l2) = len l1 + len l2.
Proof. unfold len. rewrite length_app. lia. Qed.

Lemma len_skipn l (n : nat) : len (skipn n l) = Z.max 0 (len l - Z.of_nat n).
Proof. unfold len. rewrite length_skipn. lia. Qed.

(** A slice that starts inside the list and would end past it is the rest
    of the list. *)
Lemma py_slice_past_end l (i j : Z) :
  0 <= i -> len l < j -> py_slice l i j = skipn (Z.to_nat i) l.
Proof.
  intros Hi Hj. unfold py_slice, slice_bound.
  pose proof (len_nonneg l) as Hl.
  destruct (Z.ltb_spec i 0); [lia |].
  destruct (Z.ltb_spec j 0); [lia |].
  rewrite (Z.min_r j) by lia.
  destruct (Z.le_gt_cases i (len l)) as [Hle | Hgt].
  - rewrite Z.min_l by lia.
    apply firstn_all2. rewrite length_skipn. unfold len in *. lia.
  - rewrite Z.min_r by lia. rewrite Z.sub_diag. simpl.
    symmetry. apply skipn_all2. unfold len in *. lia.
Qed.

(** A slice that lies inside the list has the length asked for. *)
Lemma py_slice_inside_length l (i dim : Z) :
  0 <= i -> 0 <= dim -> i + dim <= len l ->
  len (py_slice l i (i + dim)) = dim.
Proof.
  intros Hi Hd Hle. unfold py_slice, slice_bound.
  destruct (Z.ltb_spec i 0); [lia |].
  destruct (Z.ltb_spec (i + dim) 0); [lia |].
  rewrite !Z.min_l by lia.
  unfold len in *. rewrite length_firstn, length_skipn. lia.
Qed.

End SliceFacts.

(** ** SharedNoiseTable *)

Section NoiseTableFacts.
Context {G : Type} {RS : RandomState G} {A : Type}.
Implicit Types t : SharedNoiseTable G A.

(** [get] never raises and never changes the table. *)
Lemma get_returns t (i dim : Z) :
  get i dim t = (t, Ok (py_slice (noise t) i (i + dim))).
Proof. reflexivity. Qed.

(** C5, as the code has it: a request that runs past the end of the buffer
    is not refused. For every offset [>= 0] and every [dim] with
    [offset + dim > length], [get] returns, without raising, the part of the
    buffer from [offset] to its end: [max(0, length - offset)] elements,
    fewer than [dim] when [dim] is positive. The table is left as it was. *)
Theorem get_past_end_truncates t (offset dim : Z) :
  0 <= offset ->
  len (noise t) < offset + dim ->
  let rest := skipn (Z.to_nat offset) (noise t) in
  get offset dim t = (t, Ok rest)
  /\ len rest = Z.max 0 (len (noise t) - offset)
  /\ (0 < dim -> len rest < dim).
Proof.
  intros Hoff Hpast rest. subst rest. rewrite len_skipn.
  repeat split; try lia.
  rewrite get_returns. now rewrite py_slice_past_end.
Qed.

(** C7: for [1 <= dim <= length], [sample_index dim] returns an offset in
    [[0, length - dim]]; it advances the generator and leaves the buffer
    as it was. *)
Theorem sample_index_in_range t (dim : Z) :
  1 <= dim <= len (noise t) ->
  exists idx t',
    sample_index dim t = (t', Ok idx)
    /\ 0 <= idx <= len (noise t) - dim
    /\ noise t' = noise t.
Proof.
  intros Hdim. unfold sample_index, zoom.
  destruct (@randint_range G RS 0 (len (noise t) - dim + 1) (rg t))
    as (n & g' & Hrun & Hn); [lia |].
  rewrite Hrun. exists n, (set_rg t g').
  repeat split; try lia.
Qed.

(** When the buffer is shorter than [dim], [sample_index] raises. *)
Lemma sample_index_too_long t (dim : Z) :
  len (noise t) < dim -> sample_index dim t = (t, Raise ValueError).
Proof.
  intros Hdim. unfold sample_index, zoom.
  rewrite randint_empty by lia. destruct t; reflexivity.
Qed.

(** Whatever [sample_index] returns is the start of a slice of [dim]
    elements. *)
Lemma sample_index_ok t t' (dim idx : Z) :
  0 <= dim ->
  sample_index dim t = (t', Ok idx) ->
  0 <= idx <= len (noise t) - dim /\ noise t' = noise t.
Proof.
  intros Hdim Hrun. unfold sample_index, zoom in Hrun.
  destruct (Z.le_gt_cases (len (noise t) - dim + 1) 0) as [Hle | Hgt].
  - rewrite randint_empty in Hrun by lia. discriminate.
  - destruct (@randint_range G RS 0 (len (noise t) - dim + 1) (rg t))
      as (n & g' & Hn & Hr); [lia |].
    rewrite Hn in Hrun. inversion Hrun; subst. split; [lia | reflexivity].
Qed.

End NoiseTableFacts.

(** C5, as the spec states it, fails: on a buffer of three values,
    [get(2, 2)] asks for one element past the end and returns the one
    element there is. *)
Lemma get_past_end_returns_a_value :
  let t := {| rg := 0; noise := [10; 20; 30] |} in
  len (noise t) < 2 + 2 /\ get 2 2 t = (t, Ok [30]).
Proof. split; reflexivity. Qed.

Lemma get_past_end_truncates_witness :
  let t := {| rg := 0; noise := [10; 20; 30] |} in
  let rest := skipn (Z.to_nat 2) (noise t) in
  get 2 2 t = (t, Ok rest)
  /\ len rest = Z.max 0 (len (noise t) - 2)
  /\ (0 < 2 -> len rest < 2).
Proof.
  apply (@get_past_end_truncates Z Z {| rg := 0; noise := [10; 20; 30] |} 2 2);
    [lia | reflexivity].
Defined.

Lemma sample_index_in_range_witness :
  let t := {| rg := 7; noise := [10; 20; 30] |} in
  exists idx t',
    sample_index 2 t = (t', Ok idx)
    /\ 0 <= idx <= len (noise t) - 2
    /\ noise t' = noise t.
Proof.
  apply (@sample_index_in_range Z lcg_RandomState Z
           {| rg := 7; noise := [10; 20; 30] |} 2).
  simpl. unfold len. simpl. lia.
Defined.

(** ** Worker.rollout *)

Section RolloutFacts.
Import Worker.
Context {A : Type} {NA : Numeric A} {G : Type} {RS : RandomState G}.
Context {Env Ob Act Filter : Type}.
Context {GY : Gym A Env Ob Act} {PM : PolicyModel A Filter Ob Act}.
Implicit Types w : Worker.t A G Env Filter.

Lemma same_setup_refl w : same_setup w w.
Proof. repeat split. Qed.

Lemma same_setup_trans w1 w2 w3 :
  same_setup w1 w2 -> same_setup w2 w3 -> same_setup w1 w3.
Proof.
  unfold same_setup. intros (?&?&?&?&?&?) (?&?&?&?&?&?).
  repeat split; congruence.
Qed.

Lemma episode_length_le (n : nat) w (ob : Ob) :
  (length (episode n w ob) <= n)%nat.
Proof.
  revert w ob. induction n as [| n IH]; intros w ob; simpl; [lia |].
  unfold policy_compute, step.
  destruct (compute _ _ _ _) as [f' action].
  destruct (env_step _ _) as [e' [[ob' reward] done]].
  destruct done; simpl; [lia |].
  specialize (IH (set_env (set_policy w
    {| weights := weights (policy w);
       update_filter := update_filter (policy w);
       observation_filter := f' |}) e') ob').
  lia.
Qed.

(** No step follows a terminal one. *)
Lemma episode_stops_at_done (n : nat) w (ob : Ob) :
  Forall (fun rd => snd rd = false) (removelast (episode n w ob)).
Proof.
  revert w ob. induction n as [| n IH]; intros w ob; simpl; [constructor |].
  unfold policy_compute, step.
  destruct (compute _ _ _ _) as [f' action].
  destruct (env_step _ _) as [e' [[ob' reward] done]].
  destruct done; [constructor |].
  match goal with |- context [episode n ?w' ?o] =>
    specialize (IH w' o); destruct (episode n w' o) as [| rd ep] eqn:Hep
  end; [constructor |].
  change (removelast ((reward, false) :: rd :: ep))
    with ((reward, false) :: removelast (rd :: ep)).
  constructor; [reflexivity | exact IH].
Qed.

(** An episode shorter than the budget ended on a terminal step. *)
Lemma episode_short_is_done (n : nat) w (ob : Ob) :
  (length (episode n w ob) < n)%nat ->
  exists r, last (episode n w ob) (r, true) = (r, true)
            /\ episode n w ob <> [].
Proof.
  revert w ob. induction n as [| n IH]; intros w ob; simpl; [lia |].
  unfold policy_compute, step.
  destruct (compute _ _ _ _) as [f' action].
  destruct (env_step _ _) as [e' [[ob' reward] done]].
  destruct done; simpl.
  - intros _. exists reward. split; [reflexivity | discriminate].
  - intros Hlt.
    match goal with |- context [episode n ?w' ?o] =>
      destruct (IH w' o) as (r & Hlast & Hne); [lia |];
      destruct (episode n w' o) as [| rd ep] eqn:Hep
    end; [congruence |].
    exists r. split; [exact Hlast | discriminate].
Qed.

(** The loop of [rollout] walks the episode: it returns the accumulated
    shifted rewards and the number of steps, and leaves the set-up of the
    worker as it was. *)
Lemma rollout_loop_episode (shift : A) (n : nat) w (ob : Ob)
  (total : A) (steps : Z) :
  exists w',
    rollout_loop shift n ob total steps w
    = (w', Ok (fold_left (fun t rd => nadd t (nsub (fst rd) shift))
                 (episode n w ob) total,
               steps + len (episode n w ob)))
    /\ same_setup w w'.
Proof.
  revert w ob total steps.
  induction n as [| n IH]; intros w ob total steps; simpl.
  - exists w. split; [| apply same_setup_refl].
    unfold ret, len. simpl. now rewrite Z.add_0_r.
  - unfold bind at 1. unfold policy_compute at 1.
    unfold policy_compute, step.
    destruct (compute _ _ _ _) as [f' action]. unfold bind at 1.
    cbn [env set_policy set_env].
    destruct (env_step _ _) as [e' [[ob' reward] done]].
    destruct done.
    + eexists. split; [reflexivity |]. repeat split.
    + match goal with |- context [episode n ?w' ?o] =>
        destruct (IH w' o (nadd total (nsub reward shift)) (steps + 1))
          as (w'' & Hrun & Hsame)
      end.
      exists w''. split.
      * rewrite Hrun. simpl. unfold len. simpl length.
        do 3 f_equal. lia.
      * eapply same_setup_trans; [| exact Hsame]. repeat split.
Qed.

Lemma rollout_runs (shift : A) (rollout_length' : option Z) w :
  let ep := rollout_episode w rollout_length' in
  let r := (shifted_return shift ep, len ep) in
  exists w1,
    rollout shift rollout_length' w
    = (log_call (call_of w shift (length_of w rollout_length') r) w1, Ok r)
    /\ same_setup w w1.
Proof.
  unfold rollout_episode, rollout, shifted_return.
  assert (Hn : forall s : Worker.t A G Env Filter,
    match rollout_length' with
    | Some n => ret n
    | None => gets (@rollout_length A G Env Filter)
    end s = (s, Ok (length_of s rollout_length'))).
  { intros s. destruct rollout_length'; reflexivity. }
  unfold bind at 1. rewrite Hn.
  unfold bind at 1. unfold gets at 1.
  unfold bind at 1. unfold reset.
  destruct (env_reset (env w)) as [e0 ob0].
  destruct (rollout_loop_episode shift
              (Z.to_nat (length_of w rollout_length')) (set_env w e0) ob0
              nzero 0) as (w1 & Hrun & Hsame).
  unfold bind at 1. rewrite Hrun. simpl.
  exists w1. split; [reflexivity |].
  eapply same_setup_trans; [| exact Hsame]. repeat split.
Qed.

(** C9: [rollout(shift, max_steps)] resets the environment and returns,
    for the episode run from there within [max_steps] steps, the sum of
    [reward - shift] over its steps and their number; the episode has at
    most [max_steps] steps, none of them after a terminal one, and fewer
    than [max_steps] only if its last step was terminal. *)
Theorem rollout_returns_shifted_sum (shift : A) (max_steps : Z) w :
  let ep := rollout_episode w (Some max_steps) in
  (exists w',
     rollout shift (Some max_steps) w
     = (w', Ok (shifted_return shift ep, len ep)))
  /\ len ep <= Z.max 0 max_steps
  /\ Forall (fun rd => snd rd = false) (removelast ep)
  /\ (len ep < max_steps ->
      exists r, last ep (r, true) = (r, true) /\ ep <> []).
Proof.
  intros ep.
  destruct (rollout_runs shift (Some max_steps) w) as (w1 & Hrun & _).
  split; [eexists; exact Hrun |].
  subst ep. unfold rollout_episode, length_of.
  destruct (env_reset (env w)) as [e0 ob0].
  split; [| split].
  - pose proof (episode_length_le (Z.to_nat max_steps) (set_env w e0) ob0).
    unfold len. lia.
  - apply episode_stops_at_done.
  - intros Hlt. apply episode_short_is_done. unfold len in Hlt. lia.
Qed.

End RolloutFacts.

(** ** Worker.do_rollouts *)

Section DoRolloutsFacts.
Import Worker.
Context {A : Type} {NA : Numeric A} {G : Type} {RS : RandomState G}.
Context {Env Ob Act Filter : Type}.
Context {GY : Gym A Env Ob Act} {PM : PolicyModel A Filter Ob Act}.
Implicit Types w : Worker.t A G Env Filter.

Lemma do_rollouts_body_trial (base : list A) (shift : A)
  (r r' : RolloutResult A) w w' :
  do_rollouts_body base shift false r w = (w', Ok r') ->
  exists idx entry cpos cneg,
    deltas_idx r' = deltas_idx r ++ [idx]
    /\ rollout_rewards r' = rollout_rewards r ++ [entry]
    /\ calls w' = calls w ++ [cpos; cneg]
    /\ antithetic_trial base (delta_std w) (noise (deltas w)) shift
         (rollout_length w) idx entry cpos cneg
    /\ same_tables w w'.
Proof.
  unfold do_rollouts_body. unfold bind at 1. unfold zoom at 1.
  unfold get_delta. unfold bind at 1.
  destruct (sample_index (len base) (deltas w)) as [t1 [idx | e]] eqn:Hs;
    [| discriminate].
  destruct (sample_index_ok (deltas w) (len_nonneg base) Hs) as [Hidx Hnoise].
  unfold bind at 1. unfold get at 1. unfold ret at 1.
  unfold bind at 1. unfold gets at 1.
  unfold bind at 1. unfold reshape at 1.
  assert (Hlen : (len (map (nmul (delta_std (set_deltas w t1)))
                    (py_slice (noise t1) idx (idx + len base))) =? len base)
                 = true).
  { apply Z.eqb_eq. unfold len at 1. rewrite length_map.
    fold (len (py_slice (noise t1) idx (idx + len base))).
    rewrite Hnoise. apply py_slice_inside_length; try lia.
    apply len_nonneg. }
  rewrite Hlen. unfold ret at 1.
  unfold bind at 1. unfold set_update_filter at 1, modify at 1.
  unfold bind at 1. unfold set_weights at 1, modify at 1.
  unfold bind at 1.
  match goal with |- context [rollout shift None ?s] =>
    destruct (rollout_runs shift None s) as (w1 & Hrun1 & Hsame1);
    rewrite Hrun1; clear Hrun1
  end.
  cbv zeta.
  unfold bind at 1. unfold set_weights at 1, modify at 1.
  unfold bind at 1.
  match goal with |- context [rollout shift None ?s] =>
    destruct (rollout_runs shift None s) as (w2 & Hrun2 & Hsame2);
    rewrite Hrun2; clear Hrun2
  end.
  cbv zeta. unfold ret.
  intros Hret. inversion Hret; subst w' r'; clear Hret.
  destruct Hsame1 as (Hw1 & Hu1 & Hd1 & Hs1 & Hl1 & Hc1).
  destruct Hsame2 as (Hw2 & Hu2 & Hd2 & Hs2 & Hl2 & Hc2).
  cbn [policy set_policy set_deltas log_call weights update_filter
       deltas delta_std rollout_length calls call_of length_of] in *.
  do 4 eexists.
  split; [reflexivity |]. split; [reflexivity |].
  split; [| split].
  - cbn [calls log_call]. rewrite Hc2. cbn [calls log_call set_policy].
    rewrite Hc1. rewrite <- app_assoc. reflexivity.
  - unfold antithetic_trial. cbn [call_weights call_update_filter
      call_shift call_length call_result fst].
    rewrite Hu1, Hl1, Hnoise.
    repeat split; try reflexivity; lia.
  - unfold same_tables. cbn [deltas delta_std rollout_length log_call].
    rewrite Hd2, Hs2, Hl2. cbn [deltas delta_std rollout_length log_call set_policy].
    rewrite Hd1, Hs1, Hl1. repeat split. exact Hnoise.
Qed.

Lemma trials_logged_length
  (P : Z -> reward_entry A -> RolloutCall A -> RolloutCall A -> Prop)
  idxs entries cs :
  trials_logged P idxs entries cs ->
  length entries = length idxs /\ length cs = (2 * length idxs)%nat.
Proof.
  induction 1 as [| ? ? ? ? ? ? ? _ _ [IH1 IH2]]; simpl; [split; reflexivity |].
  split; lia.
Qed.

Lemma do_rollouts_loop_trials (base : list A) (shift : A) (n : nat)
  (r r' : RolloutResult A) w w' :
  do_rollouts_loop base shift false n r w = (w', Ok r') ->
  exists idxs entries cs,
    deltas_idx r' = deltas_idx r ++ idxs
    /\ rollout_rewards r' = rollout_rewards r ++ entries
    /\ calls w' = calls w ++ cs
    /\ length idxs = n
    /\ trials_logged
         (antithetic_trial base (delta_std w) (noise (deltas w)) shift
            (rollout_length w)) idxs entries cs
    /\ same_tables w w'.
Proof.
  revert r w. induction n as [| n IH]; intros r w; cbn [do_rollouts_loop].
  - unfold ret. intros Hret. inversion Hret; subst.
    exists [], [], []. rewrite !app_nil_r.
    repeat split; constructor.
  - unfold bind at 1.
    destruct (do_rollouts_body base shift false r w) as [w1 [r1 | e]] eqn:Hbody;
      cbv beta iota; [| intros Hraise; discriminate Hraise].
    intros Hloop.
    destruct (do_rollouts_body_trial _ _ _ _ Hbody)
      as (idx & entry & cpos & cneg & Hi & He & Hc & Htrial & Ht1 & Hs1 & Hl1).
    destruct (IH _ _ Hloop)
      as (idxs & entries & cs & Hi' & He' & Hc' & Hlen & Hlog & Ht2 & Hs2 & Hl2).
    exists (idx :: idxs), (entry :: entries), (cpos :: cneg :: cs).
    rewrite Hi', He', Hc', Hi, He, Hc, <- !app_assoc. simpl.
    repeat split; try congruence.
    constructor; [exact Htrial |].
    rewrite Ht1, Hs1, Hl1 in Hlog. exact Hlog.
Qed.

(** C6: every trial of a batch that is not an evaluation draws an offset
    [idx] with [sample_index], which lies in the table, and runs exactly two
    rollouts, the first with weights [w_policy + delta] and the second with
    [w_policy - delta], where [delta] is [delta_std] times the slice of the
    noise table at [idx] of the size of [w_policy]; both run with
    [update_filter] set and with the shift given; the batch returns [idx]
    and [[pos_reward, neg_reward]], the returns of these two rollouts. The
    two weight vectors are thus a function of [w_policy], [idx] and
    [delta_std] (and of the shared table). *)
Theorem do_rollouts_antithetic (w_policy : list A) (num_rollouts : Z)
  (shift : A) (result : RolloutResult A) w w' :
  do_rollouts w_policy num_rollouts shift false w = (w', Ok result) ->
  exists new_calls,
    calls w' = calls w ++ new_calls
    /\ len (deltas_idx result) = Z.max 0 num_rollouts
    /\ trials_logged
         (antithetic_trial w_policy (delta_std w) (noise (deltas w)) shift
            (rollout_length w))
         (deltas_idx result) (rollout_rewards result) new_calls.
Proof.
  unfold do_rollouts. intros Hrun.
  destruct (do_rollouts_loop_trials _ _ _ _ _ Hrun)
    as (idxs & entries & cs & Hi & He & Hc & Hlen & Hlog & _).
  simpl in Hi, He. exists cs. rewrite Hi, He.
  repeat split; try assumption. unfold len. lia.
Qed.

End DoRolloutsFacts.

(** ** The dispatch plan *)

Section DispatchFacts.
Import ARSAgent.

Lemma zsum_app (l1 l2 : list Z) : zsum (l1 ++ l2) = zsum l1 + zsum l2.
Proof. induction l1 as [| x l1 IH]; simpl; [reflexivity | rewrite IH; lia]. Qed.

Lemma zsum_map_const {X : Type} (f : X -> Z) (c : Z) (l : list X) :
  (forall x, In x l -> f x = c) -> zsum (map f l) = len l * c.
Proof.
  unfold len. induction l as [| x l IH]; intros Hc; [reflexivity |].
  cbn [map zsum fold_right length]. fold (zsum (map f l)).
  rewrite IH by (intros; apply Hc; now right).
  rewrite (Hc x) by now left. lia.
Qed.

Lemma trials_of_app (p1 p2 : list (nat * Z)) (i : nat) :
  trials_of (p1 ++ p2) i = trials_of p1 i + trials_of p2 i.
Proof.
  unfold trials_of. rewrite filter_app, map_app. apply zsum_app.
Qed.

Lemma requests_to_app (p1 p2 : list (nat * Z)) (i : nat) :
  requests_to (p1 ++ p2) i = (requests_to p1 i + requests_to p2 i)%nat.
Proof. unfold requests_to. now rewrite filter_app, length_app. Qed.

(** One request of [k] trials to each worker of a range: worker [i] is
    asked once if it is in the range. *)
Lemma filter_range (k : Z) (a n i : nat) :
  filter (fun r : nat * Z => Nat.eqb (fst r) i)
    (map (fun j => (j, k)) (seq a n))
  = if (a <=? i)%nat && (i <? a + n)%nat then [(i, k)] else [].
Proof.
  revert a. induction n as [| n IH]; intros a; cbn [seq map filter fst].
  - destruct (Nat.leb_spec a i), (Nat.ltb_spec i (a + 0));
      try reflexivity; lia.
  - rewrite IH.
    destruct (Nat.eqb_spec a i), (Nat.leb_spec a i), (Nat.leb_spec (S a) i),
             (Nat.ltb_spec i (S a + n)), (Nat.ltb_spec i (a + S n));
      cbn [andb]; subst; try reflexivity; lia.
Qed.

Lemma firstn_seq_le (k a n : nat) :
  (k <= n)%nat -> firstn k (seq a n) = seq a k.
Proof.
  revert a n. induction k as [| k IH]; intros a n Hk; [reflexivity |].
  destruct n as [| n]; [lia |]. simpl. f_equal. apply IH. lia.
Qed.

Lemma py_prefix_seq (n : nat) (k : Z) :
  0 <= k <= Z.of_nat n -> py_prefix (seq 0 n) k = seq 0 (Z.to_nat k).
Proof.
  intros Hk. unfold py_prefix, py_slice, slice_bound, len.
  rewrite length_seq. simpl (0 <? 0).
  destruct (Z.ltb_spec k 0); [lia |].
  rewrite Z.min_l by lia. rewrite Z.min_l by lia.
  rewrite Z.sub_0_r. simpl skipn.
  apply firstn_seq_le. lia.
Qed.

(** What the plan asks of worker [i], when [self.workers] has
    [num_workers] workers. *)
Lemma dispatch_plan_worker (num_deltas nw : Z) (i : nat) :
  0 <= num_deltas -> 1 <= nw -> (i < Z.to_nat nw)%nat ->
  let plan := dispatch_plan (Z.to_nat nw) num_deltas nw in
  let extra := if Z.of_nat i <? num_deltas mod nw then 1 else 0 in
  trials_of plan i = num_deltas / nw + extra
  /\ Z.of_nat (requests_to plan i) = 1 + extra.
Proof.
  intros Hnd Hnw Hi plan extra. subst plan extra. unfold dispatch_plan.
  rewrite trials_of_app, requests_to_app.
  unfold trials_of, requests_to, requests_one, requests_two.
  pose proof (Z.mod_pos_bound num_deltas nw ltac:(lia)) as Hmod.
  rewrite py_prefix_seq by lia.
  rewrite !filter_range. rewrite Z.quot_div_nonneg by lia.
  simpl (0 <=? i)%nat. cbn [andb]. rewrite !Nat.add_0_l.
  destruct (Nat.ltb_spec i (Z.to_nat nw)); [| lia].
  destruct (Nat.ltb_spec i (Z.to_nat (num_deltas mod nw))),
           (Z.ltb_spec (Z.of_nat i) (num_deltas mod nw)); try lia;
    simpl; split; lia.
Qed.

Lemma zsum_extra (n : nat) (r : Z) :
  0 <= r <= Z.of_nat n ->
  zsum (map (fun i => if Z.of_nat i <? r then 1 else 0) (seq 0 n)) = r.
Proof.
  intros Hr.
  replace n with (Z.to_nat r + (n - Z.to_nat r))%nat at 1 by lia.
  rewrite seq_app, map_app, zsum_app.
  rewrite (@zsum_map_const nat _ 1), (@zsum_map_const nat _ 0).
  - unfold len. rewrite !length_seq. lia.
  - intros i Hin. apply in_seq in Hin.
    destruct (Z.ltb_spec (Z.of_nat i) r); [lia | reflexivity].
  - intros i Hin. apply in_seq in Hin.
    destruct (Z.ltb_spec (Z.of_nat i) r); [reflexivity | lia].
Qed.

Lemma zsum_map_add {X : Type} (f g : X -> Z) (l : list X) :
  zsum (map (fun x => f x + g x) l) = zsum (map f l) + zsum (map g l).
Proof. induction l as [| x l IH]; simpl; [reflexivity | rewrite IH; lia]. Qed.

Lemma zsum_map_ext_in {X : Type} (f g : X -> Z) (l : list X) :
  (forall x, In x l -> f x = g x) -> zsum (map f l) = zsum (map g l).
Proof. intros Hfg. f_equal. now apply map_ext_in. Qed.

(** C8, as the code has it: for [num_deltas >= 1] and [num_workers >= 1]
    the coordinator sends every worker one request for
    [int(num_deltas / num_workers)] trials and each of the first
    [num_deltas % num_workers] workers a second request for one trial. The
    trials asked of the workers add up to [num_deltas], and what is asked
    of any two workers differs by at most one. *)
Theorem dispatch_plan_even (num_deltas nw : Z) :
  1 <= num_deltas -> 1 <= nw ->
  let n := Z.to_nat nw in
  let plan := dispatch_plan n num_deltas nw in
  zsum (map (trials_of plan) (seq 0 n)) = num_deltas
  /\ (forall i j, (i < n)%nat -> (j < n)%nat ->
        Z.abs (trials_of plan i - trials_of plan j) <= 1)
  /\ (forall i, (i < n)%nat ->
        requests_to plan i
        = if Z.of_nat i <? num_deltas mod nw then 2%nat else 1%nat).
Proof.
  intros Hnd Hnw n plan.
  pose proof (Z.mod_pos_bound num_deltas nw ltac:(lia)) as Hmod.
  split; [| split].
  - rewrite (@zsum_map_ext_in nat _
      (fun i => num_deltas / nw
                + (if Z.of_nat i <? num_deltas mod nw then 1 else 0))).
    + rewrite zsum_map_add, zsum_extra by lia.
      rewrite (@zsum_map_const nat _ (num_deltas / nw)) by reflexivity.
      unfold len. rewrite length_seq. subst n.
      rewrite Z2Nat.id by lia.
      pose proof (Z.div_mod num_deltas nw ltac:(lia)). lia.
    + intros i Hin. apply in_seq in Hin.
      apply dispatch_plan_worker; lia.
  - intros i j Hi Hj. subst plan n.
    destruct (@dispatch_plan_worker num_deltas nw i ltac:(lia) Hnw Hi)
      as [Hti _].
    destruct (@dispatch_plan_worker num_deltas nw j ltac:(lia) Hnw Hj)
      as [Htj _].
    cbv zeta in Hti, Htj. rewrite Hti, Htj.
    destruct (Z.of_nat i <? num_deltas mod nw),
             (Z.of_nat j <? num_deltas mod nw); lia.
  - intros i Hi. subst plan n.
    destruct (@dispatch_plan_worker num_deltas nw i ltac:(lia) Hnw Hi)
      as [_ Hreq].
    cbv zeta in Hreq.
    destruct (Z.of_nat i <? num_deltas mod nw); lia.
Qed.

End DispatchFacts.

(** C8, as the spec states it, fails on "one batch-request per worker":
    with three trials and two workers the first worker is sent two
    requests. *)
Lemma dispatch_plan_two_requests :
  ARSAgent.dispatch_plan 2 3 2 = [(0%nat, 1); (1%nat, 1); (0%nat, 1)]
  /\ ARSAgent.requests_to (ARSAgent.dispatch_plan 2 3 2) 0 = 2%nat.
Proof. split; reflexivity. Qed.

Lemma dispatch_plan_even_witness :
  let n := Z.to_nat 2 in
  let plan := ARSAgent.dispatch_plan n 3 2 in
  zsum (map (ARSAgent.trials_of plan) (seq 0 n)) = 3
  /\ (forall i j, (i < n)%nat -> (j < n)%nat ->
        Z.abs (ARSAgent.trials_of plan i - ARSAgent.trials_of plan j) <= 1)
  /\ (forall i, (i < n)%nat ->
        ARSAgent.requests_to plan i
        = if Z.of_nat i <? 3 mod 2 then 2%nat else 1%nat).
Proof. apply (@dispatch_plan_even 3 2); lia. Defined.

(** ** Selection by a mask *)

Section MaskFacts.
Context {X : Type}.


(** Taking the positions of a mask, when the array is at least as long as
    the mask, gives the masked items. *)
Lemma np_take_where (pre l : list X) (mask : list bool) :
  (length mask <= length l)%nat ->
  np_take (pre ++ l) (np_where (length pre) mask) = Ok (masked mask l).
Proof.
  revert pre l. induction mask as [| b mask IH]; intros pre l Hlen.
  - reflexivity.
  - destruct l as [| x l]; [simpl in Hlen; lia |].
    simpl in Hlen.
    assert (Hrest : np_take (pre ++ x :: l) (np_where (S (length pre)) mask)
                    = Ok (masked mask l)).
    { specialize (IH (pre ++ [x]) l ltac:(lia)).
      rewrite <- app_assoc, length_app in IH. simpl in IH.
      rewrite Nat.add_1_r in IH. exact IH. }
    simpl. destruct b; simpl; [| exact Hrest].
    rewrite Hrest, nth_error_app2 by lia.
    now rewrite Nat.sub_diag.
Qed.

(** When the array is shorter than a mask that holds past its end, taking
    raises. *)
Lemma np_take_ok_length (l : list X) (idx : list nat) (r : list X) :
  np_take l idx = Ok r -> Forall (fun i => (i < length l)%nat) idx.
Proof.
  revert r. induction idx as [| i idx IH]; intros r; simpl; [constructor |].
  destruct (nth_error l i) eqn:Hn; [| discriminate].
  destruct (np_take l idx); [| discriminate].
  intros _. constructor; [| eapply IH; reflexivity].
  apply nth_error_Some. congruence.
Qed.

Lemma masked_all_true (mask : list bool) (l : list X) :
  length mask = length l -> Forall (fun b => b = true) mask ->
  masked mask l = l.
Proof.
  revert l. induction mask as [| b mask IH]; intros [| x l] Hlen Hall;
    try discriminate; [reflexivity |].
  inversion Hall; subst. simpl. f_equal. apply IH; [now inversion Hlen | easy].
Qed.

Lemma masked_nonempty (mask : list bool) (l : list X) :
  length mask = length l -> In true mask -> masked mask l <> [].
Proof.
  revert l. induction mask as [| b mask IH]; intros [| x l] Hlen Hin;
    try discriminate; [destruct Hin |].
  simpl. destruct b; [discriminate |].
  destruct Hin as [Hb | Hin]; [discriminate |].
  apply IH; [now inversion Hlen | exact Hin].
Qed.

End MaskFacts.

(** ** Top-k selection *)

Section SelectFacts.
Import ARSAgent.
Context {A : Type} {NA : Numeric A} {G : Type} {RS : RandomState G}.
Context {Env Ob Act Filter Opt : Type}.
Context {GY : Gym A Env Ob Act} {PM : PolicyModel A Filter Ob Act}.
Context {OP : Optimizer A Opt}.
Implicit Types s : ARSAgent.t A G Env Filter Opt.

Lemma clamped_w_policy s : w_policy (clamped s) = w_policy s.
Proof. unfold clamped. now destruct (_ <? _). Qed.

Lemma select_top_runs (deltas_idx : list Z) (rows : list (A * A))
  (kept : list Z * list (A * A)) s s' :
  select_top deltas_idx (Array2 rows) s = (s', Ok kept) ->
  exists p,
    np_percentile (map row_max rows) (clamped_rank s) = Ok p
    /\ np_take deltas_idx
         (np_where 0 (map (fun r => nleb p (row_max r)) rows))
       = Ok (fst kept)
    /\ snd kept = masked (map (fun r => nleb p (row_max r)) rows) rows
    /\ num_deltas s <> 0
    /\ s' = clamped s.
Proof.
  unfold select_top. unfold bind at 1, gets at 1. unfold bind at 1, gets at 1.
  unfold bind at 1.
  assert (Hclamp :
    (if num_deltas s <? deltas_used s
     then modify (fun s0 => set_deltas_used s0 (num_deltas s0))
     else ret tt) s = (clamped s, Ok tt)).
  { unfold clamped. now destruct (_ <? _). }
  rewrite Hclamp. unfold bind at 1.
  assert (Hrank : percentile_rank (clamped s)
    = if num_deltas s =? 0 then (clamped s, Raise ZeroDivisionError)
      else (clamped s, Ok (clamped_rank s))).
  { unfold percentile_rank, bind, gets, true_div, clamped_rank, clamped.
    destruct (Z.ltb_spec (num_deltas s) (deltas_used s));
      cbn [deltas_used num_deltas set_deltas_used];
      destruct (num_deltas s =? 0); try reflexivity;
      [rewrite Z.min_r by lia | rewrite Z.min_l by lia]; reflexivity. }
  rewrite Hrank.
  destruct (Z.eqb_spec (num_deltas s) 0) as [| Hnd];
    [intros H; discriminate H |].
  unfold bind at 1, lift_res at 1.
  fold row_max.
  change (map (fun r : A * A => nmax (fst r) (snd r)) rows)
    with (map row_max rows).
  destruct (np_percentile (map row_max rows) (clamped_rank s)) as [p | e];
    [| intros H; discriminate H].
  rewrite map_map.
  unfold bind at 1, lift_res at 1.
  destruct (np_take deltas_idx _) as [d' | e] eqn:Hd;
    [| intros H; discriminate H].
  unfold bind at 1, lift_res at 1.
  pose proof (np_take_where [] rows
                (map (fun r => nleb p (row_max r)) rows)) as Hrows.
  simpl in Hrows. rewrite Hrows by (rewrite length_map; lia).
  unfold ret. intros Hret. inversion Hret; subst.
  exists p. repeat split; try assumption.
Qed.

End SelectFacts.

(** ** Exact arithmetic: order statistics and percentiles *)

Section ExactFacts.
Variable sq : Qc -> Qc.
Local Abbreviation NQ := (Qc_numeric sq).
Local Open Scope Qc_scope.

Lemma Qcleb_le (a b : Qc) : Qcleb a b = true <-> a <= b.
Proof. unfold Qcleb, Qcle. apply Qle_bool_iff. Qed.

Lemma Qcleb_total (a b : Qc) : Qcleb a b = false -> b <= a.
Proof.
  intros H. destruct (Qclt_le_dec a b) as [Hlt | Hle]; [| exact Hle].
  apply Qclt_le_weak, Qcleb_le in Hlt. congruence.
Qed.

Lemma insert_sorted_In (x y : Qc) (l : list Qc) :
  In y (insert_sorted (NA := NQ) x l) <-> y = x \/ In y l.
Proof.
  induction l as [| z l IH]; simpl.
  - split; intros [H | H]; auto.
  - destruct (Qcleb x z); simpl; [split; intros [H | H]; auto |].
    rewrite IH. split; intros H; tauto.
Qed.

Lemma np_sort_In (y : Qc) (l : list Qc) :
  In y (np_sort (NA := NQ) l) <-> In y l.
Proof.
  induction l as [| x l IH]; simpl; [tauto |].
  rewrite insert_sorted_In, IH. split; intros [H | H]; auto.
Qed.

Lemma insert_sorted_length (x : Qc) (l : list Qc) :
  length (insert_sorted (NA := NQ) x l) = S (length l).
Proof.
  induction l as [| z l IH]; simpl; [reflexivity |].
  destruct (Qcleb x z); simpl; [reflexivity | now rewrite IH].
Qed.

Lemma np_sort_length (l : list Qc) :
  length (np_sort (NA := NQ) l) = length l.
Proof.
  induction l as [| x l IH]; simpl; [reflexivity |].
  now rewrite insert_sorted_length, IH.
Qed.

Lemma insert_sorted_ascending (x : Qc) (l : list Qc) :
  ascending l -> ascending (insert_sorted (NA := NQ) x l).
Proof.
  induction 1 as [| z l Hz Hasc IH]; simpl.
  - repeat constructor.
  - destruct (Qcleb x z) eqn:Hxz.
    + apply Qcleb_le in Hxz. constructor; [| now constructor].
      constructor; [exact Hxz |].
      eapply Forall_impl; [| exact Hz].
      intros y Hy. eapply Qcle_trans; eassumption.
    + apply Qcleb_total in Hxz. constructor; [| exact IH].
      apply Forall_forall. intros y Hy.
      apply insert_sorted_In in Hy. destruct Hy as [-> | Hy]; [exact Hxz |].
      rewrite Forall_forall in Hz. now apply Hz.
Qed.

Lemma np_sort_ascending (l : list Qc) : ascending (np_sort (NA := NQ) l).
Proof.
  induction l as [| x l IH]; simpl; [constructor |].
  now apply insert_sorted_ascending.
Qed.

(** The first element of the sorted array is below every element. *)
Lemma np_sort_head_least (l : list Qc) (x0 : Qc) (rest : list Qc) :
  np_sort (NA := NQ) l = x0 :: rest -> forall y, In y l -> x0 <= y.
Proof.
  intros Hs y Hy. apply (proj2 (np_sort_In y l)) in Hy. rewrite Hs in Hy.
  pose proof (np_sort_ascending l) as Hasc. rewrite Hs in Hasc.
  inversion Hasc as [| ? ? Hall _]; subst.
  destruct Hy as [<- | Hy]; [apply Qcle_refl |].
  rewrite Forall_forall in Hall. now apply Hall.
Qed.

(** A non-empty list has a greatest element. *)
Lemma greatest_exists (l : list Qc) :
  l <> [] -> exists m, In m l /\ forall y, In y l -> y <= m.
Proof.
  induction l as [| x l IH]; [congruence | intros _].
  destruct l as [| z l].
  - exists x. split; [now left |]. intros y [<- | []]. apply Qcle_refl.
  - destruct IH as (m & Hm & Hmax); [discriminate |].
    destruct (Qclt_le_dec m x) as [Hlt | Hle].
    + exists x. split; [now left |].
      intros y [<- | Hy]; [apply Qcle_refl |].
      eapply Qcle_trans; [now apply Hmax | now apply Qclt_le_weak].
    + exists m. split; [now right |].
      intros y [<- | Hy]; [exact Hle | now apply Hmax].
Qed.

Lemma Qc_of_Z_le_floor (x : Qc) : Qc_of_Z (Qcfloor x) <= x.
Proof.
  unfold Qcle, Qc_of_Z, Qcfloor, Q2Qc. cbn [this]. rewrite Qred_correct.
  apply Qfloor_le.
Qed.

Lemma Qc_of_Z_succ (z : Z) : Qc_of_Z (z + 1) = Qc_of_Z z + 1.
Proof.
  unfold Qc_of_Z, Qcplus. apply Q2Qc_eq_iff. unfold Q2Qc. cbn [this].
  rewrite !Qred_correct. rewrite inject_Z_plus. reflexivity.
Qed.

Lemma Qc_lt_floor_succ (x : Qc) : x < Qc_of_Z (Qcfloor x) + 1.
Proof.
  rewrite <- Qc_of_Z_succ.
  unfold Qclt, Qc_of_Z, Qcfloor, Q2Qc. cbn [this]. rewrite Qred_correct.
  apply Qlt_floor.
Qed.

Lemma Qc_of_Z_eq_0 (z : Z) : Qc_of_Z z = 0 -> z = 0%Z.
Proof.
  unfold Qc_of_Z. intros H. apply Q2Qc_eq_iff in H.
  unfold Qeq in H. simpl in H. lia.
Qed.

(** A convex combination of two values below [m] is below [m]. *)
Lemma convex_le (u v wa m : Qc) :
  u <= m -> v <= m -> 0 <= wa -> wa <= 1 ->
  u * (1 - wa) + v * wa <= m.
Proof.
  intros Hu Hv H0 H1.
  replace m with (m * (1 - wa) + m * wa) by ring.
  apply Qcplus_le_compat; apply Qcmult_le_compat_r; try assumption.
  apply Qcle_minus_iff in H1. exact H1.
Qed.

Lemma nth_In_or_default {X : Type} (n : nat) (l : list X) (d : X) :
  In (nth n l d) l \/ nth n l d = d.
Proof. destruct (nth_in_or_default n l d); [now left | now right]. Qed.

(** No rational is a nan. *)
Lemma has_nan_exact (a : list Qc) : has_nan (NA := NQ) a = false.
Proof.
  unfold has_nan. induction a as [| x a IH]; [reflexivity |].
  cbn [existsb]. rewrite IH.
  cbn [nleb NQ Qc_numeric].
  rewrite (proj2 (Qcleb_le x x) (Qcle_refl x)). reflexivity.
Qed.

(** The percentile of a non-empty array is at most its greatest element. *)
Lemma np_percentile_le_greatest (a : list Qc) (q p m : Qc) :
  np_percentile (NA := NQ) a q = Ok p ->
  a <> [] ->
  (forall y, In y a -> y <= m) ->
  p <= m.
Proof.
  unfold np_percentile. rewrite has_nan_exact.
  cbn [nleb ndiv nmul nsub nadd of_Z nfloor NQ Qc_numeric].
  destruct (_ && _); [| discriminate].
  destruct (np_sort a) as [| x0 rest] eqn:Hs.
  { intros _ Ha. exfalso. apply Ha.
    apply length_zero_iff_nil. rewrite <- (np_sort_length a), Hs. reflexivity. }
  intros Hp _ Hm. inversion Hp; subst p; clear Hp.
  assert (Hin : forall n, nth n (x0 :: rest) x0 <= m).
  { intros n. apply Hm. apply (proj1 (np_sort_In _ a)). rewrite Hs.
    destruct (nth_In_or_default n (x0 :: rest) x0) as [H | ->];
      [exact H | now left]. }
  set (index := q / Qc_of_Z 100 * Qc_of_Z (len a - 1)).
  change (Qc_of_Z 1) with 1.
  assert (H0 : 0 <= index - Qc_of_Z (Qcfloor index)).
  { exact (proj1 (Qcle_minus_iff _ _) (Qc_of_Z_le_floor index)). }
  assert (H1 : index - Qc_of_Z (Qcfloor index) <= 1).
  { apply Qcle_minus_iff. apply Qclt_le_weak.
    pose proof (proj1 (Qclt_minus_iff _ _) (Qc_lt_floor_succ index)) as Hlt.
    replace (1 + - (index - Qc_of_Z (Qcfloor index)))
      with (Qc_of_Z (Qcfloor index) + 1 + - index) by ring.
    exact Hlt. }
  apply convex_le; try assumption.
  - exact (Hin (Z.to_nat (Qcfloor index))).
  - exact (Hin (Z.to_nat (Z.min (Qcfloor index + 1) (len a - 1)))).
Qed.

(** At rank 0 the percentile is the least element. *)
Lemma np_percentile_0 (a : list Qc) :
  a <> [] ->
  exists p, np_percentile (NA := NQ) a 0 = Ok p
            /\ forall y, In y a -> p <= y.
Proof.
  intros Ha. unfold np_percentile. rewrite has_nan_exact.
  cbn [nleb ndiv nmul nsub nadd of_Z nfloor NQ Qc_numeric].
  assert (Hq : 0 / Qc_of_Z 100 = 0) by (unfold Qcdiv; apply Qcmult_0_l).
  rewrite Hq. rewrite Qcmult_0_l.
  assert (Hin : Qcleb (Qc_of_Z 0) 0 && Qcleb 0 (Qc_of_Z 1) = true)
    by (vm_compute; reflexivity).
  rewrite Hin.
  destruct (np_sort a) as [| x0 rest] eqn:Hs.
  { exfalso. apply Ha.
    apply length_zero_iff_nil. rewrite <- (np_sort_length a), Hs. reflexivity. }
  assert (Hfl : Qcfloor 0 = 0%Z) by (vm_compute; reflexivity).
  rewrite Hfl.
  exists x0. split.
  - f_equal. change (Qc_of_Z 1) with 1. change (Qc_of_Z 0) with 0.
    change (nth (Z.to_nat 0) (x0 :: rest) x0) with x0. ring.
  - intros y Hy. eapply np_sort_head_least; eassumption.
Qed.

End ExactFacts.

(** ** Top-k selection in exact arithmetic *)

Section SelectExact.
Import ARSAgent.
Variable sq : Qc -> Qc.
Context {G : Type} {RS : RandomState G}.
Context {Env Ob Act Filter Opt : Type}.
Context {GY : Gym Qc Env Ob Act} {PM : PolicyModel Qc Filter Ob Act}.
Context {OP : Optimizer Qc Opt}.
Local Abbreviation NQ := (Qc_numeric sq).
Local Abbreviation Agent := (ARSAgent.t Qc G Env Filter Opt).
Local Open Scope Qc_scope.

Lemma np_take_length {X : Type} (l : list X) (idx : list nat) (r : list X) :
  np_take l idx = Ok r -> length r = length idx.
Proof.
  revert r. induction idx as [| i idx IH]; intros r; simpl.
  - intros H. now inversion H.
  - destruct (nth_error l i); [| discriminate].
    destruct (np_take l idx) as [r' |]; [| discriminate].
    intros H. inversion H; subst. simpl. f_equal. now apply IH.
Qed.

(** With [deltas_used >= num_deltas] the rank is 0. *)
Lemma clamped_rank_all (s : Agent) :
  (num_deltas s <= deltas_used s)%Z -> num_deltas s <> 0%Z ->
  clamped_rank (NA := NQ) s = 0.
Proof.
  intros Hle Hnd. unfold clamped_rank.
  cbn [nmul nsub ndiv of_Z NQ Qc_numeric].
  rewrite Z.min_r by lia.
  change (Qc_of_Z 1) with 1.
  assert (Hx : Qc_of_Z (num_deltas s) <> 0).
  { intros H. apply Hnd. now apply Qc_of_Z_eq_0. }
  field. exact Hx.
Qed.

(** In exact arithmetic, with [deltas_used] equal to [num_deltas] (or above
    it, which the clamp makes equal) the percentile is the least of the
    per-trial maxima and every trial is kept. *)
Lemma select_top_all_kept_exact (deltas_idx : list Z) (rows : list (Qc * Qc))
  (kept : list Z * list (Qc * Qc)) (s s' : Agent) :
  select_top (NA := NQ) deltas_idx (Array2 rows) s = (s', Ok kept) ->
  (num_deltas s <= deltas_used s)%Z ->
  snd kept = rows.
Proof.
  intros Hrun Hle.
  apply select_top_runs in Hrun. destruct Hrun as (p & Hp & Hd & Hk & Hnd & _).
  set (mask := map (fun r => nleb (Numeric := NQ) p (row_max r)) rows) in *.
  assert (Hall : Forall (fun b => b = true) mask).
  { unfold mask. apply Forall_forall. intros b Hb.
    apply in_map_iff in Hb. destruct Hb as (r & <- & Hr).
    rewrite (clamped_rank_all s Hle Hnd) in Hp.
    destruct (np_percentile_0 sq (a := map (row_max (NA := NQ)) rows))
      as (p0 & Hp0 & Hleast).
    { destruct rows; [destruct Hr | discriminate]. }
    rewrite Hp0 in Hp. inversion Hp; subst p0.
    apply Qcleb_le. apply Hleast.
    apply (in_map (row_max (NA := NQ))). exact Hr. }
  rewrite Hk. apply masked_all_true; [| exact Hall].
  unfold mask. now rewrite length_map.
Qed.

(** In exact arithmetic the greatest of the per-trial maxima is never below
    the percentile, so a selection over at least one trial keeps at least
    one. *)
Lemma select_top_keeps_one_exact (deltas_idx : list Z) (rows : list (Qc * Qc))
  (kept : list Z * list (Qc * Qc)) (s s' : Agent) :
  select_top (NA := NQ) deltas_idx (Array2 rows) s = (s', Ok kept) ->
  rows <> [] ->
  snd kept <> [].
Proof.
  intros Hrun Hrows.
  apply select_top_runs in Hrun. destruct Hrun as (p & Hp & Hd & Hk & _).
  set (mask := map (fun r => nleb (Numeric := NQ) p (row_max r)) rows) in *.
  destruct (greatest_exists (l := map (row_max (NA := NQ)) rows))
    as (m & Hm & Hmax).
  { destruct rows; [congruence | discriminate]. }
  assert (Hpm : p <= m).
  { eapply np_percentile_le_greatest; [exact Hp | | exact Hmax].
    destruct rows; [congruence | discriminate]. }
  apply in_map_iff in Hm. destruct Hm as (r & <- & Hr).
  assert (Hin : In true mask).
  { unfold mask. apply in_map_iff. exists r. split; [| exact Hr].
    now apply Qcleb_le. }
  assert (Hlen : length mask = length rows)
    by (unfold mask; now rewrite length_map).
  rewrite Hk. now apply masked_nonempty.
Qed.

End SelectExact.

(** ** Top-k selection on any carrier *)

Section SelectGeneral.
Import ARSAgent.
Context {A : Type} {NA : Numeric A} {G : Type} {RS : RandomState G}.
Context {Env Ob Act Filter Opt : Type}.
Context {GY : Gym A Env Ob Act} {PM : PolicyModel A Filter Ob Act}.
Context {OP : Optimizer A Opt}.
Implicit Types s : ARSAgent.t A G Env Filter Opt.






End SelectGeneral.


(** ** The batched sum is the sum *)

Section BatchedSumFacts.
Variable sq : Qc -> Qc.
Local Abbreviation NQ := (Qc_numeric sq).
Local Abbreviation add := (vadd (NA := NQ)).
Local Abbreviation wsum := (weighted_sum (NA := NQ)).
Local Open Scope Qc_scope.

Lemma vadd_comm (u v : list Qc) : add u v = add v u.
Proof.
  unfold vadd. revert v. induction u as [| x u IH]; intros [| y v];
    simpl; try reflexivity.
  rewrite IH. f_equal. apply Qcplus_comm.
Qed.

Lemma vadd_assoc (u v w : list Qc) : add u (add v w) = add (add u v) w.
Proof.
  unfold vadd. revert v w.
  induction u as [| x u IH]; intros [| y v] [| z w]; simpl; try reflexivity.
  rewrite IH. f_equal. apply Qcplus_assoc.
Qed.

Lemma vzero_idem (dim : Z) :
  add (vzero (NA := NQ) dim) (vzero (NA := NQ) dim) = vzero (NA := NQ) dim.
Proof.
  unfold vadd, vzero. generalize (Z.to_nat dim) as n.
  induction n as [| n IH]; [reflexivity |].
  cbn [repeat zip_with]. rewrite IH. f_equal.
Qed.

(** The sum of a list of trials already holds the zero vector. *)
Lemma wsum_absorbs_zero (dim : Z) (l : list (Qc * list Qc)) :
  add (vzero (NA := NQ) dim) (wsum dim l) = wsum dim l.
Proof.
  induction l as [| [w v] l IH]; simpl.
  - apply vzero_idem.
  - rewrite vadd_assoc, (vadd_comm (vzero dim)), <- vadd_assoc.
    now rewrite IH.
Qed.

Lemma wsum_app (dim : Z) (l1 l2 : list (Qc * list Qc)) :
  wsum dim (l1 ++ l2) = add (wsum dim l1) (wsum dim l2).
Proof.
  induction l1 as [| [w v] l1 IH]; simpl.
  - symmetry. apply wsum_absorbs_zero.
  - rewrite IH. apply vadd_assoc.
Qed.

(** The dot product of a group, accumulated from the left, is its sum. *)
Lemma fold_left_wsum (dim : Z) (l : list (Qc * list Qc)) (total : list Qc) :
  add total (vzero (NA := NQ) dim) = total ->
  fold_left (fun t wv => add t (vscale (NA := NQ) (fst wv) (snd wv))) l total
  = add total (wsum dim l).
Proof.
  revert total. induction l as [| [w v] l IH]; intros total Hz; simpl.
  - now rewrite Hz.
  - rewrite IH.
    + now rewrite vadd_assoc.
    + rewrite <- vadd_assoc, (vadd_comm (vscale w v)), vadd_assoc.
      now rewrite Hz.
Qed.

Lemma np_dot_wsum (dim : Z) (weights : list Qc) (vecs : list (list Qc)) :
  np_dot (NA := NQ) dim weights vecs = wsum dim (combine weights vecs).
Proof.
  unfold np_dot. rewrite (fold_left_wsum dim).
  - apply wsum_absorbs_zero.
  - apply vzero_idem.
Qed.

Lemma combine_firstn {X Y : Type} (k : nat) (l : list X) (r : list Y) :
  combine (firstn k l) (firstn k r) = firstn k (combine l r).
Proof.
  revert l r. induction k as [| k IH]; intros [| x l] [| y r]; simpl;
    try reflexivity.
  now rewrite IH.
Qed.

Lemma combine_skipn {X Y : Type} (k : nat) (l : list X) (r : list Y) :
  combine (skipn k l) (skipn k r) = skipn k (combine l r).
Proof.
  revert l r. induction k as [| k IH]; intros [| x l] [| y r]; simpl;
    try reflexivity.
  - now destruct (skipn k l).
  - apply IH.
Qed.

(** The total of [batched_weighted_sum] is the sum over all items. *)
Lemma batched_total (dim : Z) (fuel k : nat) (weights : list Qc)
  (vecs : list (list Qc)) (total : list Qc) (count : Z) :
  (1 <= k)%nat ->
  length weights = length vecs ->
  (length weights <= fuel)%nat ->
  add total (vzero (NA := NQ) dim) = total ->
  fst (fold_left
         (fun tc g =>
            (add (fst tc) (np_dot (NA := NQ) dim (fst g) (snd g)),
             (snd tc + len (fst g))%Z))
         (combine (itergroups fuel k weights) (itergroups fuel k vecs))
         (total, count))
  = add total (wsum dim (combine weights vecs)).
Proof.
  intros Hk. revert weights vecs total count.
  induction fuel as [| fuel IH]; intros weights vecs total count Hlen Hfuel Hz.
  - destruct weights; [| simpl in Hfuel; lia].
    simpl. now rewrite Hz.
  - destruct weights as [| w weights], vecs as [| v vecs];
      try discriminate.
    + simpl. now rewrite Hz.
    + cbn [itergroups combine fold_left fst snd].
      rewrite IH.
      * rewrite np_dot_wsum, combine_firstn, combine_skipn.
        rewrite <- vadd_assoc, <- wsum_app, firstn_skipn. reflexivity.
      * rewrite !length_skipn. congruence.
      * rewrite length_skipn. cbn [length] in Hfuel |- *. lia.
      * rewrite np_dot_wsum, <- vadd_assoc.
        now rewrite (vadd_comm (wsum _ _)), wsum_absorbs_zero.
Qed.

Lemma batched_weighted_sum_is_sum (dim : Z) (weights : list Qc)
  (vecs : list (list Qc)) (batch_size : nat) :
  (1 <= batch_size)%nat ->
  length weights = length vecs ->
  fst (batched_weighted_sum (NA := NQ) dim weights vecs batch_size)
  = wsum dim (combine weights vecs).
Proof.
  intros Hk Hlen. unfold batched_weighted_sum. rewrite <- Hlen.
  rewrite batched_total; try assumption; try lia.
  - apply wsum_absorbs_zero.
  - apply vzero_idem.
Qed.

End BatchedSumFacts.

(** ** What aggregation leaves alone *)

Section FrameFacts.
Import ARSAgent.
Context {A : Type} {NA : Numeric A} {G : Type} {RS : RandomState G}.
Context {Env Ob Act Filter Opt : Type}.
Context {GY : Gym A Env Ob Act} {PM : PolicyModel A Filter Ob Act}.
Context {OP : Optimizer A Opt}.
Local Abbreviation Agent := (ARSAgent.t A G Env Filter Opt).
Local Abbreviation keeps m :=
  (keeps_canon (A := A) (G := G) (Env := Env) (Filter := Filter)
     (Opt := Opt) m).

Lemma same_canon_refl (s : Agent) : same_canon s s.
Proof. repeat split. Qed.

Lemma same_canon_trans (s1 s2 s3 : Agent) :
  same_canon s1 s2 -> same_canon s2 s3 -> same_canon s1 s3.
Proof.
  unfold same_canon. intros (?&?&?&?&?&?) (?&?&?&?&?&?).
  repeat split; congruence.
Qed.

Lemma keeps_ret {X : Type} (x : X) : keeps (ret x).
Proof. intros s. apply same_canon_refl. Qed.

Lemma keeps_raise {X : Type} (e : exn) : keeps (raise (X := X) e).
Proof. intros s. apply same_canon_refl. Qed.

Lemma keeps_gets {X : Type} (f : Agent -> X) : keeps (gets f).
Proof. intros s. apply same_canon_refl. Qed.

Lemma keeps_lift_res {X : Type} (r : res X) : keeps (lift_res r).
Proof. intros s. apply same_canon_refl. Qed.

Lemma keeps_bind {X Y : Type} (m : M Agent X) (k : X -> M Agent Y) :
  keeps m -> (forall x, keeps (k x)) -> keeps (bind m k).
Proof.
  intros Hm Hk s. unfold bind. specialize (Hm s).
  destruct (m s) as [s1 [x | e]]; simpl in *; [| exact Hm].
  eapply same_canon_trans; [exact Hm | apply Hk].
Qed.

Lemma keeps_if {X : Type} (b : bool) (m1 m2 : M Agent X) :
  keeps m1 -> keeps m2 -> keeps (if b then m1 else m2).
Proof. now destruct b. Qed.

Lemma keeps_int_div (a b : Z) : keeps (int_div a b).
Proof. apply keeps_if; [apply keeps_raise | apply keeps_ret]. Qed.

Lemma keeps_py_mod (a b : Z) : keeps (py_mod a b).
Proof. apply keeps_if; [apply keeps_raise | apply keeps_ret]. Qed.

Lemma keeps_true_div (a b : Z) : keeps (true_div a b).
Proof. apply keeps_if; [apply keeps_raise | apply keeps_ret]. Qed.

Lemma keeps_remote (i : nat)
  (call : M (Worker.t A G Env Filter) (Worker.RolloutResult A)) :
  keeps (remote i call).
Proof.
  intros s. unfold remote.
  destruct (nth_error (workers s) i) as [w |]; [| apply same_canon_refl].
  destruct (call w) as [w' r]. repeat split.
Qed.

Lemma keeps_remote_all (reqs : list (nat * Z))
  (call : Z -> M (Worker.t A G Env Filter) (Worker.RolloutResult A)) :
  keeps (remote_all reqs call).
Proof.
  induction reqs as [| [i n] reqs IH]; simpl; [apply keeps_ret |].
  apply keeps_bind; [apply keeps_remote | intros r].
  apply keeps_bind; [exact IH | intros rs; apply keeps_ret].
Qed.

Lemma keeps_gather (evaluate : bool) (results : list (Worker.RolloutResult A))
  (acc : list Z * list (reward_entry A)) :
  keeps (gather evaluate results acc).
Proof.
  revert acc. induction results as [| r results IH]; intros acc; simpl;
    [apply keeps_ret |].
  apply keeps_bind; [| intros _; apply IH].
  apply keeps_if; [apply keeps_ret |]. intros s. repeat split.
Qed.

Lemma keeps_generate_rollouts (num_rollouts : option Z) (evaluate : bool) :
  keeps (generate_rollouts num_rollouts evaluate).
Proof.
  unfold generate_rollouts.
  repeat (first
    [ apply keeps_bind; [| intros ?]
    | apply keeps_gets | apply keeps_ret | apply keeps_lift_res
    | apply keeps_int_div | apply keeps_py_mod
    | apply keeps_remote_all | apply keeps_gather
    | match goal with |- keeps (match ?o with _ => _ end) =>
        destruct o end ]).
Qed.

Lemma keeps_percentile_rank : keeps percentile_rank.
Proof.
  unfold percentile_rank.
  repeat (first
    [ apply keeps_bind; [| intros ?]
    | apply keeps_gets | apply keeps_ret | apply keeps_true_div ]).
Qed.

Lemma keeps_select_top (deltas_idx : list Z) (rollout_rewards : ndarray A) :
  keeps (select_top deltas_idx rollout_rewards).
Proof.
  unfold select_top. destruct rollout_rewards; [apply keeps_raise |].
  repeat (first
    [ apply keeps_bind; [| intros ?]
    | apply keeps_gets | apply keeps_ret | apply keeps_lift_res
    | apply keeps_percentile_rank
    | apply keeps_if
    | intros s; repeat split ]).
Qed.

(** The generator of noise slices reads the table and leaves it as it
    is. *)
Lemma get_all_runs (deltas_idx : list Z) (size : Z)
  (t : SharedNoiseTable G A) :
  get_all deltas_idx size t
  = (t, Ok (map (fun idx => py_slice (noise t) idx (idx + size))
              deltas_idx)).
Proof.
  induction deltas_idx as [| idx l IH]; simpl; [reflexivity |].
  unfold bind at 1. unfold get at 1. unfold bind at 1. rewrite IH.
  reflexivity.
Qed.

Lemma weigh_runs (deltas_idx : list Z) (rows : list (A * A)) (s : Agent) :
  exists s',
    weigh deltas_idx rows s
    = (s', Ok (vdiv
                 (fst (batched_weighted_sum (len (w_policy s))
                         (map (fun r => nsub (fst r) (snd r)) rows)
                         (map (fun idx =>
                                 py_slice (noise (deltas s)) idx
                                   (idx + len (w_policy s)))
                              deltas_idx)
                         500))
                 (of_Z (len deltas_idx))))
    /\ same_canon s s'.
Proof.
  unfold weigh. unfold bind at 1, gets at 1. unfold bind at 1, zoom at 1.
  rewrite get_all_runs. unfold ret.
  eexists. split; [reflexivity |]. repeat split.
Qed.

Lemma keeps_weigh (deltas_idx : list Z) (rows : list (A * A)) :
  keeps (weigh deltas_idx rows).
Proof.
  intros s. destruct (weigh_runs deltas_idx rows s) as (s' & Hrun & Hsame).
  now rewrite Hrun.
Qed.

Lemma keeps_aggregate_rollouts (num_rollouts : option Z) (evaluate : bool) :
  keeps (aggregate_rollouts num_rollouts evaluate).
Proof.
  unfold aggregate_rollouts.
  apply keeps_bind; [apply keeps_generate_rollouts | intros dr].
  destruct evaluate; [apply keeps_ret |].
  apply keeps_bind; [apply keeps_select_top | intros kept].
  apply keeps_bind; [apply keeps_weigh | intros g; apply keeps_ret].
Qed.

(** C4: when [aggregate_rollouts] raises, [train_step] raises the same
    error in the state aggregation reached, and the canonical weights are
    the ones the step started with: the update of [w_policy] comes after
    [aggregate_rollouts] has returned. *)
Theorem train_step_aggregation_error (s s1 : Agent) (e : exn) :
  aggregate_rollouts None false s = (s1, Raise e) ->
  train_step s = (s1, Raise e) /\ w_policy s1 = w_policy s.
Proof.
  intros Hagg. split.
  - unfold train_step, bind. now rewrite Hagg.
  - pose proof (keeps_aggregate_rollouts None false s) as Hkeep.
    rewrite Hagg in Hkeep. apply Hkeep.
Qed.

(** A step that raises, wherever it does, leaves the canonical weights as
    they were; a step that returns has subtracted one optimizer step from
    them. *)
Lemma train_step_all_or_nothing (s s' : Agent) (r : res unit) :
  train_step s = (s', r) ->
  match r with
  | Raise _ => w_policy s' = w_policy s
  | Ok _ =>
      exists s1 g_hat o' step,
        aggregate_rollouts None false s = (s1, Ok (Array1 g_hat))
        /\ _compute_step g_hat (optimizer s1) = (o', Ok step)
        /\ w_policy s' = vsub (w_policy s) step
  end.
Proof.
  unfold train_step. unfold bind at 1.
  pose proof (keeps_aggregate_rollouts None false s) as Hkeep.
  destruct (aggregate_rollouts None false s) as [s1 [g | e]] eqn:Hagg;
    simpl in Hkeep; destruct Hkeep as (Hw & _).
  2: { intros H. inversion H; subst. exact Hw. }
  destruct g as [g_hat | rows].
  2: { unfold raise. intros H. inversion H; subst. exact Hw. }
  unfold bind at 1, zoom at 1.
  destruct (_compute_step g_hat (optimizer s1)) as [o' [step | e]] eqn:Hopt.
  2: { intros H. inversion H; subst. exact Hw. }
  unfold bind at 1, gets at 1. unfold bind at 1, reshape.
  cbn [w_policy set_optimizer].
  destruct (len step =? len (w_policy s1)).
  - unfold ret, modify. intros H. inversion H; subst.
    exists s1, g_hat, o', step. repeat split; try assumption.
    cbn [w_policy set_w_policy set_optimizer]. now rewrite Hw.
  - unfold raise. intros H. inversion H; subst.
    cbn [w_policy set_optimizer]. exact Hw.
Qed.

End FrameFacts.

(** ** The gradient estimate *)

Section GradientFacts.
Import ARSAgent.
Variable sq : Qc -> Qc.
Context {G : Type} {RS : RandomState G}.
Context {Env Ob Act Filter Opt : Type}.
Context {GY : Gym Qc Env Ob Act} {PM : PolicyModel Qc Filter Ob Act}.
Context {OP : Optimizer Qc Opt}.
Local Abbreviation NQ := (Qc_numeric sq).
Local Abbreviation Agent := (ARSAgent.t Qc G Env Filter Opt).

Lemma combine_map_flip {X Y X' Y' : Type} (f : X -> X') (g : Y -> Y')
  (l : list X) (r : list Y) :
  combine (map f l) (map g r)
  = map (fun t => (f (snd t), g (fst t))) (combine r l).
Proof.
  revert r. induction l as [| x l IH]; intros [| y r]; simpl;
    try reflexivity.
  now rewrite IH.
Qed.

Lemma masked_length {X Y : Type} (mask : list bool) (l : list X)
  (r : list Y) :
  length l = length r -> length (masked mask l) = length (masked mask r).
Proof.
  revert l r. induction mask as [| b mask IH]; intros [| x l] [| y r] Hlen;
    try discriminate; try reflexivity.
  simpl. destruct b; simpl; [f_equal |]; apply IH; now inversion Hlen.
Qed.

Lemma normalize_length (rows : list (Qc * Qc)) :
  length (normalize (NA := NQ) rows) = length rows.
Proof. unfold normalize. apply length_map. Qed.

(** The stages of a training aggregation that returned. *)
Lemma aggregate_rollouts_stages (num_rollouts : option Z)
  (s s' : Agent) (g : ndarray Qc) :
  aggregate_rollouts (NA := NQ) num_rollouts false s = (s', Ok g) ->
  exists s1 s2 all_idx all_rewards kept g_hat,
    generate_rollouts (NA := NQ) num_rollouts false s
    = (s1, Ok (all_idx, all_rewards))
    /\ select_top (NA := NQ) all_idx all_rewards s1 = (s2, Ok kept)
    /\ weigh (NA := NQ) (fst kept) (normalize (NA := NQ) (snd kept)) s2
       = (s', Ok g_hat)
    /\ g = Array1 g_hat.
Proof.
  unfold aggregate_rollouts. unfold bind at 1.
  destruct (generate_rollouts num_rollouts false s) as [s1 [[ai ar] | e]]
    eqn:Hgen; [| intros H; discriminate H].
  cbv beta iota. cbn [fst snd]. unfold bind at 1.
  destruct (select_top ai ar s1) as [s2 [kept | e]] eqn:Hsel;
    [| intros H; discriminate H].
  unfold bind at 1.
  destruct (weigh (fst kept) (normalize (snd kept)) s2) as [s3 [g_hat | e]]
    eqn:Hw; [| intros H; discriminate H].
  unfold ret. intros H. inversion H; subst.
  exists s1, s2, ai, ar, kept, g_hat. repeat split; assumption.
Qed.

(** C1: the estimate [aggregate_rollouts] returns is, over the trials the
    selection kept, the sum of [(reward_pos - reward_neg)] times the
    perturbation that [get] reconstructs from the trial's offset, divided by
    the number of trials kept. The rewards are those of step 5, divided by
    the standard deviation of the rewards kept. *)
Theorem aggregate_rollouts_g_hat (num_rollouts : option Z)
  (s s' : Agent) (g : ndarray Qc) :
  aggregate_rollouts (NA := NQ) num_rollouts false s = (s', Ok g) ->
  exists s1 s2 all_idx all_rewards kept,
    generate_rollouts (NA := NQ) num_rollouts false s
    = (s1, Ok (all_idx, all_rewards))
    /\ select_top (NA := NQ) all_idx all_rewards s1 = (s2, Ok kept)
    /\ length (fst kept) = length (snd kept)
    /\ g = Array1
             (g_hat_of sq (noise (deltas s)) (len (w_policy s))
                (combine (fst kept) (normalize (NA := NQ) (snd kept)))).
Proof.
  intros Hagg.
  apply aggregate_rollouts_stages in Hagg. destruct Hagg
    as (s1 & s2 & ai & ar & kept & g_hat & Hgen & Hsel & Hw & ->).
  exists s1, s2, ai, ar, kept.
  split; [exact Hgen |]. split; [exact Hsel |].
  pose proof (keeps_generate_rollouts (NA := NQ) num_rollouts false s) as K1.
  rewrite Hgen in K1. destruct K1 as (Kw1 & Kd1 & _).
  pose proof (keeps_select_top (NA := NQ) ai ar s1) as K2.
  rewrite Hsel in K2. destruct K2 as (Kw2 & Kd2 & _).
  cbn [fst] in *.
  assert (Hlen : length (fst kept) = length (snd kept)).
  { destruct ar as [a1 | rows];
      [unfold select_top, raise in Hsel; discriminate Hsel |].
    apply select_top_runs in Hsel.
    destruct Hsel as (p & _ & Hd & Hk & _).
    match type of Hk with _ = masked ?m _ => set (mask := m) in * end.
    apply np_take_length in Hd. rewrite Hd, Hk.
    assert (Hm : (length mask <= length rows)%nat)
      by (unfold mask; rewrite length_map; lia).
    pose proof (np_take_where [] rows mask Hm) as Ht.
    apply np_take_length in Ht. simpl in Ht. now rewrite Ht. }
  split; [exact Hlen |].
  destruct (weigh_runs (NA := NQ) (fst kept)
              (normalize (NA := NQ) (snd kept)) s2)
    as (s3 & Hrun & _).
  rewrite Hrun in Hw. inversion Hw; subst s3 g_hat. clear Hw.
  f_equal. unfold g_hat_of.
  rewrite batched_weighted_sum_is_sum.
  - rewrite Kw2, Kw1, Kd2, Kd1.
    rewrite (combine_map_flip (fun r : Qc * Qc => Qcminus (fst r) (snd r))
               (fun idx => py_slice (noise (deltas s)) idx
                             (idx + len (w_policy s)))
               (normalize (NA := NQ) (snd kept)) (fst kept)).
    unfold len. rewrite length_combine, normalize_length, <- Hlen, Nat.min_id.
    reflexivity.
  - lia.
  - rewrite !length_map. now rewrite normalize_length.
Qed.

End GradientFacts.



(** ** Concrete runs *)

Lemma do_rollouts_antithetic_witness :
  let w := Toy.worker_Qc in
  let run := Toy.do_rollouts_Qc [Qc_of_Z 1] 2 (Q2Qc 0) false w in
  let result :=
    match snd run with
    | Ok r => r
    | Raise _ => {| Worker.deltas_idx := []; Worker.rollout_rewards := [];
                    Worker.steps := 0 |}
    end in
  exists new_calls,
    Worker.calls (fst run) = Worker.calls w ++ new_calls
    /\ len (Worker.deltas_idx result) = Z.max 0 2
    /\ trials_logged
         (antithetic_trial (NA := Toy.NQ) [Qc_of_Z 1] (Worker.delta_std w)
            (noise (Worker.deltas w)) (Q2Qc 0) (Worker.rollout_length w))
         (Worker.deltas_idx result) (Worker.rollout_rewards result) new_calls.
Proof.
  apply (@do_rollouts_antithetic Qc Toy.NQ Z lcg_RandomState Z Z Qc Z
           Toy.linear_env (Toy.first_weight (NA := Toy.NQ))).
  vm_compute. reflexivity.
Defined.





Lemma train_step_aggregation_error_witness :
  let s := Toy.agent_Qc (-1) in
  let s1 := fst (Toy.aggregate_Qc None false s) in
  Toy.train_step_Qc s = (s1, Raise ValueError)
  /\ ARSAgent.w_policy s1 = ARSAgent.w_policy s.
Proof.
  apply (@train_step_aggregation_error Qc Toy.NQ Z lcg_RandomState Z Z Qc Z
           Qc Toy.linear_env (Toy.first_weight (NA := Toy.NQ))
           (Toy.sgd (NA := Toy.NQ))).
  vm_compute. reflexivity.
Defined.

Lemma aggregate_rollouts_g_hat_witness :
  let s := Toy.agent_Qc 2 in
  let run := Toy.aggregate_Qc None false s in
  let g := match snd run with Ok g => g | Raise _ => Array1 [] end in
  exists s1 s2 all_idx all_rewards kept,
    Toy.generate_Qc None false s = (s1, Ok (all_idx, all_rewards))
    /\ ARSAgent.select_top (NA := Toy.NQ) all_idx all_rewards s1
       = (s2, Ok kept)
    /\ length (fst kept) = length (snd kept)
    /\ g = Array1
             (g_hat_of Qc_sqrt (noise (ARSAgent.deltas s))
                (len (ARSAgent.w_policy s))
                (combine (fst kept)
                   (ARSAgent.normalize (NA := Toy.NQ) (snd kept)))).
Proof.
  apply (@aggregate_rollouts_g_hat Qc_sqrt Z lcg_RandomState Z Z Qc Z Qc
           Toy.linear_env (Toy.first_weight (NA := Toy.NQ)) None
           (Toy.agent_Qc 2)
           (fst (Toy.aggregate_Qc None false (Toy.agent_Qc 2)))).
  vm_compute. reflexivity.
Defined.

(** ** Normalisation *)

Section NormalizeFacts.
Import ARSAgent.
Context {A : Type} {NA : Numeric A} {G : Type} {RS : RandomState G}.
Context {Env Ob Act Filter Opt : Type}.
Context {GY : Gym A Env Ob Act} {PM : PolicyModel A Filter Ob Act}.
Local Abbreviation Agent := (ARSAgent.t A G Env Filter Opt).

(** C3, as the code has it: the normalisation divides every reward kept by
    the standard deviation of the rewards kept, whatever it is; there is no
    test for zero and no error to raise. Once the selection has returned,
    [aggregate_rollouts] returns the estimate computed from the quotients.
    This holds for every carrier, float64 included, where a quotient by
    zero is infinite or nan. *)
Theorem aggregate_rollouts_divides_by_std (num_rollouts : option Z)
  (s s1 s2 : Agent) (all_idx : list Z) (all_rewards : ndarray A)
  (kept : list Z * list (A * A)) :
  generate_rollouts num_rollouts false s = (s1, Ok (all_idx, all_rewards)) ->
  select_top all_idx all_rewards s1 = (s2, Ok kept) ->
  let std := np_std (flatten (snd kept)) in
  let rows := map (fun r => (ndiv (fst r) std, ndiv (snd r) std)) (snd kept) in
  exists s',
    aggregate_rollouts num_rollouts false s
    = (s', Ok (Array1
                 (vdiv
                    (fst (batched_weighted_sum (len (w_policy s2))
                            (map (fun r => nsub (fst r) (snd r)) rows)
                            (map (fun idx =>
                                    py_slice (noise (deltas s2)) idx
                                      (idx + len (w_policy s2)))
                                 (fst kept))
                            500))
                    (of_Z (len (fst kept)))))).
Proof.
  intros Hgen Hsel std rows.
  unfold aggregate_rollouts. unfold bind at 1. rewrite Hgen.
  cbv beta iota. cbn [fst snd]. unfold bind at 1. rewrite Hsel.
  unfold bind at 1.
  destruct (weigh_runs (fst kept) (normalize (snd kept)) s2)
    as (s' & Hrun & _).
  rewrite Hrun. exists s'. reflexivity.
Qed.

End NormalizeFacts.

(** C3, as the spec states it, fails. With an environment that pays the
    same reward whatever the action, every rollout returns 2; the standard
    deviation of the rewards kept is 0; the rewards are divided by it all
    the same and become infinite, no error is raised, and the estimate
    returned is nan. *)
Lemma zero_std_is_not_guarded :
  let s := Toy.agent_float in
  let rows := [(2, 2); (2, 2); (2, 2)]%float in
  snd (Toy.generate_float None false s) = Ok ([1; 4; 3], Array2 rows)
  /\ snd (Toy.select_top_float [1; 4; 3] (Array2 rows)
            (fst (Toy.generate_float None false s)))
     = Ok ([1; 4; 3], rows)
  /\ np_std (NA := float_numeric) (flatten rows) = 0%float
  /\ ARSAgent.normalize (NA := float_numeric) rows
     = [(infinity, infinity); (infinity, infinity); (infinity, infinity)]
  /\ snd (Toy.aggregate_float None false s) = Ok (Array1 [nan]).
Proof. repeat split; vm_compute; reflexivity. Qed.

Lemma aggregate_rollouts_divides_by_std_witness :
  let s := Toy.agent_float in
  let s1 := fst (Toy.generate_float None false s) in
  let rows0 := [(2, 2); (2, 2); (2, 2)]%float in
  let kept := ([1; 4; 3], rows0) in
  let s2 := fst (Toy.select_top_float [1; 4; 3] (Array2 rows0) s1) in
  let std := np_std (NA := float_numeric) (flatten (snd kept)) in
  let rows :=
    map (fun r => (PrimFloat.div (fst r) std, PrimFloat.div (snd r) std))
      (snd kept) in
  exists s',
    Toy.aggregate_float None false s
    = (s', Ok (Array1
                 (vdiv (NA := float_numeric)
                    (fst (batched_weighted_sum (NA := float_numeric)
                            (len (ARSAgent.w_policy s2))
                            (map (fun r => PrimFloat.sub (fst r) (snd r)) rows)
                            (map (fun idx =>
                                    py_slice (noise (ARSAgent.deltas s2)) idx
                                      (idx + len (ARSAgent.w_policy s2)))
                                 (fst kept))
                            500))
                    (float_of_Z (len (fst kept)))))).
Proof.
  apply (@aggregate_rollouts_divides_by_std float float_numeric Z
           lcg_RandomState Z Z float Z float
           (Toy.constant_env (NA := float_numeric))
           (Toy.first_weight (NA := float_numeric)) None Toy.agent_float
           (fst (Toy.generate_float None false Toy.agent_float))
           (fst (Toy.select_top_float [1; 4; 3]
                   (Array2 [(2, 2); (2, 2); (2, 2)]%float)
                   (fst (Toy.generate_float None false Toy.agent_float))))
           [1; 4; 3] (Array2 [(2, 2); (2, 2); (2, 2)]%float)
           ([1; 4; 3], [(2, 2); (2, 2); (2, 2)]%float));
    vm_compute; reflexivity.
Defined.

(* ================================================================== *)
(** * Further properties *)

(** ** SharedNoiseTable: slices and draws *)

Section NoiseTableMore.
Context {G : Type} {RS : RandomState G} {A : Type}.
Implicit Types t : SharedNoiseTable G A.

Lemma nth_error_py_slice (l : list A) (i dim j : Z) :
  0 <= i -> 0 <= dim -> i + dim <= len l -> 0 <= j < dim ->
  nth_error (py_slice l i (i + dim)) (Z.to_nat j)
  = nth_error l (Z.to_nat (i + j)).
Proof.
  intros Hi Hd Hle Hj. unfold py_slice, slice_bound.
  destruct (Z.ltb_spec i 0); [lia |].
  destruct (Z.ltb_spec (i + dim) 0); [lia |].
  rewrite !Z.min_l by lia.
  rewrite nth_error_firstn.
  destruct (Nat.ltb_spec (Z.to_nat j) (Z.to_nat (i + dim - i))); [| lia].
  rewrite nth_error_skipn. f_equal. lia.
Qed.

(** X1: a request that lies inside the buffer returns exactly [dim]
    values, and value [j] of the slice is value [offset + j] of the
    buffer. *)
Theorem get_inside_reads_the_buffer t (offset dim : Z) :
  0 <= offset -> 0 <= dim -> offset + dim <= len (noise t) ->
  exists v,
    get offset dim t = (t, Ok v)
    /\ len v = dim
    /\ forall j, 0 <= j < dim ->
         nth_error v (Z.to_nat j)
         = nth_error (noise t) (Z.to_nat (offset + j)).
Proof.
  intros Ho Hd Hle. exists (py_slice (noise t) offset (offset + dim)).
  split; [reflexivity |]. split.
  - now apply py_slice_inside_length.
  - intros j Hj. now apply nth_error_py_slice.
Qed.

(** X2: a negative offset does not wrap around. When the window
    [[offset, offset + dim)] starts below 0 and reaches 0 or beyond, and
    [dim] is at most the length of the buffer, [get] returns the empty
    slice (so the sentinel offset [-1] of evaluation rollouts reconstructs
    no perturbation). *)
Theorem get_negative_offset_is_empty t (offset dim : Z) :
  offset < 0 -> 0 <= offset + dim -> dim <= len (noise t) ->
  get offset dim t = (t, Ok []).
Proof.
  intros Hneg Hcross Hdim. unfold get, py_slice, slice_bound.
  destruct (Z.ltb_spec offset 0); [| lia].
  destruct (Z.ltb_spec (offset + dim) 0); [lia |].
  do 2 f_equal.
  replace (Z.to_nat (Z.min (offset + dim) (len (noise t))
                     - Z.max 0 (offset + len (noise t)))) with 0%nat by lia.
  reflexivity.
Qed.

(** X3: [get_delta] returns an offset inside the buffer together with the
    [dim] values that start there, and advances nothing but the generator;
    [get] with that offset on any table that holds the same buffer (the
    coordinator's) returns the same values. *)
Theorem get_delta_is_reconstructible t (dim : Z) :
  0 <= dim <= len (noise t) ->
  exists idx v t',
    get_delta dim t = (t', Ok (idx, v))
    /\ 0 <= idx <= len (noise t) - dim
    /\ len v = dim
    /\ noise t' = noise t
    /\ forall t2 : SharedNoiseTable G A,
         noise t2 = noise t -> get idx dim t2 = (t2, Ok v).
Proof.
  intros Hdim. unfold get_delta. unfold bind at 1.
  unfold sample_index, zoom.
  destruct (@randint_range G RS 0 (len (noise t) - dim + 1) (rg t))
    as (n & g' & Hrun & Hn); [lia |].
  rewrite Hrun. unfold bind, get, ret. cbn [noise set_rg].
  exists n, (py_slice (noise t) n (n + dim)), (set_rg t g').
  repeat split; try lia.
  - apply py_slice_inside_length; lia.
  - intros t2 H2. now rewrite H2.
Qed.

(** X4: when the buffer is shorter than [dim], [get_delta] raises
    [ValueError] (from [randint], whose range is empty) and the table,
    generator included, is as it was. *)
Theorem get_delta_on_short_buffer t (dim : Z) :
  len (noise t) < dim -> get_delta dim t = (t, Raise ValueError).
Proof.
  intros Hdim. unfold get_delta, bind, sample_index, zoom.
  rewrite randint_empty by lia. destruct t; reflexivity.
Qed.

End NoiseTableMore.

Lemma get_inside_reads_the_buffer_witness :
  let t := {| rg := 0; noise := [10; 20; 30; 40] |} in
  exists v,
    get 1 2 t = (t, Ok v)
    /\ len v = 2
    /\ forall j, 0 <= j < 2 ->
         nth_error v (Z.to_nat j) = nth_error (noise t) (Z.to_nat (1 + j)).
Proof.
  apply (@get_inside_reads_the_buffer Z Z
           {| rg := 0; noise := [10; 20; 30; 40] |} 1 2);
    [lia | lia | vm_compute; discriminate].
Defined.

Lemma get_negative_offset_is_empty_witness :
  let t := {| rg := 0; noise := [10; 20; 30; 40] |} in
  get (-1) 3 t = (t, Ok []).
Proof.
  apply (@get_negative_offset_is_empty Z Z
           {| rg := 0; noise := [10; 20; 30; 40] |} (-1) 3);
    [lia | lia | vm_compute; discriminate].
Defined.

Lemma get_delta_is_reconstructible_witness :
  let t := {| rg := 7; noise := [10; 20; 30; 40] |} in
  exists idx v t',
    get_delta 2 t = (t', Ok (idx, v))
    /\ 0 <= idx <= len (noise t) - 2
    /\ len v = 2
    /\ noise t' = noise t
    /\ forall t2 : SharedNoiseTable Z Z,
         noise t2 = noise t -> get idx 2 t2 = (t2, Ok v).
Proof.
  apply (@get_delta_is_reconstructible Z lcg_RandomState Z
           {| rg := 7; noise := [10; 20; 30; 40] |} 2).
  vm_compute. split; discriminate.
Defined.

Lemma get_delta_on_short_buffer_witness :
  let t := {| rg := 7; noise := [10; 20] |} in
  get_delta 3 t = (t, Raise ValueError).
Proof.
  apply (@get_delta_on_short_buffer Z lcg_RandomState Z
           {| rg := 7; noise := [10; 20] |} 3).
  vm_compute. reflexivity.
Defined.

(** ** Worker: evaluation batches and step counts *)

Section WorkerMore.
Import Worker.
Context {A : Type} {NA : Numeric A} {G : Type} {RS : RandomState G}.
Context {Env Ob Act Filter : Type}.
Context {GY : Gym A Env Ob Act} {PM : PolicyModel A Filter Ob Act}.
Implicit Types w : Worker.t A G Env Filter.

(** X5: whatever the length asked for, a rollout changes neither the
    weights of the policy nor its [update_filter] flag, nor the noise table
    and its generator, nor [delta_std] and [rollout_length]; only the
    environment and the observation filter move. It takes between 0 and
    [max(0, rollout_length)] steps. *)
Theorem rollout_keeps_the_policy (shift : A) (rollout_length' : option Z) w :
  exists w' r,
    rollout shift rollout_length' w = (w', Ok r)
    /\ weights (policy w') = weights (policy w)
    /\ update_filter (policy w') = update_filter (policy w)
    /\ deltas w' = deltas w
    /\ delta_std w' = delta_std w
    /\ rollout_length w' = rollout_length w
    /\ 0 <= snd r <= Z.max 0 (length_of w rollout_length').
Proof.
  destruct (rollout_runs shift rollout_length' w) as (w1 & Hrun & Hsame).
  cbv zeta in Hrun.
  destruct Hsame as (Hw & Hu & Hd & Hs & Hl & _).
  eexists; eexists. split; [exact Hrun |].
  cbn [policy deltas delta_std rollout_length log_call snd].
  repeat split; try assumption.
  - apply len_nonneg.
  - unfold rollout_episode.
    destruct (env_reset (env w)) as [e0 ob0].
    pose proof (episode_length_le
                  (Z.to_nat (length_of w rollout_length')) (set_env w e0) ob0).
    unfold len. lia.
Qed.

(** One evaluation trial. *)
Lemma do_rollouts_body_evaluate (base : list A) (shift : A)
  (r : RolloutResult A) w :
  exists w' c,
    do_rollouts_body base shift true r w
    = (w', Ok {| deltas_idx := deltas_idx r ++ [-1];
                 rollout_rewards :=
                   rollout_rewards r ++ [Single (fst (call_result c))];
                 steps := steps r |})
    /\ calls w' = calls w ++ [c]
    /\ evaluation_call base c
    /\ deltas w' = deltas w
    /\ weights (policy w') = base
    /\ update_filter (policy w') = false.
Proof.
  unfold do_rollouts_body.
  unfold bind at 1. unfold set_weights at 1, modify at 1.
  unfold bind at 1. unfold set_update_filter at 1, modify at 1.
  unfold bind at 1. unfold gets at 1.
  unfold bind at 1.
  match goal with |- context [rollout nzero (Some ?n) ?s] =>
    destruct (rollout_runs nzero (Some n) s) as (w1 & Hrun & Hsame);
    rewrite Hrun; clear Hrun
  end.
  cbv zeta. unfold ret.
  destruct Hsame as (Hw & Hu & Hd & _ & _ & Hc).
  cbn [policy set_policy weights update_filter deltas calls] in *.
  match goal with |- context [log_call ?c w1] =>
    exists (log_call c w1), c
  end.
  split; [reflexivity |].
  cbn [calls log_call policy deltas weights update_filter call_of].
  rewrite Hc, Hw, Hu, Hd.
  repeat split.
Qed.

Lemma do_rollouts_loop_evaluate (base : list A) (shift : A) (n : nat)
  (r : RolloutResult A) w :
  exists w' cs,
    do_rollouts_loop base shift true n r w
    = (w', Ok {| deltas_idx := deltas_idx r ++ repeat (-1) n;
                 rollout_rewards :=
                   rollout_rewards r
                   ++ map (fun c => Single (fst (call_result c))) cs;
                 steps := steps r |})
    /\ calls w' = calls w ++ cs
    /\ length cs = n
    /\ Forall (evaluation_call base) cs
    /\ deltas w' = deltas w
    /\ ((0 < n)%nat ->
        weights (policy w') = base /\ update_filter (policy w') = false).
Proof.
  revert r w. induction n as [| n IH]; intros r w; cbn [do_rollouts_loop].
  - exists w, []. simpl. rewrite !app_nil_r.
    repeat split; try constructor; try lia. destruct r; reflexivity.
  - destruct (do_rollouts_body_evaluate base shift r w)
      as (w1 & c & Hbody & Hc1 & He1 & Hd1 & Hw1 & Hu1).
    unfold bind at 1. rewrite Hbody.
    match goal with |- context [do_rollouts_loop _ _ _ n ?r1 w1] =>
      destruct (IH r1 w1) as (w' & cs & Hloop & Hc & Hlen & Hall & Hd & Hlast)
    end.
    assert (Hfin : weights (policy w') = base
                   /\ update_filter (policy w') = false).
    { destruct n as [| n']; [| apply Hlast; lia].
      assert (w' = w1)
        by (simpl in Hloop; unfold ret in Hloop; congruence).
      subst w'. now split. }
    exists w', (c :: cs). rewrite Hloop.
    cbn [deltas_idx rollout_rewards steps repeat map length].
    rewrite <- !app_assoc. cbn [app].
    split; [reflexivity |].
    rewrite Hc, Hc1, <- app_assoc. cbn [app].
    repeat split; try congruence; try apply Hfin.
    now constructor.
Qed.

(** X6: an evaluation batch ([evaluate = True]) always returns. It reports
    the sentinel offset [-1] for every trial and 0 steps, whatever the
    rollouts took; it runs one rollout per trial, each with the weights
    [w_policy] as given, with [update_filter] off and with no shift (the
    [shift] argument is ignored); it draws nothing from the noise table,
    whose generator is as before; and it leaves the policy with the weights
    [w_policy] and [update_filter] off. *)
Theorem do_rollouts_evaluation_batch (w_policy : list A) (num_rollouts : Z)
  (shift : A) w :
  exists w' cs,
    do_rollouts w_policy num_rollouts shift true w
    = (w', Ok {| deltas_idx := repeat (-1) (Z.to_nat num_rollouts);
                 rollout_rewards :=
                   map (fun c => Single (fst (call_result c))) cs;
                 steps := 0 |})
    /\ calls w' = calls w ++ cs
    /\ len cs = Z.max 0 num_rollouts
    /\ Forall (evaluation_call w_policy) cs
    /\ deltas w' = deltas w
    /\ (0 < num_rollouts ->
        weights (policy w') = w_policy /\ update_filter (policy w') = false).
Proof.
  unfold do_rollouts.
  destruct (do_rollouts_loop_evaluate w_policy shift (Z.to_nat num_rollouts)
              {| deltas_idx := []; rollout_rewards := []; steps := 0 |} w)
    as (w' & cs & Hrun & Hc & Hlen & Hall & Hd & Hlast).
  exists w', cs. split; [exact Hrun |].
  repeat split; try assumption; try (apply Hlast; lia).
  unfold len. lia.
Qed.

Lemma set_deltas_same w : set_deltas w (deltas w) = w.
Proof. destruct w; reflexivity. Qed.

(** X7: a training batch of at least one trial, on a worker whose noise
    table is shorter than the weight vector, raises [ValueError] before any
    rollout runs: the worker is exactly as it was. *)
Theorem do_rollouts_on_short_table (w_policy : list A) (num_rollouts : Z)
  (shift : A) w :
  len (noise (deltas w)) < len w_policy ->
  1 <= num_rollouts ->
  do_rollouts w_policy num_rollouts shift false w = (w, Raise ValueError).
Proof.
  intros Hshort Hn. unfold do_rollouts.
  destruct (Z.to_nat num_rollouts) as [| n] eqn:Hk; [lia |].
  cbn [do_rollouts_loop]. unfold bind at 1. unfold do_rollouts_body.
  unfold bind at 1. unfold zoom at 1.
  unfold get_delta. unfold bind at 1.
  rewrite sample_index_too_long by exact Hshort.
  now rewrite set_deltas_same.
Qed.

Lemma rollout_runs_bounded (shift : A) (rollout_length' : option Z) w :
  exists w1 r,
    rollout shift rollout_length' w
    = (log_call (call_of w shift (length_of w rollout_length') r) w1, Ok r)
    /\ same_setup w w1
    /\ 0 <= snd r <= Z.max 0 (length_of w rollout_length').
Proof.
  destruct (rollout_runs shift rollout_length' w) as (w1 & Hrun & Hsame).
  cbv zeta in Hrun. eexists; eexists.
  split; [exact Hrun |]. split; [exact Hsame |].
  cbn [snd]. split; [apply len_nonneg |].
  unfold rollout_episode.
  destruct (env_reset (env w)) as [e0 ob0].
  pose proof (episode_length_le
                (Z.to_nat (length_of w rollout_length')) (set_env w e0) ob0).
  unfold len. lia.
Qed.

(** One training trial: the two rollouts it logs and the steps it adds. *)
Lemma do_rollouts_body_steps (base : list A) (shift : A)
  (r r' : RolloutResult A) w w' :
  do_rollouts_body base shift false r w = (w', Ok r') ->
  exists cpos cneg,
    calls w' = calls w ++ [cpos; cneg]
    /\ steps r' = steps r + steps_of [cpos; cneg]
    /\ 0 <= steps_of [cpos; cneg] <= 2 * Z.max 0 (rollout_length w)
    /\ length (rollout_rewards r') = S (length (rollout_rewards r))
    /\ rollout_length w' = rollout_length w.
Proof.
  unfold do_rollouts_body. unfold bind at 1. unfold zoom at 1.
  destruct (get_delta (len base) (deltas w)) as [t1 [[idx delta] | e]];
    [| intros H; discriminate H].
  unfold bind at 1. unfold gets at 1.
  unfold bind at 1. unfold reshape at 1.
  destruct (len (map (nmul (delta_std (set_deltas w t1))) delta) =? len base);
    [| intros H; discriminate H].
  unfold ret at 1.
  unfold bind at 1. unfold set_update_filter at 1, modify at 1.
  unfold bind at 1. unfold set_weights at 1, modify at 1.
  unfold bind at 1.
  match goal with |- context [rollout shift None ?s] =>
    destruct (rollout_runs_bounded shift None s)
      as (w1 & r1 & Hrun1 & Hsame1 & Hb1);
    rewrite Hrun1; clear Hrun1
  end.
  destruct r1 as [pos_reward pos_steps].
  unfold bind at 1. unfold set_weights at 1, modify at 1.
  unfold bind at 1.
  match goal with |- context [rollout shift None ?s] =>
    destruct (rollout_runs_bounded shift None s)
      as (w2 & r2 & Hrun2 & Hsame2 & Hb2);
    rewrite Hrun2; clear Hrun2
  end.
  destruct r2 as [neg_reward neg_steps].
  unfold ret. intros Hret. inversion Hret; subst w' r'; clear Hret.
  destruct Hsame1 as (_ & _ & _ & _ & Hl1 & Hc1).
  destruct Hsame2 as (_ & _ & _ & _ & Hl2 & Hc2).
  cbn [policy set_policy set_deltas log_call weights update_filter
       deltas delta_std rollout_length calls call_of length_of snd] in *.
  do 2 eexists.
  split; [| split; [| split; [| split]]].
  - rewrite Hc2. cbn [calls log_call set_policy].
    rewrite Hc1, <- app_assoc. reflexivity.
  - unfold steps_of, call_of.
    cbn [steps map fold_right call_result snd]. lia.
  - unfold steps_of, call_of. cbn [map fold_right call_result snd].
    rewrite Hl1 in Hb2. lia.
  - cbn [rollout_rewards]. rewrite length_app. simpl. lia.
  - rewrite Hl2. cbn [rollout_length log_call set_policy]. exact Hl1.
Qed.

Lemma steps_of_app (cs1 cs2 : list (RolloutCall A)) :
  steps_of (cs1 ++ cs2) = steps_of cs1 + steps_of cs2.
Proof.
  unfold steps_of. rewrite map_app.
  induction (map _ cs1) as [| x l IH]; simpl; [reflexivity | lia].
Qed.

Lemma do_rollouts_loop_steps (base : list A) (shift : A) (n : nat)
  (r r' : RolloutResult A) w w' :
  do_rollouts_loop base shift false n r w = (w', Ok r') ->
  exists cs,
    calls w' = calls w ++ cs
    /\ steps r' = steps r + steps_of cs
    /\ 0 <= steps_of cs <= 2 * Z.of_nat n * Z.max 0 (rollout_length w)
    /\ length (rollout_rewards r')
       = (length (rollout_rewards r) + n)%nat.
Proof.
  revert r w. induction n as [| n IH]; intros r w; cbn [do_rollouts_loop].
  - unfold ret. intros H. inversion H; subst.
    exists []. rewrite app_nil_r. unfold steps_of. simpl.
    repeat split; lia.
  - unfold bind at 1.
    destruct (do_rollouts_body base shift false r w) as [w1 [r1 | e]]
      eqn:Hbody; cbv beta iota; [| intros H; discriminate H].
    intros Hloop.
    destruct (do_rollouts_body_steps _ _ _ _ Hbody)
      as (cpos & cneg & Hc1 & Hs1 & Hb1 & Hr1 & Hl1).
    destruct (IH _ _ Hloop) as (cs & Hc & Hs & Hb & Hr).
    exists (cpos :: cneg :: cs).
    rewrite Hc, Hc1, <- app_assoc. cbn [app].
    change (cpos :: cneg :: cs) with ([cpos; cneg] ++ cs).
    rewrite steps_of_app. rewrite Hl1 in Hb.
    repeat split; try lia.
Qed.

(** X8: the [steps] a training batch reports are the environment steps of
    the rollouts it ran, two per trial, and so at most
    [2 * num_rollouts * rollout_length]; it returns one reward pair per
    trial. *)
Theorem do_rollouts_counts_steps (w_policy : list A) (num_rollouts : Z)
  (shift : A) (result : RolloutResult A) w w' :
  do_rollouts w_policy num_rollouts shift false w = (w', Ok result) ->
  exists cs,
    calls w' = calls w ++ cs
    /\ steps result = steps_of cs
    /\ 0 <= steps result
       <= 2 * Z.max 0 num_rollouts * Z.max 0 (rollout_length w)
    /\ len (rollout_rewards result) = Z.max 0 num_rollouts.
Proof.
  unfold do_rollouts. intros Hrun.
  destruct (do_rollouts_loop_steps _ _ _ _ _ Hrun)
    as (cs & Hc & Hs & Hb & Hr).
  cbn [steps rollout_rewards length] in Hs, Hr.
  exists cs. rewrite Hs. unfold len. rewrite Hr.
  repeat split; try assumption; lia.
Qed.

End WorkerMore.

Lemma do_rollouts_on_short_table_witness :
  let w := Toy.worker (NA := Toy.NQ) 7 [Toy.half] Toy.half in
  Toy.do_rollouts_Qc [Qc_of_Z 1; Qc_of_Z 2] 1 (Q2Qc 0) false w
  = (w, Raise ValueError).
Proof.
  apply (@do_rollouts_on_short_table Qc Toy.NQ Z lcg_RandomState Z Z Qc Z
           Toy.linear_env (Toy.first_weight (NA := Toy.NQ))
           [Qc_of_Z 1; Qc_of_Z 2] 1 (Q2Qc 0)
           (Toy.worker (NA := Toy.NQ) 7 [Toy.half] Toy.half)).
  - vm_compute. reflexivity.
  - lia.
Defined.

Lemma do_rollouts_counts_steps_witness :
  let w := Toy.worker_Qc in
  let run := Toy.do_rollouts_Qc [Qc_of_Z 1] 2 (Q2Qc 0) false w in
  let result :=
    match snd run with
    | Ok r => r
    | Raise _ => {| Worker.deltas_idx := []; Worker.rollout_rewards := [];
                    Worker.steps := 0 |}
    end in
  exists cs,
    Worker.calls (fst run) = Worker.calls w ++ cs
    /\ Worker.steps result = steps_of cs
    /\ 0 <= Worker.steps result
       <= 2 * Z.max 0 2 * Z.max 0 (Worker.rollout_length w)
    /\ len (Worker.rollout_rewards result) = Z.max 0 2.
Proof.
  apply (@do_rollouts_counts_steps Qc Toy.NQ Z lcg_RandomState Z Z Qc Z
           Toy.linear_env (Toy.first_weight (NA := Toy.NQ))
           [Qc_of_Z 1] 2 (Q2Qc 0)).
  vm_compute. reflexivity.
Defined.

(** ** Frames of monadic computations *)

Section PreservesFacts.
Context {S Y : Type}.
Variable f : S -> Y.

Lemma preserves_ret {X : Type} (x : X) : preserves f (ret x).
Proof. intros s. reflexivity. Qed.

Lemma preserves_raise {X : Type} (e : exn) : preserves f (raise (X := X) e).
Proof. intros s. reflexivity. Qed.

Lemma preserves_gets {X : Type} (g : S -> X) : preserves f (gets g).
Proof. intros s. reflexivity. Qed.

Lemma preserves_lift_res {X : Type} (r : res X) : preserves f (lift_res r).
Proof. intros s. reflexivity. Qed.

Lemma preserves_bind {X X' : Type} (m : M S X) (k : X -> M S X') :
  preserves f m -> (forall x, preserves f (k x)) -> preserves f (bind m k).
Proof.
  intros Hm Hk s. unfold bind. specialize (Hm s).
  destruct (m s) as [s1 [x | e]]; simpl in *; [| exact Hm].
  rewrite Hk. exact Hm.
Qed.

Lemma preserves_if {X : Type} (b : bool) (m1 m2 : M S X) :
  preserves f m1 -> preserves f m2 -> preserves f (if b then m1 else m2).
Proof. now destruct b. Qed.

Lemma preserves_modify (h : S -> S) :
  (forall s, f (h s) = f s) -> preserves f (modify h).
Proof. intros Hh s. apply Hh. Qed.

End PreservesFacts.

(** ** ARSAgent: errors at the edges and what a step keeps *)

Section AgentMore.
Import ARSAgent.
Context {A : Type} {NA : Numeric A} {G : Type} {RS : RandomState G}.
Context {Env Ob Act Filter Opt : Type}.
Context {GY : Gym A Env Ob Act} {PM : PolicyModel A Filter Ob Act}.
Context {OP : Optimizer A Opt}.
Local Abbreviation Agent := (ARSAgent.t A G Env Filter Opt).
Implicit Types s : Agent.

Lemma generate_rollouts_no_workers (num_rollouts : option Z)
  (evaluate : bool) s :
  num_workers s = 0 ->
  generate_rollouts num_rollouts evaluate s = (s, Raise ZeroDivisionError).
Proof.
  intros Hnw. unfold generate_rollouts.
  unfold bind at 1.
  assert (Hnd : exists n, match num_rollouts with
                          | Some n => ret n
                          | None => gets (@num_deltas A G Env Filter Opt)
                          end s = (s, Ok n))
    by (destruct num_rollouts; eexists; reflexivity).
  destruct Hnd as (n & ->).
  unfold bind at 1, gets at 1. unfold bind at 1, gets at 1.
  unfold bind at 1, int_div. rewrite Hnw. reflexivity.
Qed.

(** X9: with [num_workers = 0], aggregation (in either mode) and a
    training step raise [ZeroDivisionError] at once: no request is sent and
    the coordinator is exactly as it was. *)
Theorem no_workers_raises (num_rollouts : option Z) (evaluate : bool) s :
  num_workers s = 0 ->
  aggregate_rollouts num_rollouts evaluate s = (s, Raise ZeroDivisionError)
  /\ train_step s = (s, Raise ZeroDivisionError).
Proof.
  intros Hnw. split.
  - unfold aggregate_rollouts, bind.
    now rewrite generate_rollouts_no_workers.
  - unfold train_step, aggregate_rollouts, bind.
    now rewrite generate_rollouts_no_workers.
Qed.

(** *** Observations that do not read the workers *)

Section NotTheWorkers.
Context {Y : Type}.
Variable f : Agent -> Y.
Hypothesis f_workers : forall s x, f (set_workers s x) = f s.

Lemma preserves_remote (i : nat)
  (call : M (Worker.t A G Env Filter) (Worker.RolloutResult A)) :
  preserves f (remote i call).
Proof.
  intros s. unfold remote.
  destruct (nth_error (workers s) i) as [w |]; [| reflexivity].
  destruct (call w) as [w' r]. apply f_workers.
Qed.

Lemma preserves_remote_all (reqs : list (nat * Z))
  (call : Z -> M (Worker.t A G Env Filter) (Worker.RolloutResult A)) :
  preserves f (remote_all reqs call).
Proof.
  induction reqs as [| [i n] reqs IH]; simpl; [apply preserves_ret |].
  apply preserves_bind; [apply preserves_remote | intros r].
  apply preserves_bind; [exact IH | intros rs; apply preserves_ret].
Qed.

End NotTheWorkers.

Lemma preserves_int_div {Y : Type} (f : Agent -> Y) (a b : Z) :
  preserves f (int_div a b).
Proof. apply preserves_if; [apply preserves_raise | apply preserves_ret]. Qed.

Lemma preserves_py_mod {Y : Type} (f : Agent -> Y) (a b : Z) :
  preserves f (py_mod a b).
Proof. apply preserves_if; [apply preserves_raise | apply preserves_ret]. Qed.

Lemma preserves_true_div {Y : Type} (f : Agent -> Y) (a b : Z) :
  preserves f (true_div a b).
Proof. apply preserves_if; [apply preserves_raise | apply preserves_ret]. Qed.

Lemma preserves_gather {Y : Type} (f : Agent -> Y) (evaluate : bool)
  (results : list (Worker.RolloutResult A))
  (acc : list Z * list (reward_entry A)) :
  (evaluate = true \/ forall s x, f (set_timesteps s x) = f s) ->
  preserves f (gather evaluate results acc).
Proof.
  intros Hf. revert acc.
  induction results as [| r results IH]; intros acc; simpl;
    [apply preserves_ret |].
  apply preserves_bind; [| intros _; apply IH].
  destruct evaluate; [apply preserves_ret |].
  destruct Hf as [Hf | Hf]; [discriminate |].
  apply preserves_modify. intros s. apply Hf.
Qed.

Lemma preserves_generate_rollouts {Y : Type} (f : Agent -> Y)
  (num_rollouts : option Z) (evaluate : bool) :
  (forall s x, f (set_workers s x) = f s) ->
  (evaluate = true \/ forall s x, f (set_timesteps s x) = f s) ->
  preserves f (generate_rollouts num_rollouts evaluate).
Proof.
  intros Hw Ht. unfold generate_rollouts.
  repeat (first
    [ apply preserves_bind; [| intros ?]
    | apply preserves_gets | apply preserves_ret | apply preserves_lift_res
    | apply preserves_int_div | apply preserves_py_mod
    | apply preserves_remote_all; exact Hw
    | apply preserves_gather; exact Ht
    | match goal with |- preserves _ (match ?o with _ => _ end) =>
        destruct o end ]).
Qed.

(** X10: an evaluation pass ([evaluate = True]) never moves the step
    counter [timesteps] nor [deltas_used], and never touches the canonical
    weights, whether it returns or raises: only the workers change. *)
Theorem evaluation_keeps_the_counters (num_rollouts : option Z) s :
  let s' := fst (aggregate_rollouts num_rollouts true s) in
  timesteps s' = timesteps s
  /\ deltas_used s' = deltas_used s
  /\ w_policy s' = w_policy s.
Proof.
  intros s'. subst s'.
  assert (Hc : preserves (fun s : Agent => counters s)
                 (aggregate_rollouts num_rollouts true)).
  { unfold aggregate_rollouts.
    apply preserves_bind; [| intros dr; apply preserves_ret].
    apply preserves_generate_rollouts; [reflexivity | now left]. }
  specialize (Hc s). unfold counters in Hc. inversion Hc as [[Ht Hd]].
  repeat split; try assumption.
  apply (keeps_aggregate_rollouts num_rollouts true s).
Qed.

(** The stages of a training aggregation that returned. *)
Lemma aggregate_stages (num_rollouts : option Z) s s' (g : ndarray A) :
  aggregate_rollouts num_rollouts false s = (s', Ok g) ->
  exists s1 s2 all_idx all_rewards kept g_hat,
    generate_rollouts num_rollouts false s = (s1, Ok (all_idx, all_rewards))
    /\ select_top all_idx all_rewards s1 = (s2, Ok kept)
    /\ weigh (fst kept) (normalize (snd kept)) s2 = (s', Ok g_hat)
    /\ g = Array1 g_hat.
Proof.
  unfold aggregate_rollouts. unfold bind at 1.
  destruct (generate_rollouts num_rollouts false s) as [s1 [[ai ar] | e]]
    eqn:Hgen; [| intros H; discriminate H].
  cbv beta iota. cbn [fst snd]. unfold bind at 1.
  destruct (select_top ai ar s1) as [s2 [kept | e]] eqn:Hsel;
    [| intros H; discriminate H].
  unfold bind at 1.
  destruct (weigh (fst kept) (normalize (snd kept)) s2) as [s3 [g_hat | e]]
    eqn:Hw; [| intros H; discriminate H].
  unfold ret. intros H. inversion H; subst.
  exists s1, s2, ai, ar, kept, g_hat. repeat split; assumption.
Qed.

Lemma preserves_weigh {Y : Type} (f : Agent -> Y) (deltas_idx : list Z)
  (rows : list (A * A)) :
  (forall s x, f (set_deltas s x) = f s) ->
  preserves f (weigh deltas_idx rows).
Proof.
  intros Hf s. unfold weigh. unfold bind at 1, gets at 1.
  unfold bind at 1, zoom at 1. rewrite get_all_runs. unfold ret.
  cbn [fst]. apply Hf.
Qed.

(** X11: a training aggregation that returns has clamped [deltas_used] for
    good: afterwards it is [min(deltas_used, num_deltas)], so never above
    [num_deltas] again. *)
Theorem aggregation_clamps_deltas_used (num_rollouts : option Z) s s'
  (g : ndarray A) :
  aggregate_rollouts num_rollouts false s = (s', Ok g) ->
  deltas_used s' = Z.min (deltas_used s) (num_deltas s)
  /\ num_deltas s' = num_deltas s.
Proof.
  intros Hagg.
  destruct (@aggregate_stages _ _ _ _ Hagg)
    as (s1 & s2 & ai & ar & kept & g_hat & Hgen & Hsel & Hw & _).
  pose proof (@preserves_generate_rollouts _
                (fun s : Agent => (deltas_used s, num_deltas s))
                num_rollouts false
                ltac:(reflexivity) ltac:(right; reflexivity) s) as H1.
  rewrite Hgen in H1. cbn [fst] in H1. inversion H1 as [[Hd1 Hn1]].
  destruct ar as [a1 | rows];
    [unfold select_top, raise in Hsel; discriminate Hsel |].
  apply select_top_runs in Hsel. destruct Hsel as (_ & _ & _ & _ & _ & ->).
  pose proof (@preserves_weigh _
                (fun s : Agent => (deltas_used s, num_deltas s))
                (fst kept) (normalize (snd kept))
                ltac:(reflexivity) (clamped s1)) as H2.
  rewrite Hw in H2. cbn [fst] in H2. inversion H2 as [[Hd2 Hn2]].
  rewrite Hd2, Hn2. unfold clamped.
  destruct (num_deltas s1 <? deltas_used s1) eqn:Hlt;
    cbn [deltas_used num_deltas set_deltas_used];
    [apply Z.ltb_lt in Hlt | apply Z.ltb_ge in Hlt]; lia.
Qed.

End AgentMore.

(** ** Workers as the coordinator sees them *)

Section WorkerBatches.
Import Worker.
Context {A : Type} {NA : Numeric A} {G : Type} {RS : RandomState G}.
Context {Env Ob Act Filter : Type}.
Context {GY : Gym A Env Ob Act} {PM : PolicyModel A Filter Ob Act}.
Implicit Types w : Worker.t A G Env Filter.

Lemma preserves_tables_rollout (shift : A) (rollout_length' : option Z) :
  preserves (fun w => tables w) (rollout shift rollout_length').
Proof.
  intros w.
  destruct (rollout_runs shift rollout_length' w) as (w1 & Hrun & Hsame).
  cbv zeta in Hrun. rewrite Hrun.
  destruct Hsame as (_ & _ & Hd & Hs & Hl & _).
  unfold tables. cbn [fst log_call deltas delta_std rollout_length].
  now rewrite Hd, Hs, Hl.
Qed.

Lemma preserves_tables_get_delta (dim : Z) :
  preserves (fun w => tables w)
    (zoom (@deltas A G Env Filter) (@set_deltas A G Env Filter)
       (get_delta dim)).
Proof.
  intros w. unfold zoom, get_delta, bind, sample_index, zoom.
  destruct (randint 0 (len (noise (deltas w)) - dim + 1) (rg (deltas w)))
    as [g' [idx | e]]; reflexivity.
Qed.

Lemma preserves_tables_body (base : list A) (shift : A) (evaluate : bool)
  (r : RolloutResult A) :
  preserves (fun w => tables w) (do_rollouts_body base shift evaluate r).
Proof.
  unfold do_rollouts_body. destruct evaluate.
  - repeat (first
      [ apply preserves_tables_rollout
      | apply preserves_bind; [| intros ?]
      | apply preserves_gets | apply preserves_ret
      | apply preserves_modify; reflexivity
      | match goal with |- preserves _ (let (_, _) := ?p in _) =>
          destruct p end ]).
  - repeat (first
      [ apply preserves_tables_rollout
      | apply preserves_tables_get_delta
      | apply preserves_bind; [| intros ?]
      | apply preserves_gets | apply preserves_ret
      | apply preserves_if; [apply preserves_ret | apply preserves_raise]
      | apply preserves_modify; reflexivity
      | match goal with |- preserves _ (let (_, _) := ?p in _) =>
          destruct p end ]).
Qed.

Lemma preserves_tables_do_rollouts (base : list A) (num_rollouts : Z)
  (shift : A) (evaluate : bool) :
  preserves (fun w => tables w)
    (do_rollouts base num_rollouts shift evaluate).
Proof.
  unfold do_rollouts.
  generalize ({| deltas_idx := []; rollout_rewards := []; steps := 0 |}
              : RolloutResult A).
  induction (Z.to_nat num_rollouts) as [| n IH]; intros r;
    cbn [do_rollouts_loop]; [apply preserves_ret |].
  apply preserves_bind; [apply preserves_tables_body | intros r'; apply IH].
Qed.

Lemma singles_app (l1 l2 : list (reward_entry A)) (a1 a2 : list A) :
  singles l1 = Some a1 -> singles l2 = Some a2 ->
  singles (l1 ++ l2) = Some (a1 ++ a2).
Proof.
  revert a1. induction l1 as [| [x | p n] l1 IH]; intros a1 H1 H2; simpl in *.
  - inversion H1; subst. exact H2.
  - destruct (singles l1) as [a |]; [| discriminate].
    inversion H1; subst. now rewrite (IH a eq_refl H2).
  - discriminate.
Qed.

Lemma pairs_app (l1 l2 : list (reward_entry A)) (a1 a2 : list (A * A)) :
  pairs l1 = Some a1 -> pairs l2 = Some a2 ->
  pairs (l1 ++ l2) = Some (a1 ++ a2).
Proof.
  revert a1. induction l1 as [| [x | p n] l1 IH]; intros a1 H1 H2; simpl in *.
  - inversion H1; subst. exact H2.
  - discriminate.
  - destruct (pairs l1) as [a |]; [| discriminate].
    inversion H1; subst. now rewrite (IH a eq_refl H2).
Qed.

Lemma singles_map_Single {X : Type} (f : X -> A) (l : list X) :
  singles (map (fun x => Single (f x)) l) = Some (map f l).
Proof. induction l as [| x l IH]; simpl; [| rewrite IH]; reflexivity. Qed.

Lemma trials_logged_pairs
  (P : Z -> reward_entry A -> RolloutCall A -> RolloutCall A -> Prop)
  (idxs : list Z) (entries : list (reward_entry A))
  (cs : list (RolloutCall A)) :
  (forall idx entry cpos cneg, P idx entry cpos cneg ->
     exists p n, entry = Pair p n) ->
  trials_logged P idxs entries cs ->
  exists rows, pairs entries = Some rows /\ length rows = length idxs.
Proof.
  intros HP. induction 1 as [| idx entry cpos cneg idxs entries cs H1 _ IH].
  - exists []. split; reflexivity.
  - destruct IH as (rows & Hp & Hl).
    destruct (HP _ _ _ _ H1) as (p & n & ->).
    exists ((p, n) :: rows). simpl. rewrite Hp, Hl. split; reflexivity.
Qed.

(** A training trial that raises has run no rollout. *)
Lemma do_rollouts_body_raise (base : list A) (shift : A)
  (r : RolloutResult A) (e : exn) w w' :
  do_rollouts_body base shift false r w = (w', Raise e) ->
  calls w' = calls w.
Proof.
  unfold do_rollouts_body. unfold bind at 1. unfold zoom at 1.
  unfold get_delta. unfold bind at 1.
  destruct (sample_index (len base) (deltas w)) as [t1 [idx | e']] eqn:Hs.
  2: { intros H. inversion H; subst. reflexivity. }
  destruct (sample_index_ok (deltas w) (len_nonneg base) Hs) as [Hidx Hnoise].
  unfold bind at 1. unfold get at 1. unfold ret at 1.
  unfold bind at 1. unfold gets at 1.
  unfold bind at 1. unfold reshape at 1.
  assert (Hlen : (len (map (nmul (delta_std (set_deltas w t1)))
                    (py_slice (noise t1) idx (idx + len base))) =? len base)
                 = true).
  { apply Z.eqb_eq. unfold len at 1. rewrite length_map.
    fold (len (py_slice (noise t1) idx (idx + len base))).
    rewrite Hnoise. apply py_slice_inside_length; try lia.
    apply len_nonneg. }
  rewrite Hlen. unfold ret at 1.
  unfold bind at 1. unfold set_update_filter at 1, modify at 1.
  unfold bind at 1. unfold set_weights at 1, modify at 1.
  unfold bind at 1.
  match goal with |- context [rollout shift None ?s] =>
    destruct (rollout_runs shift None s) as (w1 & Hrun1 & _);
    rewrite Hrun1; clear Hrun1
  end.
  cbv zeta.
  unfold bind at 1. unfold set_weights at 1, modify at 1.
  unfold bind at 1.
  match goal with |- context [rollout shift None ?s] =>
    destruct (rollout_runs shift None s) as (w2 & Hrun2 & _);
    rewrite Hrun2; clear Hrun2
  end.
  cbv zeta. unfold ret. intros H. discriminate H.
Qed.

(** The rollouts a training batch runs, whether it returns or raises. *)
Lemma do_rollouts_loop_calls (base : list A) (shift : A) (n : nat)
  (r : RolloutResult A) w :
  exists cs,
    calls (fst (do_rollouts_loop base shift false n r w)) = calls w ++ cs
    /\ Forall (training_call base (delta_std w) (noise (deltas w)) shift) cs.
Proof.
  revert r w. induction n as [| n IH]; intros r w; cbn [do_rollouts_loop].
  - exists []. rewrite app_nil_r. split; constructor.
  - unfold bind at 1.
    destruct (do_rollouts_body base shift false r w) as [w1 [r1 | e]]
      eqn:Hbody.
    + destruct (do_rollouts_body_trial _ _ _ _ Hbody)
        as (idx & entry & cpos & cneg & _ & _ & Hc & Htrial & Ht & Hs & _).
      destruct (IH r1 w1) as (cs & Hcs & Hall).
      exists (cpos :: cneg :: cs). split.
      * rewrite Hcs, Hc, <- app_assoc. reflexivity.
      * rewrite Ht, Hs in Hall.
        unfold antithetic_trial in Htrial. cbv zeta in Htrial.
        destruct Htrial as (Hidx & Hwp & Hwn & Hup & Hun & Hsp & Hsn & _).
        constructor; [| constructor; [| exact Hall]].
        -- split; [exact Hup |]. split; [exact Hsp |].
           exists idx. split; [exact Hidx | now left].
        -- split; [exact Hun |]. split; [exact Hsn |].
           exists idx. split; [exact Hidx | now right].
    + cbn [fst]. exists []. rewrite app_nil_r.
      split; [eapply do_rollouts_body_raise; exact Hbody | constructor].
Qed.

(** A batch that returns has the shape [batch_of] describes. *)
Lemma worker_batch (base : list A) (num_rollouts : Z) (shift : A)
  (evaluate : bool) (r : RolloutResult A) w w' :
  do_rollouts base num_rollouts shift evaluate w = (w', Ok r) ->
  batch_of evaluate (Z.to_nat num_rollouts)
    (steps_bound evaluate (Z.to_nat num_rollouts) (rollout_length w)) r.
Proof.
  unfold do_rollouts, batch_of, steps_bound. destruct evaluate.
  - destruct (do_rollouts_loop_evaluate base shift (Z.to_nat num_rollouts)
                {| deltas_idx := []; rollout_rewards := []; steps := 0 |} w)
      as (w1 & cs & Hrun & _ & Hlen & _).
    rewrite Hrun. intros H. inversion H; subst. cbn.
    rewrite repeat_length. split; [reflexivity |]. split; [| lia].
    exists (map (fun c => fst (call_result c)) cs).
    rewrite singles_map_Single, length_map. now split.
  - intros Hrun.
    destruct (do_rollouts_loop_trials _ _ _ _ _ Hrun)
      as (idxs & entries & cs & Hi & He & _ & Hlen & Hlog & _).
    destruct (do_rollouts_loop_steps _ _ _ _ _ Hrun)
      as (cs' & _ & Hst & Hb & _).
    simpl in Hi, He, Hst. rewrite Hi, He, Hst.
    split; [exact Hlen |]. split; [| lia].
    rewrite <- Hlen.
    refine (trials_logged_pairs _ Hlog).
    intros idx entry cpos cneg Ht. unfold antithetic_trial in Ht.
    cbv zeta in Ht. do 2 eexists. apply Ht.
Qed.

(** An evaluation batch always returns. *)
Lemma worker_evaluates (base : list A) (num_rollouts : Z) (shift : A) w :
  exists r, snd (do_rollouts base num_rollouts shift true w) = Ok r.
Proof.
  unfold do_rollouts.
  destruct (do_rollouts_loop_evaluate base shift (Z.to_nat num_rollouts)
              {| deltas_idx := []; rollout_rewards := []; steps := 0 |} w)
    as (w1 & cs & Hrun & _).
  rewrite Hrun. eexists. reflexivity.
Qed.

End WorkerBatches.

(** ** The pool of workers through a round of requests *)

Section PoolFacts.
Import ARSAgent.
Context {A : Type} {NA : Numeric A} {G : Type} {RS : RandomState G}.
Context {Env Ob Act Filter Opt : Type}.
Context {GY : Gym A Env Ob Act} {PM : PolicyModel A Filter Ob Act}.
Context {OP : Optimizer A Opt}.
Local Abbreviation Agent := (ARSAgent.t A G Env Filter Opt).
Local Abbreviation Wk := (Worker.t A G Env Filter).
Local Abbreviation Result := (Worker.RolloutResult A).
Implicit Types s : Agent.

Lemma set_workers_same s : set_workers s (workers s) = s.
Proof. destruct s; reflexivity. Qed.

Lemma Forall2_nth_error_l {X Y : Type} (R : X -> Y -> Prop)
  (l0 : list X) (l : list Y) (i : nat) (a : X) :
  Forall2 R l0 l -> nth_error l0 i = Some a ->
  exists b, nth_error l i = Some b /\ R a b.
Proof.
  intros H. revert i. induction H as [| x y l0 l Hxy _ IH]; intros [| i] Hn;
    try discriminate.
  - inversion Hn; subst. exists y. now split.
  - apply IH. exact Hn.
Qed.

Lemma Forall2_replace {X Y : Type} (R : X -> Y -> Prop)
  (l0 : list X) (l : list Y) (i : nat) (a : X) (y : Y) :
  Forall2 R l0 l -> nth_error l0 i = Some a -> R a y ->
  Forall2 R l0 (firstn i l ++ y :: skipn (S i) l).
Proof.
  intros H. revert i. induction H as [| x b l0 l Hxb Hl IH]; intros [| i] Hn Hy;
    try discriminate.
  - inversion Hn; subst. simpl. now constructor.
  - simpl. constructor; [exact Hxb |]. now apply IH.
Qed.

(** A round of requests: every worker asked exists, what a call leaves of a
    worker stays related by [R] to the worker the round started with, and
    every result satisfies what [P] says of it. *)
Lemma remote_all_runs (R : Wk -> Wk -> Prop)
  (P : Z -> Wk -> res Result -> Prop)
  (call : Z -> M Wk Result) (ws0 : list Wk) (reqs : list (nat * Z)) s :
  (forall w1 w2 w3, R w1 w2 -> R w2 w3 -> R w1 w3) ->
  (forall req w0 w, In req reqs -> R w0 w ->
     R w (fst (call (snd req) w)) /\ P (snd req) w0 (snd (call (snd req) w))) ->
  Forall2 R ws0 (workers s) ->
  Forall (fun req => (fst req < length ws0)%nat) reqs ->
  exists ws1 ids,
    remote_all reqs call s = (set_workers s ws1, Ok ids)
    /\ Forall2 R ws0 ws1
    /\ Forall2 (fun req id =>
                  exists w0, nth_error ws0 (fst req) = Some w0
                             /\ P (snd req) w0 id) reqs ids.
Proof.
  intros Rtrans. revert s.
  induction reqs as [| [i k] reqs IH]; intros s Hcall Hws Hin.
  - exists (workers s), []. simpl. unfold ret. rewrite set_workers_same.
    repeat split; [exact Hws | constructor].
  - inversion Hin as [| ? ? Hi Hin']; subst. cbn [fst] in Hi.
    destruct (nth_error ws0 i) as [w0 |] eqn:Hn0;
      [| apply nth_error_None in Hn0; lia].
    destruct (Forall2_nth_error_l _ Hws Hn0) as (w & Hn & Hw0).
    destruct (Hcall (i, k) w0 w (or_introl eq_refl) Hw0) as [HR HP].
    cbn [snd] in HR, HP.
    cbn [remote_all]. unfold bind at 1. unfold remote at 1. rewrite Hn.
    destruct (call k w) as [w' r] eqn:Hck. cbn [fst snd] in HR, HP.
    set (s1 := set_workers s _).
    destruct (IH s1) as (ws1 & ids & Hrun & HR1 & HP1).
    + intros req v0 v Hreq. apply Hcall. now right.
    + subst s1. cbn [workers set_workers].
      eapply Forall2_replace; [exact Hws | exact Hn0 |].
      eapply Rtrans; eassumption.
    + exact Hin'.
    + unfold bind at 1. rewrite Hrun. unfold ret.
      exists ws1, (r :: ids). split; [reflexivity |]. split; [exact HR1 |].
      constructor; [| exact HP1]. exists w0. now split.
Qed.

Lemma ray_get_map_Ok {X : Type} (results : list X) :
  ray_get (map (fun x => Ok x) results) = Ok results.
Proof. induction results as [| x l IH]; simpl; [| rewrite IH]; reflexivity. Qed.

(** The two loops that gather the results: they always return, the lists
    grow by what the results hold, in order, and training adds the steps
    of every result to [timesteps]. *)
Lemma gather_runs (evaluate : bool) (results : list Result)
  (acc : list Z * list (reward_entry A)) s :
  gather evaluate results acc s
  = ((if evaluate then s
      else set_timesteps s
             (timesteps s + zsum (map (@Worker.steps A) results))),
     Ok (fst acc ++ concat (map (@Worker.deltas_idx A) results),
         snd acc ++ concat (map (@Worker.rollout_rewards A) results))).
Proof.
  revert acc s. induction results as [| r results IH]; intros acc s.
  - simpl. unfold ret. rewrite !app_nil_r. destruct acc.
    destruct evaluate; [reflexivity |].
    rewrite Z.add_0_r. destruct s; reflexivity.
  - cbn [gather]. unfold bind at 1. destruct evaluate.
    + unfold ret at 1. rewrite IH. cbn [fst snd map concat].
      now rewrite !app_assoc.
    + unfold modify at 1. rewrite IH. cbn [fst snd map concat zsum fold_right].
      rewrite !app_assoc. cbn [timesteps set_timesteps]. f_equal.
      fold (zsum (map (@Worker.steps A) results)).
      rewrite Z.add_assoc. destruct s; reflexivity.
Qed.

Lemma In_py_slice {X : Type} (l : list X) (i j : Z) (x : X) :
  In x (py_slice l i j) -> In x l.
Proof.
  unfold py_slice. intros H.
  rewrite <- (firstn_skipn (Z.to_nat (slice_bound (len l) i)) l).
  apply in_or_app. right.
  rewrite <- (firstn_skipn
                (Z.to_nat (slice_bound (len l) j - slice_bound (len l) i))
                (skipn (Z.to_nat (slice_bound (len l) i)) l)).
  apply in_or_app. now left.
Qed.

Lemma requests_in_range (n : nat) (a nw : Z) :
  Forall (fun req : nat * Z => (fst req < n)%nat)
    (requests_one n (Z.quot a nw))
  /\ Forall (fun req : nat * Z => (fst req < n)%nat)
       (requests_two n (a mod nw)).
Proof.
  unfold requests_one, requests_two, py_prefix.
  split; apply Forall_forall; intros req Hin;
    apply in_map_iff in Hin; destruct Hin as (i & <- & Hi); cbn [fst].
  - apply in_seq in Hi. lia.
  - apply In_py_slice, in_seq in Hi. lia.
Qed.

(** The two rounds of requests of [aggregate_rollouts], and what is left
    to do with their results. *)
Lemma generate_rollouts_rounds (R : Wk -> Wk -> Prop)
  (P : Z -> Wk -> res Result -> Prop)
  (num_rollouts : option Z) (evaluate : bool) s :
  let n := length (workers s) in
  let a := asked num_rollouts s in
  let nw := num_workers s in
  let call := fun k =>
    Worker.do_rollouts (w_policy s) k (shift s) evaluate in
  let Q := fun (req : nat * Z) id =>
    exists w0, nth_error (workers s) (fst req) = Some w0
               /\ P (snd req) w0 id in
  Forall (fun w => R w w) (workers s) ->
  (forall w1 w2 w3, R w1 w2 -> R w2 w3 -> R w1 w3) ->
  (forall req w0 w, In req (dispatch_plan n a nw) -> R w0 w ->
     R w (fst (call (snd req) w)) /\ P (snd req) w0 (snd (call (snd req) w))) ->
  nw <> 0 ->
  exists ws2 ids1 ids2,
    Forall2 R (workers s) ws2
    /\ Forall2 Q (requests_one n (Z.quot a nw)) ids1
    /\ Forall2 Q (requests_two n (a mod nw)) ids2
    /\ generate_rollouts num_rollouts evaluate s
       = (results_one <- lift_res (ray_get ids1) ;;
          results_two <- lift_res (ray_get ids2) ;;
          acc <- gather evaluate results_one ([], []) ;;
          acc <- gather evaluate results_two acc ;;
          rollout_rewards <- lift_res (np_array (snd acc)) ;;
          lift_res (np_max_all rollout_rewards) ;;;
          ret (fst acc, rollout_rewards))%py (set_workers s ws2).
Proof.
  intros n a nw call Q Rrefl Rtrans Hcall Hnw.
  destruct (requests_in_range n a nw) as [Hin1 Hin2].
  destruct (@remote_all_runs R P call (workers s)
              (requests_one n (Z.quot a nw)) s Rtrans)
    as (ws1 & ids1 & Hrun1 & HR1 & HP1).
  { intros req w0 w Hreq. apply Hcall. unfold dispatch_plan.
    apply in_or_app. now left. }
  { clear - Rrefl. induction Rrefl; constructor; auto. }
  { exact Hin1. }
  destruct (@remote_all_runs R P call (workers s)
              (requests_two n (a mod nw)) (set_workers s ws1) Rtrans)
    as (ws2 & ids2 & Hrun2 & HR2 & HP2).
  { intros req w0 w Hreq. apply Hcall. unfold dispatch_plan.
    apply in_or_app. now right. }
  { exact HR1. }
  { exact Hin2. }
  exists ws2, ids1, ids2.
  split; [exact HR2 |]. split; [exact HP1 |]. split; [exact HP2 |].
  unfold generate_rollouts. unfold bind at 1.
  assert (Hnd : match num_rollouts with
                | Some n0 => ret n0
                | None => gets (@num_deltas A G Env Filter Opt)
                end s = (s, Ok a))
    by (subst a; destruct num_rollouts; reflexivity).
  rewrite Hnd.
  unfold bind at 1, gets at 1. unfold bind at 1, gets at 1.
  unfold bind at 1, int_div at 1.
  fold nw. destruct (Z.eqb_spec nw 0) as [H0 | _]; [contradiction |].
  unfold ret at 1.
  unfold bind at 1, gets at 1. unfold bind at 1, gets at 1.
  fold n. fold call. unfold bind at 1. rewrite Hrun1.
  unfold bind at 1, py_mod at 1.
  destruct (Z.eqb_spec nw 0) as [H0 | _]; [contradiction |].
  unfold ret at 1. unfold bind at 1.
  cbn [workers set_workers]. fold n. rewrite Hrun2.
  reflexivity.
Qed.

(** What is done with the results of the two rounds, when [ray.get] has
    them all. *)
Lemma gather_rounds (evaluate : bool) (res1 res2 : list Result) s :
  let all := res1 ++ res2 in
  let s' := if evaluate then s
            else set_timesteps s
                   (timesteps s + zsum (map (@Worker.steps A) all)) in
  (results_one <- lift_res (ray_get (map (fun x => Ok x) res1)) ;;
   results_two <- lift_res (ray_get (map (fun x => Ok x) res2)) ;;
   acc <- gather evaluate results_one ([], []) ;;
   acc <- gather evaluate results_two acc ;;
   rollout_rewards <- lift_res (np_array (snd acc)) ;;
   lift_res (np_max_all rollout_rewards) ;;;
   ret (fst acc, rollout_rewards))%py s
  = match np_array (concat (map (@Worker.rollout_rewards A) all)) with
    | Ok arr =>
        match np_max_all arr with
        | Ok _ => (s', Ok (concat (map (@Worker.deltas_idx A) all), arr))
        | Raise e => (s', Raise e)
        end
    | Raise e => (s', Raise e)
    end.
Proof.
  intros all s'.
  rewrite !ray_get_map_Ok.
  unfold bind at 1, lift_res at 1. unfold bind at 1, lift_res at 1.
  unfold bind at 1. rewrite gather_runs.
  unfold bind at 1. rewrite gather_runs. cbn [fst snd app].
  assert (Hs : (if evaluate
                then if evaluate then s
                     else set_timesteps s
                            (timesteps s + zsum (map (@Worker.steps A) res1))
                else set_timesteps
                       (if evaluate then s
                        else set_timesteps s
                               (timesteps s
                                + zsum (map (@Worker.steps A) res1)))
                       (timesteps
                          (if evaluate then s
                           else set_timesteps s
                                  (timesteps s
                                   + zsum (map (@Worker.steps A) res1)))
                        + zsum (map (@Worker.steps A) res2))) = s').
  { subst s' all. destruct evaluate; [reflexivity |].
    rewrite map_app, zsum_app, Z.add_assoc. reflexivity. }
  rewrite Hs. subst all. rewrite !map_app, !concat_app.
  unfold bind at 1, lift_res at 1.
  destruct (np_array _) as [arr | e]; [| reflexivity].
  unfold bind at 1, lift_res at 1.
  destruct (np_max_all arr) as [m | e]; reflexivity.
Qed.

Lemma Forall2_flip_eq {X : Type} (l0 l : list X) :
  Forall2 (fun x y => y = x) l0 l -> l = l0.
Proof. induction 1; [reflexivity | now f_equal]. Qed.

Lemma set_timesteps_same s : set_timesteps s (timesteps s) = s.
Proof. destruct s; reflexivity. Qed.

Lemma generate_rollouts_empty (num_rollouts : option Z) (evaluate : bool) s :
  num_workers s <> 0 ->
  asked num_rollouts s = 0 ->
  generate_rollouts num_rollouts evaluate s = (s, Raise ValueError).
Proof.
  intros Hnw Hasked.
  set (empty := {| Worker.deltas_idx := []; Worker.rollout_rewards := [];
                   Worker.steps := 0 |} : Result).
  destruct (@generate_rollouts_rounds
              (fun w w' => w' = w) (fun _ _ id => id = Ok empty)
              num_rollouts evaluate s)
    as (ws2 & ids1 & ids2 & HR & H1 & H2 & ->); try congruence.
  - apply Forall_forall. reflexivity.
  - rewrite Hasked. unfold dispatch_plan.
    rewrite Z.quot_0_l, Z.mod_0_l by assumption.
    unfold requests_two. rewrite py_prefix_seq by lia.
    cbn [Z.to_nat seq map]. rewrite app_nil_r.
    intros req w0 w Hin _. unfold requests_one in Hin.
    apply in_map_iff in Hin. destruct Hin as (i & <- & _).
    cbn [snd]. split; reflexivity.
  - rewrite Hasked in H1, H2.
    rewrite Z.quot_0_l in H1 by assumption.
    rewrite Z.mod_0_l in H2 by assumption.
    unfold requests_two in H2. rewrite py_prefix_seq in H2 by lia.
    cbn [Z.to_nat seq map] in H2. inversion H2; subst. clear H2.
    apply Forall2_flip_eq in HR. subst ws2. rewrite set_workers_same.
    assert (Hids : exists k, ids1 = map (fun x => Ok x) (repeat empty k)).
    { clear - H1. unfold requests_one in H1. revert ids1 H1.
      induction (seq 0 (length (workers s))) as [| i l IH]; intros ids H;
        inversion H as [| ? id ? ids' (w0 & _ & Hid) Hrest]; subst.
      - now exists 0%nat.
      - destruct (IH _ Hrest) as (k & ->). now exists (S k). }
    destruct Hids as (k & ->).
    change (@nil (res Result)) with (map (fun x : Result => Ok x) []).
    rewrite gather_rounds. rewrite app_nil_r.
    assert (Hrew : concat (map (@Worker.rollout_rewards A) (repeat empty k))
                   = []).
    { clear. induction k as [| k IH]; [reflexivity | exact IH]. }
    assert (Hst : zsum (map (@Worker.steps A) (repeat empty k)) = 0).
    { clear. induction k as [| k IH]; [reflexivity | exact IH]. }
    rewrite Hrew, Hst, Z.add_0_r, set_timesteps_same.
    cbn. now destruct evaluate.
Qed.

(** X12: asked for no trial at all ([num_rollouts = 0], or [num_deltas = 0]
    when no number is given), a coordinator with [num_workers <> 0] raises
    [ValueError], the maximum of an empty reward array: in either mode, and
    with the coordinator and every worker exactly as they were. So does a
    training step with [num_deltas = 0]. *)
Theorem empty_batch_raises (num_rollouts : option Z) (evaluate : bool) s :
  num_workers s <> 0 ->
  asked num_rollouts s = 0 ->
  aggregate_rollouts num_rollouts evaluate s = (s, Raise ValueError)
  /\ (num_rollouts = None -> train_step s = (s, Raise ValueError)).
Proof.
  intros Hnw Hasked. split.
  - unfold aggregate_rollouts, bind.
    now rewrite generate_rollouts_empty.
  - intros ->. unfold train_step, aggregate_rollouts, bind.
    now rewrite generate_rollouts_empty.
Qed.

(** *** What the results of a plan add up to *)

Lemma pairs_nil_inv (l : list (reward_entry A)) :
  pairs l = Some [] -> l = [].
Proof.
  destruct l as [| [x | p n] l]; simpl; [reflexivity | discriminate |].
  destruct (pairs l); discriminate.
Qed.

Lemma np_array_pairs (l : list (reward_entry A)) (rows : list (A * A)) :
  pairs l = Some rows -> rows <> [] -> np_array l = Ok (Array2 rows).
Proof.
  intros Hp Hne. unfold np_array. rewrite Hp.
  destruct l as [| [x | p n] l]; simpl in *;
    [inversion Hp; subst; congruence | discriminate | reflexivity].
Qed.

Lemma np_array_singles (l : list (reward_entry A)) (a : list A) :
  singles l = Some a -> np_array l = Ok (Array1 a).
Proof. intros Hs. unfold np_array. now rewrite Hs. Qed.

Lemma batches_total (evaluate : bool) (ws : list Wk)
  (reqs : list (nat * Z)) (results : list Result) :
  Forall2 (fun req r =>
             exists w0, nth_error ws (fst req) = Some w0
               /\ batch_of evaluate (Z.to_nat (snd req))
                    (steps_bound evaluate (Z.to_nat (snd req))
                       (Worker.rollout_length w0)) r) reqs results ->
  let total := zsum (map (fun req => Z.max 0 (snd req)) reqs) in
  len (concat (map (@Worker.deltas_idx A) results)) = total
  /\ (if evaluate
      then exists a,
             singles (concat (map (@Worker.rollout_rewards A) results))
             = Some a /\ len a = total
      else exists rows,
             pairs (concat (map (@Worker.rollout_rewards A) results))
             = Some rows /\ len rows = total)
  /\ 0 <= zsum (map (@Worker.steps A) results)
  /\ (evaluate = true -> zsum (map (@Worker.steps A) results) = 0)
  /\ (forall L, Forall (fun w => Worker.rollout_length w <= L) ws ->
        zsum (map (@Worker.steps A) results) <= 2 * total * Z.max 0 L).
Proof.
  induction 1 as [| [i k] r reqs results (w0 & Hn & Hl & Hshape & Hst) _ IH].
  - cbn. repeat split; try lia.
    destruct evaluate; eexists; split; reflexivity.
  - cbv zeta in *. cbn [map concat zsum fold_right snd fst] in *.
    fold (zsum (map (fun req : nat * Z => Z.max 0 (snd req)) reqs)) in *.
    fold (zsum (map (@Worker.steps A) results)) in *.
    destruct IH as (IH1 & IH2 & IH3 & IH4 & IH5).
    set (total := zsum (map (fun req : nat * Z => Z.max 0 (snd req)) reqs))
      in *.
    split; [rewrite len_app, IH1; unfold len; lia |].
    split; [| split; [| split]].
    + destruct evaluate.
      * destruct Hshape as (a1 & Ha1 & Hl1). destruct IH2 as (a2 & Ha2 & Hl2).
        exists (a1 ++ a2). split; [now apply singles_app |].
        rewrite len_app, Hl2. unfold len. lia.
      * destruct Hshape as (a1 & Ha1 & Hl1). destruct IH2 as (a2 & Ha2 & Hl2).
        exists (a1 ++ a2). split; [now apply pairs_app |].
        rewrite len_app, Hl2. unfold len. lia.
    + lia.
    + intros ->. unfold steps_bound in Hst. specialize (IH4 eq_refl). lia.
    + intros L HL. specialize (IH5 L HL).
      assert (Hw0 : Worker.rollout_length w0 <= L).
      { apply nth_error_In in Hn. rewrite Forall_forall in HL. now apply HL. }
      unfold steps_bound in Hst. destruct evaluate; [nia |].
      assert (Z.of_nat (Z.to_nat k) = Z.max 0 k) by lia.
      nia.
Qed.

(** With as many workers as [num_workers] says, the plan asks for
    [num_deltas] trials in all. *)
Lemma dispatch_plan_total (n : nat) (a nw : Z) :
  Z.of_nat n = nw -> nw <> 0 -> 0 <= a ->
  zsum (map (fun req : nat * Z => Z.max 0 (snd req)) (dispatch_plan n a nw))
  = a.
Proof.
  intros Hn Hnw Ha. unfold dispatch_plan.
  rewrite map_app, zsum_app.
  pose proof (Z.mod_pos_bound a nw ltac:(lia)) as Hmod.
  unfold requests_two. rewrite py_prefix_seq by lia.
  unfold requests_one. rewrite !map_map. cbn [snd].
  rewrite (@zsum_map_const nat _ (Z.max 0 (Z.quot a nw))) by reflexivity.
  rewrite (@zsum_map_const nat _ (Z.max 0 1)) by reflexivity.
  unfold len. rewrite !length_seq.
  rewrite Z.quot_div_nonneg by lia.
  pose proof (Z.div_pos a nw ltac:(lia) ltac:(lia)).
  pose proof (Z.div_mod a nw ltac:(lia)). subst nw. nia.
Qed.

(** The two rounds, with what is known of each worker's batch. *)
Lemma generate_rollouts_batches (num_rollouts : option Z) (evaluate : bool)
  s :
  let n := length (workers s) in
  let a := asked num_rollouts s in
  let nw := num_workers s in
  let Q := fun (req : nat * Z) (id : res Result) =>
    exists w0, nth_error (workers s) (fst req) = Some w0
      /\ (evaluate = true -> exists r, id = Ok r)
      /\ (forall r, id = Ok r ->
            batch_of evaluate (Z.to_nat (snd req))
              (steps_bound evaluate (Z.to_nat (snd req))
                 (Worker.rollout_length w0)) r) in
  nw <> 0 ->
  exists ws2 ids1 ids2,
    Forall2 (fun w w' => tables w' = tables w) (workers s) ws2
    /\ Forall2 Q (requests_one n (Z.quot a nw)) ids1
    /\ Forall2 Q (requests_two n (a mod nw)) ids2
    /\ generate_rollouts num_rollouts evaluate s
       = (results_one <- lift_res (ray_get ids1) ;;
          results_two <- lift_res (ray_get ids2) ;;
          acc <- gather evaluate results_one ([], []) ;;
          acc <- gather evaluate results_two acc ;;
          rollout_rewards <- lift_res (np_array (snd acc)) ;;
          lift_res (np_max_all rollout_rewards) ;;;
          ret (fst acc, rollout_rewards))%py (set_workers s ws2).
Proof.
  intros n a nw Q Hnw.
  apply (@generate_rollouts_rounds
           (fun w w' => tables w' = tables w)
           (fun k w0 id =>
              (evaluate = true -> exists r, id = Ok r)
              /\ (forall r, id = Ok r ->
                    batch_of evaluate (Z.to_nat k)
                      (steps_bound evaluate (Z.to_nat k)
                         (Worker.rollout_length w0)) r))
           num_rollouts evaluate s);
    [apply Forall_forall; reflexivity
    | intros w1 w2 w3 H12 H23; congruence | | exact Hnw].
  intros req w0 w _ Hw0. split; [| split].
  - apply (preserves_tables_do_rollouts (w_policy s) (snd req) (shift s)
             evaluate w).
  - intros ->. apply worker_evaluates.
  - intros r Hr.
    destruct (Worker.do_rollouts (w_policy s) (snd req) (shift s) evaluate w)
      as [w' r'] eqn:Hrun.
    cbn [snd] in Hr. subst r'.
    apply worker_batch in Hrun.
    unfold tables in Hw0. injection Hw0 as _ _ Hl.
    rewrite Hl in Hrun. exact Hrun.
Qed.

(** How a round of rollouts ends: a worker raised and [ray.get] raises the
    same, before anything is gathered; or every batch returned and the
    results are gathered. *)
Lemma generate_rollouts_outcome (num_rollouts : option Z) (evaluate : bool)
  s :
  num_workers s <> 0 ->
  exists ws2,
    Forall2 (fun w w' => tables w' = tables w) (workers s) ws2
    /\ ((evaluate = false
         /\ exists e, generate_rollouts num_rollouts evaluate s
                      = (set_workers s ws2, Raise e))
        \/ exists results,
             Forall2 (fun req r =>
                        exists w0, nth_error (workers s) (fst req) = Some w0
                          /\ batch_of evaluate (Z.to_nat (snd req))
                               (steps_bound evaluate (Z.to_nat (snd req))
                                  (Worker.rollout_length w0)) r)
               (dispatch_plan (length (workers s)) (asked num_rollouts s)
                  (num_workers s)) results
             /\ generate_rollouts num_rollouts evaluate s
                = let s' := if evaluate then set_workers s ws2
                            else set_timesteps (set_workers s ws2)
                                   (timesteps s
                                    + zsum (map (@Worker.steps A) results)) in
                  match np_array
                          (concat (map (@Worker.rollout_rewards A) results))
                  with
                  | Ok arr =>
                      match np_max_all arr with
                      | Ok _ =>
                          (s', Ok (concat (map (@Worker.deltas_idx A) results),
                                   arr))
                      | Raise e => (s', Raise e)
                      end
                  | Raise e => (s', Raise e)
                  end).
Proof.
  intros Hnw.
  destruct (generate_rollouts_batches num_rollouts evaluate s Hnw)
    as (ws2 & ids1 & ids2 & HR & H1 & H2 & Heq).
  exists ws2. split; [exact HR |]. rewrite Heq. clear Heq.
  assert (Hok : forall reqs ids,
    Forall2 (fun (req : nat * Z) (id : res Result) =>
      exists w0, nth_error (workers s) (fst req) = Some w0
        /\ (evaluate = true -> exists r, id = Ok r)
        /\ (forall r, id = Ok r ->
              batch_of evaluate (Z.to_nat (snd req))
                (steps_bound evaluate (Z.to_nat (snd req))
                   (Worker.rollout_length w0)) r)) reqs ids ->
    (evaluate = false /\ exists e, ray_get ids = Raise e)
    \/ exists results,
         ids = map (fun x => Ok x) results
         /\ Forall2 (fun req r =>
                       exists w0, nth_error (workers s) (fst req) = Some w0
                         /\ batch_of evaluate (Z.to_nat (snd req))
                              (steps_bound evaluate (Z.to_nat (snd req))
                                 (Worker.rollout_length w0)) r) reqs results).
  { clear. induction 1 as [| req id reqs ids (w0 & Hn & Hev & Hb) _ IH].
    - right. exists []. split; [reflexivity | constructor].
    - destruct id as [r | e].
      + destruct IH as [(Hf & e & He) | (results & -> & Hres)].
        * left. split; [exact Hf |]. exists e. simpl. now rewrite He.
        * right. exists (r :: results). split; [reflexivity |].
          constructor; [| exact Hres]. exists w0. split; [exact Hn |].
          now apply Hb.
      + left. destruct evaluate.
        * destruct (Hev eq_refl) as (r & Hr). discriminate Hr.
        * split; [reflexivity |]. now exists e. }
  destruct (Hok _ _ H1) as [(Hf & e & He) | (res1 & -> & Hres1)].
  { left. split; [exact Hf |]. exists e.
    unfold bind at 1, lift_res at 1. now rewrite He. }
  destruct (Hok _ _ H2) as [(Hf & e & He) | (res2 & -> & Hres2)].
  { left. split; [exact Hf |]. exists e.
    unfold bind at 1, lift_res at 1. rewrite ray_get_map_Ok.
    unfold bind at 1, lift_res at 1. now rewrite He. }
  right. exists (res1 ++ res2). split.
  - unfold dispatch_plan. now apply Forall2_app.
  - rewrite gather_rounds. cbv zeta.
    destruct evaluate; reflexivity.
Qed.

(** A round of rollouts that returned: the results behind it. *)
Lemma generate_rollouts_inv (num_rollouts : option Z) (evaluate : bool)
  s s' (idx : list Z) (arr : ndarray A) :
  generate_rollouts num_rollouts evaluate s = (s', Ok (idx, arr)) ->
  exists ws2 results,
    num_workers s <> 0
    /\ Forall2 (fun w w' => tables w' = tables w) (workers s) ws2
    /\ Forall2 (fun req r =>
                  exists w0, nth_error (workers s) (fst req) = Some w0
                    /\ batch_of evaluate (Z.to_nat (snd req))
                         (steps_bound evaluate (Z.to_nat (snd req))
                            (Worker.rollout_length w0)) r)
         (dispatch_plan (length (workers s)) (asked num_rollouts s)
            (num_workers s)) results
    /\ idx = concat (map (@Worker.deltas_idx A) results)
    /\ np_array (concat (map (@Worker.rollout_rewards A) results)) = Ok arr
    /\ elements arr <> []
    /\ s' = (if evaluate then set_workers s ws2
             else set_timesteps (set_workers s ws2)
                    (timesteps s + zsum (map (@Worker.steps A) results))).
Proof.
  intros Hrun.
  destruct (Z.eq_dec (num_workers s) 0) as [H0 | Hnw].
  { rewrite generate_rollouts_no_workers in Hrun by exact H0.
    discriminate Hrun. }
  destruct (generate_rollouts_outcome num_rollouts evaluate s Hnw)
    as (ws2 & HR & [(_ & e & He) | (results & Hres & Heq)]).
  { rewrite He in Hrun. discriminate Hrun. }
  rewrite Heq in Hrun. cbv zeta in Hrun.
  exists ws2, results.
  split; [exact Hnw |]. split; [exact HR |]. split; [exact Hres |].
  destruct (np_array _) as [arr' | e]; [| discriminate Hrun].
  unfold np_max_all in *.
  destruct (elements arr') as [| x l] eqn:Hel; [discriminate Hrun |].
  inversion Hrun; subst. rewrite Hel.
  repeat split; try reflexivity. discriminate.
Qed.

(** X13: a round of rollouts that returns has collected exactly what was
    asked, when the pool has [num_workers] workers and the number asked is
    not negative: that many noise offsets, and a reward array of that many
    entries, of one axis in evaluation and of two columns in training. It
    returns only if at least one trial was asked. *)
Theorem round_collects_what_was_asked (num_rollouts : option Z)
  (evaluate : bool) s s' (idx : list Z) (arr : ndarray A) :
  Z.of_nat (length (workers s)) = num_workers s ->
  0 <= asked num_rollouts s ->
  generate_rollouts num_rollouts evaluate s = (s', Ok (idx, arr)) ->
  len idx = asked num_rollouts s
  /\ 1 <= asked num_rollouts s
  /\ (if evaluate
      then exists a, arr = Array1 a /\ len a = asked num_rollouts s
      else exists rows, arr = Array2 rows /\ len rows = asked num_rollouts s).
Proof.
  intros Hpool Hasked Hrun.
  destruct (generate_rollouts_inv _ _ _ Hrun)
    as (ws2 & results & Hnw & _ & Hres & -> & Harr & Hne & _).
  destruct (@batches_total _ _ _ _ Hres) as (Hidx & Hshape & _).
  rewrite (@dispatch_plan_total _ _ _ Hpool Hnw Hasked) in Hidx, Hshape.
  split; [exact Hidx |].
  destruct evaluate.
  - destruct Hshape as (a & Ha & Hlen).
    rewrite (np_array_singles _ Ha) in Harr. inversion Harr; subst arr.
    split; [| now exists a].
    destruct a; [now contradiction Hne |]. unfold len in Hlen.
    simpl in Hlen. lia.
  - destruct Hshape as (rows & Hp & Hlen).
    destruct rows as [| row rows].
    + apply pairs_nil_inv in Hp. rewrite Hp in Harr.
      inversion Harr; subst arr. now contradiction Hne.
    + rewrite (np_array_pairs _ Hp) in Harr by discriminate.
      inversion Harr; subst arr.
      split; [| now exists (row :: rows)].
      unfold len in Hlen. simpl in Hlen. lia.
Qed.

(** *** What comes after the rollouts leaves alone *)

Lemma preserves_percentile_rank {Y : Type} (f : Agent -> Y) :
  preserves f percentile_rank.
Proof.
  unfold percentile_rank.
  repeat (first
    [ apply preserves_bind; [| intros ?]
    | apply preserves_gets | apply preserves_ret
    | apply preserves_true_div ]).
Qed.

Lemma preserves_select_top {Y : Type} (f : Agent -> Y)
  (deltas_idx : list Z) (rollout_rewards : ndarray A) :
  (forall s x, f (set_deltas_used s x) = f s) ->
  preserves f (select_top deltas_idx rollout_rewards).
Proof.
  intros Hf. unfold select_top.
  destruct rollout_rewards; [apply preserves_raise |].
  repeat (first
    [ apply preserves_bind; [| intros ?]
    | apply preserves_gets | apply preserves_ret | apply preserves_lift_res
    | apply preserves_percentile_rank
    | apply preserves_if
    | apply preserves_modify; intros s; apply Hf ]).
Qed.

Lemma aggregate_after_rollouts {Y : Type} (f : Agent -> Y)
  (num_rollouts : option Z) (evaluate : bool) s :
  (forall s x, f (set_deltas_used s x) = f s) ->
  (forall s x, f (set_deltas s x) = f s) ->
  f (fst (aggregate_rollouts num_rollouts evaluate s))
  = f (fst (generate_rollouts num_rollouts evaluate s)).
Proof.
  intros Hu Hd. unfold aggregate_rollouts. unfold bind at 1.
  destruct (generate_rollouts num_rollouts evaluate s) as [s1 [dr | e]];
    [| reflexivity].
  cbn [fst].
  assert (Hrest : preserves f
    (if evaluate then ret (snd dr)
     else (kept <- select_top (fst dr) (snd dr) ;;
           g_hat <- weigh (fst kept) (normalize (snd kept)) ;;
           ret (Array1 g_hat))%py)).
  { destruct evaluate; [apply preserves_ret |].
    apply preserves_bind; [now apply preserves_select_top | intros kept].
    apply preserves_bind; [now apply preserves_weigh | intros g].
    apply preserves_ret. }
  apply Hrest.
Qed.

Lemma train_step_after_rollouts {Y : Type} (f : Agent -> Y) s :
  (forall s x, f (set_deltas_used s x) = f s) ->
  (forall s x, f (set_deltas s x) = f s) ->
  (forall s x, f (set_optimizer s x) = f s) ->
  (forall s x, f (set_w_policy s x) = f s) ->
  f (fst (train_step s)) = f (fst (generate_rollouts None false s)).
Proof.
  intros Hu Hd Ho Hw.
  rewrite <- (aggregate_after_rollouts f None false s Hu Hd).
  unfold train_step. unfold bind at 1.
  destruct (aggregate_rollouts None false s) as [s1 [g | e]]; [| reflexivity].
  cbn [fst]. destruct g as [g_hat | rows]; [| reflexivity].
  assert (Hrest : preserves f
    (step <- zoom (@optimizer A G Env Filter Opt)
               (@set_optimizer A G Env Filter Opt) (_compute_step g_hat) ;;
     size <- gets (fun s0 : Agent => len (w_policy s0)) ;;
     step' <- reshape step size ;;
     modify (fun s0 : Agent => set_w_policy s0 (vsub (w_policy s0) step')))%py).
  { apply preserves_bind.
    { intros s0. unfold zoom.
      destruct (_compute_step g_hat (optimizer s0)) as [o' r]. apply Ho. }
    intros step. apply preserves_bind; [apply preserves_gets | intros size].
    apply preserves_bind.
    { unfold reshape. apply preserves_if;
        [apply preserves_ret | apply preserves_raise]. }
    intros step'. apply preserves_modify. intros s0. apply Hw. }
  apply Hrest.
Qed.

(** The steps a round of rollouts adds to [timesteps]. *)
Lemma generate_rollouts_timesteps (num_rollouts : option Z) s (L : Z) :
  Z.of_nat (length (workers s)) = num_workers s ->
  0 <= asked num_rollouts s ->
  Forall (fun w => Worker.rollout_length w <= L) (workers s) ->
  timesteps s <= timesteps (fst (generate_rollouts num_rollouts false s))
  <= timesteps s + 2 * asked num_rollouts s * Z.max 0 L.
Proof.
  intros Hpool Hasked HL.
  assert (H0 : 0 <= 2 * asked num_rollouts s * Z.max 0 L) by nia.
  destruct (Z.eq_dec (num_workers s) 0) as [Hz | Hnw].
  { rewrite generate_rollouts_no_workers by exact Hz. cbn [fst]. lia. }
  destruct (generate_rollouts_outcome num_rollouts false s Hnw)
    as (ws2 & _ & [(_ & e & ->) | (results & Hres & ->)]).
  { cbn [fst timesteps set_workers]. lia. }
  destruct (@batches_total _ _ _ _ Hres) as (_ & _ & Hlo & _ & Hhi).
  specialize (Hhi L HL).
  rewrite (@dispatch_plan_total _ _ _ Hpool Hnw Hasked) in Hhi.
  cbv zeta.
  destruct (np_array _) as [arr | e];
    [destruct (np_max_all arr) |];
    cbn [fst timesteps set_timesteps set_workers]; lia.
Qed.

(** The workers after a round of rollouts. *)
Lemma generate_rollouts_pool (num_rollouts : option Z) (evaluate : bool) s :
  map (fun w => tables w)
      (workers (fst (generate_rollouts num_rollouts evaluate s)))
  = map (fun w => tables w) (workers s).
Proof.
  destruct (Z.eq_dec (num_workers s) 0) as [Hz | Hnw].
  { now rewrite generate_rollouts_no_workers by exact Hz. }
  destruct (generate_rollouts_outcome num_rollouts evaluate s Hnw)
    as (ws2 & HR & Hcases).
  assert (Hmap : map (fun w => tables w) ws2
                 = map (fun w => tables w) (workers s)).
  { clear - HR. induction HR as [| w w' l l' Hw _ IH]; [reflexivity |].
    simpl. now rewrite Hw, IH. }
  rewrite <- Hmap.
  destruct Hcases as [(_ & e & ->) | (results & _ & ->)]; [reflexivity |].
  cbv zeta.
  destruct (np_array _) as [arr | e];
    [destruct (np_max_all arr) |]; destruct evaluate; reflexivity.
Qed.

(** X14: training only moves [timesteps] forward, and by no more than two
    rollouts of full length for each trial asked: whether the aggregation
    (or the training step) returns or raises, [timesteps] ends between its
    old value and that plus [2 * num_deltas * rollout_length], when the
    pool has [num_workers] workers, none with a longer rollout length. *)
Theorem training_counts_its_steps (num_rollouts : option Z) s (L : Z) :
  Z.of_nat (length (workers s)) = num_workers s ->
  0 <= asked num_rollouts s ->
  Forall (fun w => Worker.rollout_length w <= L) (workers s) ->
  (timesteps s
     <= timesteps (fst (aggregate_rollouts num_rollouts false s))
     <= timesteps s + 2 * asked num_rollouts s * Z.max 0 L)
  /\ (num_rollouts = None ->
        timesteps s <= timesteps (fst (train_step s))
        <= timesteps s + 2 * num_deltas s * Z.max 0 L).
Proof.
  intros Hpool Hasked HL.
  pose proof (generate_rollouts_timesteps num_rollouts s Hpool Hasked HL)
    as Hgen.
  split.
  - rewrite (@aggregate_after_rollouts _ (@timesteps A G Env Filter Opt));
      [exact Hgen | reflexivity | reflexivity].
  - intros ->.
    rewrite (@train_step_after_rollouts _ (@timesteps A G Env Filter Opt));
      [exact Hgen | reflexivity | reflexivity | reflexivity | reflexivity].
Qed.

(** X15: neither aggregation (in either mode) nor a training step changes
    the pool, whether it returns or raises: there are as many workers as
    before and each still has the same noise buffer, the same [delta_std]
    and the same [rollout_length]. *)
Theorem the_pool_is_kept (num_rollouts : option Z) (evaluate : bool) s :
  map (fun w => tables w)
      (workers (fst (aggregate_rollouts num_rollouts evaluate s)))
  = map (fun w => tables w) (workers s)
  /\ map (fun w => tables w) (workers (fst (train_step s)))
     = map (fun w => tables w) (workers s).
Proof.
  split.
  - rewrite (@aggregate_after_rollouts _
               (fun s : Agent => map (fun w => tables w) (workers s)));
      [apply generate_rollouts_pool | reflexivity | reflexivity].
  - rewrite (@train_step_after_rollouts _
               (fun s : Agent => map (fun w => tables w) (workers s)));
      [apply generate_rollouts_pool
      | reflexivity | reflexivity | reflexivity | reflexivity].
Qed.

(** X16: an evaluation pass always returns, given a pool of
    [num_workers >= 1] workers and at least one rollout asked: it returns a
    reward array of one axis with exactly as many rewards as were asked. *)
Theorem evaluation_returns (num_rollouts : option Z) s :
  Z.of_nat (length (workers s)) = num_workers s ->
  1 <= num_workers s ->
  1 <= asked num_rollouts s ->
  exists s' a,
    aggregate_rollouts num_rollouts true s = (s', Ok (Array1 a))
    /\ len a = asked num_rollouts s.
Proof.
  intros Hpool Hnw Hasked.
  assert (Hnw0 : num_workers s <> 0) by lia.
  destruct (generate_rollouts_outcome num_rollouts true s Hnw0)
    as (ws2 & _ & [(Hf & _) | (results & Hres & Hgen)]);
    [discriminate Hf |].
  destruct (@batches_total _ _ _ _ Hres) as (_ & (a & Ha & Hlen) & _).
  assert (Hge : 0 <= asked num_rollouts s) by lia.
  rewrite (@dispatch_plan_total _ _ _ Hpool Hnw0 Hge) in Hlen.
  rewrite (np_array_singles _ Ha) in Hgen. cbv zeta in Hgen.
  destruct a as [| x a]; [unfold len in Hlen; simpl in Hlen; lia |].
  unfold np_max_all in Hgen. cbn [elements] in Hgen.
  exists (set_workers s ws2), (x :: a). split; [| exact Hlen].
  unfold aggregate_rollouts, bind. rewrite Hgen. reflexivity.
Qed.

(** A training batch on a worker whose table is too short. *)
Lemma short_table_batch (base : list A) (k : Z) (sh : A) (w : Wk) :
  len (noise (Worker.deltas w)) < len base ->
  Worker.do_rollouts base k sh false w
  = (w, if 1 <=? k then Raise ValueError
        else Ok {| Worker.deltas_idx := []; Worker.rollout_rewards := [];
                   Worker.steps := 0 |}).
Proof.
  intros Hshort. unfold Worker.do_rollouts.
  destruct (Z.leb_spec 1 k) as [Hk | Hk].
  - destruct (Z.to_nat k) as [| n] eqn:Hn; [lia |].
    cbn [Worker.do_rollouts_loop]. unfold bind at 1.
    unfold Worker.do_rollouts_body.
    unfold bind at 1. unfold zoom at 1.
    unfold get_delta. unfold bind at 1.
    rewrite sample_index_too_long by exact Hshort.
    destruct w; reflexivity.
  - replace (Z.to_nat k) with 0%nat by lia. reflexivity.
Qed.

Lemma ray_get_first_raise {X : Type} (P : nat * Z -> res X -> Prop)
  (reqs : list (nat * Z)) (ids : list (res X)) (e : exn) :
  (forall req id, P req id -> 1 <= snd req -> id = Raise e) ->
  Forall2 P reqs ids ->
  match reqs with
  | req :: _ => 1 <= snd req
  | [] => False
  end ->
  ray_get ids = Raise e.
Proof.
  intros HP H Hfirst. destruct H as [| req id reqs ids Hid _]; [contradiction |].
  rewrite (HP _ _ Hid Hfirst). reflexivity.
Qed.

Lemma ray_get_all_Ok {X : Type} (P : nat * Z -> res X -> Prop)
  (reqs : list (nat * Z)) (ids : list (res X)) :
  (forall req id, In req reqs -> P req id -> exists x, id = Ok x) ->
  Forall2 P reqs ids ->
  exists results, ray_get ids = Ok results.
Proof.
  intros HP H. induction H as [| req id reqs ids Hid _ IH].
  - now exists [].
  - destruct (HP req id (or_introl eq_refl) Hid) as (x & ->).
    destruct IH as (results & IH).
    { intros req' id' Hin. apply HP. now right. }
    simpl. rewrite IH. now eexists.
Qed.

(** X23: a noise table too short for the weights surfaces at the
    coordinator. When every worker's table is shorter than [w_policy], the
    pool has [num_workers >= 1] workers and at least one trial is asked, a
    training aggregation raises the [ValueError] of the first worker that
    draws a perturbation, through [ray.get], with the coordinator and every
    worker exactly as they were; so does a training step. *)
Theorem short_tables_stop_training (num_rollouts : option Z) s :
  Z.of_nat (length (workers s)) = num_workers s ->
  1 <= num_workers s ->
  1 <= asked num_rollouts s ->
  Forall (fun w => len (noise (Worker.deltas w)) < len (w_policy s))
    (workers s) ->
  aggregate_rollouts num_rollouts false s = (s, Raise ValueError)
  /\ (num_rollouts = None -> train_step s = (s, Raise ValueError)).
Proof.
  intros Hpool Hnw Hasked Hshort.
  assert (Hgen : generate_rollouts num_rollouts false s
                 = (s, Raise ValueError)).
  { set (empty := {| Worker.deltas_idx := []; Worker.rollout_rewards := [];
                     Worker.steps := 0 |} : Result).
    destruct (@generate_rollouts_rounds
                (fun w w' =>
                   w' = w /\ len (noise (Worker.deltas w)) < len (w_policy s))
                (fun k _ id =>
                   id = if 1 <=? k then Raise ValueError else Ok empty)
                num_rollouts false s)
      as (ws2 & ids1 & ids2 & HR & H1 & H2 & ->).
    - eapply Forall_impl; [| exact Hshort]. intros w Hw. now split.
    - intros w1 w2 w3 [-> H12] [-> _]. now split.
    - intros req w0 w _ [-> Hw0].
      rewrite (short_table_batch _ (snd req) (shift s) w0 Hw0).
      cbn [fst snd]. repeat split. exact Hw0.
    - lia.
    - assert (Hws : ws2 = workers s).
      { clear - HR. induction HR as [| w w' l l' [-> _] _ IH];
          [reflexivity | now rewrite IH]. }
      rewrite Hws, set_workers_same. clear HR Hws ws2.
      set (n := length (workers s)) in *.
      set (a := asked num_rollouts s) in *.
      set (nw := num_workers s) in *.
      assert (Hn : (1 <= n)%nat) by lia.
      rewrite Z.quot_div_nonneg in H1 by lia.
      pose proof (Z.div_pos a nw ltac:(lia) ltac:(lia)) as Hq.
      destruct (Z.le_gt_cases 1 (a / nw)) as [Hq1 | Hq0].
      + (* the first round already asks the first worker for a trial *)
        assert (Hr : ray_get ids1 = Raise ValueError).
        { eapply ray_get_first_raise; [| exact H1 |].
          - intros req id (w0 & _ & ->) Hk.
            destruct (Z.leb_spec 1 (snd req)); [reflexivity | lia].
          - unfold requests_one. destruct n; [lia |]. exact Hq1. }
        unfold bind at 1, lift_res at 1. now rewrite Hr.
      + (* the first round asks for nothing, the second for one trial *)
        assert (Hq' : a / nw = 0) by lia.
        rewrite Hq' in H1.
        destruct (ray_get_all_Ok (reqs := requests_one n 0) (ids := ids1)
                    (P := fun req id =>
                       exists w0 : Wk,
                         nth_error (workers s) (fst req) = Some w0
                         /\ id = (if 1 <=? snd req then Raise ValueError
                                  else Ok empty)))
          as (res1 & Hr1).
        { intros req id Hin (w0 & _ & ->). unfold requests_one in Hin.
          apply in_map_iff in Hin. destruct Hin as (i & <- & _).
          cbn [snd]. now eexists. }
        { exact H1. }
        assert (Hr : ray_get ids2 = Raise ValueError).
        { eapply ray_get_first_raise; [| exact H2 |].
          - intros req id (w0 & _ & ->) Hk.
            destruct (Z.leb_spec 1 (snd req)); [reflexivity | lia].
          - pose proof (Z.mod_pos_bound a nw ltac:(lia)) as Hmod.
            pose proof (Z.div_mod a nw ltac:(lia)) as Hdm.
            unfold requests_two. rewrite py_prefix_seq by lia.
            destruct (Z.to_nat (a mod nw)) as [| m] eqn:Hm; [nia |].
            cbn. lia. }
        unfold bind at 1, lift_res at 1. rewrite Hr1.
        unfold bind at 1, lift_res at 1. now rewrite Hr. }
  split.
  - unfold aggregate_rollouts, bind. now rewrite Hgen.
  - intros ->. unfold train_step, aggregate_rollouts, bind. now rewrite Hgen.
Qed.

(** What is done with the results of the two rounds leaves the workers
    alone. *)
Lemma preserves_workers_gathering (evaluate : bool)
  (ids1 ids2 : list (res Result)) :
  preserves (fun s : Agent => workers s)
    (results_one <- lift_res (ray_get ids1) ;;
     results_two <- lift_res (ray_get ids2) ;;
     acc <- gather evaluate results_one ([], []) ;;
     acc <- gather evaluate results_two acc ;;
     rollout_rewards <- lift_res (np_array (snd acc)) ;;
     lift_res (np_max_all rollout_rewards) ;;;
     ret (fst acc, rollout_rewards))%py.
Proof.
  repeat (first
    [ apply preserves_bind; [| intros ?]
    | apply preserves_lift_res | apply preserves_ret
    | apply preserves_gather; right; reflexivity ]).
Qed.

(** X24: an evaluation pass runs every rollout, on every worker, with the
    coordinator's weights as they are, unperturbed, with [update_filter]
    off and with no shift: each worker's log of rollouts grows by rollouts
    of that kind only (by none, for a worker that was asked nothing), and
    no worker is added or removed. *)
Theorem evaluation_uses_the_weights (num_rollouts : option Z) s :
  Forall2 (fun w w' =>
             exists cs, Worker.calls w' = Worker.calls w ++ cs
                        /\ Forall (evaluation_call (w_policy s)) cs)
    (workers s) (workers (fst (aggregate_rollouts num_rollouts true s))).
Proof.
  set (R := fun w w' : Wk =>
              exists cs, Worker.calls w' = Worker.calls w ++ cs
                         /\ Forall (evaluation_call (w_policy s)) cs).
  assert (Rrefl : forall w, R w w).
  { intros w. exists []. rewrite app_nil_r. split; constructor. }
  assert (Hwk : workers (fst (aggregate_rollouts num_rollouts true s))
                = workers (fst (generate_rollouts num_rollouts true s))).
  { apply (@aggregate_after_rollouts _ (fun s : Agent => workers s));
      reflexivity. }
  rewrite Hwk.
  destruct (Z.eq_dec (num_workers s) 0) as [H0 | Hnw].
  { rewrite generate_rollouts_no_workers by exact H0. cbn [fst].
    induction (workers s); constructor; auto. }
  destruct (@generate_rollouts_rounds R (fun _ _ _ => True)
              num_rollouts true s)
    as (ws2 & ids1 & ids2 & HR & _ & _ & ->).
  - apply Forall_forall. intros w _. apply Rrefl.
  - intros w1 w2 w3 (cs1 & H1 & F1) (cs2 & H2 & F2).
    exists (cs1 ++ cs2). rewrite H2, H1, app_assoc.
    split; [reflexivity | now apply Forall_app].
  - intros req w0 w _ _. split; [| exact I].
    unfold Worker.do_rollouts.
    destruct (do_rollouts_loop_evaluate (w_policy s) (shift s)
                (Z.to_nat (snd req))
                {| Worker.deltas_idx := []; Worker.rollout_rewards := [];
                   Worker.steps := 0 |} w)
      as (w1 & cs & Hrun & Hc & _ & Hall & _).
    rewrite Hrun. cbn [fst]. exists cs. now split.
  - exact Hnw.
  - rewrite (preserves_workers_gathering true ids1 ids2 (set_workers s ws2)).
    exact HR.
Qed.

(** X25: a training round runs every rollout, on every worker, with a
    perturbation of the coordinator's weights as they are: whether the
    aggregation (or the training step) returns or raises, each worker's log
    of rollouts grows only by rollouts with [update_filter] on, the
    coordinator's shift, and weights [w_policy + delta] or
    [w_policy - delta], where [delta] is the worker's [delta_std] times a
    slice of its noise table of the size of [w_policy], at an offset in
    range. *)
Theorem training_uses_the_weights (num_rollouts : option Z) s :
  let grown := fun w w' : Wk =>
    exists cs,
      Worker.calls w' = Worker.calls w ++ cs
      /\ Forall (training_call (w_policy s) (Worker.delta_std w)
                   (noise (Worker.deltas w)) (shift s)) cs in
  Forall2 grown (workers s)
    (workers (fst (aggregate_rollouts num_rollouts false s)))
  /\ Forall2 grown (workers s) (workers (fst (train_step s))).
Proof.
  intros grown.
  set (R := fun w w' : Wk => tables w' = tables w /\ grown w w').
  assert (Rrefl : forall w, R w w).
  { intros w. split; [reflexivity |]. exists []. rewrite app_nil_r.
    split; constructor. }
  assert (Hgen : forall nr,
    Forall2 grown (workers s)
      (workers (fst (generate_rollouts nr false s)))).
  { intros nr.
    destruct (Z.eq_dec (num_workers s) 0) as [H0 | Hnw].
    { rewrite generate_rollouts_no_workers by exact H0. cbn [fst].
      induction (workers s); constructor; [apply Rrefl | assumption]. }
    destruct (@generate_rollouts_rounds R (fun _ _ _ => True) nr false s)
      as (ws2 & ids1 & ids2 & HR & _ & _ & ->).
    - apply Forall_forall. intros w _. apply Rrefl.
    - intros w1 w2 w3 (T12 & cs1 & H1 & F1) (T23 & cs2 & H2 & F2).
      split; [congruence |].
      exists (cs1 ++ cs2). rewrite H2, H1, app_assoc.
      split; [reflexivity |]. apply Forall_app. split; [exact F1 |].
      unfold tables in T12. injection T12 as Hn12 Hs12 _.
      now rewrite Hn12, Hs12 in F2.
    - intros req w0 w _ _. split; [| exact I]. split.
      + apply (preserves_tables_do_rollouts (w_policy s) (snd req) (shift s)
                 false w).
      + apply do_rollouts_loop_calls.
    - exact Hnw.
    - rewrite (preserves_workers_gathering false ids1 ids2
                 (set_workers s ws2)).
      cbn [workers set_workers].
      clear - HR. induction HR as [| w w' l l' [_ Hg] _ IH];
        constructor; assumption. }
  split.
  - rewrite (@aggregate_after_rollouts _ (fun s : Agent => workers s));
      [apply Hgen | reflexivity | reflexivity].
  - rewrite (@train_step_after_rollouts _ (fun s : Agent => workers s));
      [apply Hgen | reflexivity | reflexivity | reflexivity | reflexivity].
Qed.

End PoolFacts.

(** ** Selection: the trials kept *)

Section SelectMore.
Import ARSAgent.
Context {A : Type} {NA : Numeric A} {G : Type} {RS : RandomState G}.
Context {Env Ob Act Filter Opt : Type}.
Context {GY : Gym A Env Ob Act} {PM : PolicyModel A Filter Ob Act}.
Context {OP : Optimizer A Opt}.
Implicit Types s : ARSAgent.t A G Env Filter Opt.

Lemma masked_combine {X Y : Type} (mask : list bool) (l : list X)
  (r : list Y) :
  combine (masked mask l) (masked mask r) = masked mask (combine l r).
Proof.
  revert l r. induction mask as [| b mask IH]; intros [| x l] [| y r];
    try reflexivity.
  - simpl. destruct b; [| destruct (masked mask l)]; reflexivity.
  - simpl. destruct b; simpl; [f_equal |]; apply IH.
Qed.

Lemma masked_filter {X Y : Type} (f : Y -> bool) (l : list X) (r : list Y) :
  length l = length r ->
  masked (map f r) (combine l r) = filter (fun t => f (snd t)) (combine l r).
Proof.
  revert r. induction l as [| x l IH]; intros [| y r] Hlen; try discriminate;
    [reflexivity |].
  simpl. rewrite IH by now inversion Hlen. reflexivity.
Qed.

(** X17: the selection keeps trials whole and in order: the offsets and
    the reward rows it returns, paired position by position, are exactly the
    (offset, rewards) pairs it was given whose larger reward reaches the
    percentile, in the order given. No offset ends up beside the rewards
    of another trial. *)
Theorem select_top_keeps_pairs (deltas_idx : list Z) (rows : list (A * A))
  (kept : list Z * list (A * A)) s s' :
  length deltas_idx = length rows ->
  select_top deltas_idx (Array2 rows) s = (s', Ok kept) ->
  exists p,
    np_percentile (map row_max rows) (clamped_rank s) = Ok p
    /\ combine (fst kept) (snd kept)
       = filter (fun t => nleb p (row_max (snd t))) (combine deltas_idx rows).
Proof.
  intros Hlen Hrun.
  apply select_top_runs in Hrun.
  destruct Hrun as (p & Hp & Hd & Hk & _).
  exists p. split; [exact Hp |].
  set (mask := map (fun r => nleb p (row_max r)) rows) in *.
  pose proof (np_take_where [] deltas_idx mask) as Ht.
  cbn [app length] in Ht. rewrite Ht in Hd
    by (unfold mask; rewrite length_map; lia).
  inversion Hd as [Hfst]. rewrite Hk.
  rewrite masked_combine. unfold mask.
  now apply (masked_filter (fun r => nleb p (row_max r))).
Qed.

End SelectMore.

(** *** A percentile rank out of range *)

Section SelectRank.
Import ARSAgent.
Variable sq : Qc -> Qc.
Context {G : Type} {RS : RandomState G}.
Context {Env Ob Act Filter Opt : Type}.
Context {GY : Gym Qc Env Ob Act} {PM : PolicyModel Qc Filter Ob Act}.
Context {OP : Optimizer Qc Opt}.
Local Abbreviation NQ := (Qc_numeric sq).
Local Abbreviation Agent := (ARSAgent.t Qc G Env Filter Opt).
Local Open Scope Qc_scope.

Lemma Qc_of_Z_lt (a b : Z) : (a < b)%Z <-> Qc_of_Z a < Qc_of_Z b.
Proof.
  unfold Qclt, Qc_of_Z, Q2Qc. cbn [this]. rewrite !Qred_correct.
  rewrite Zlt_Qlt. reflexivity.
Qed.

Lemma np_percentile_rank_above_100 (a : list Qc) (q : Qc) :
  1 < q / Qc_of_Z 100 -> np_percentile (NA := NQ) a q = Raise ValueError.
Proof.
  intros Hq. unfold np_percentile.
  cbn [nleb ndiv nmul nsub nadd of_Z nfloor NQ Qc_numeric].
  change (Qc_of_Z 1) with 1.
  destruct (Qcleb (q / Qc_of_Z 100) 1) eqn:Hle.
  - apply Qcleb_le in Hle. now apply Qclt_not_le in Hq.
  - now rewrite andb_false_r.
Qed.

(** X20: a negative [deltas_used] (with [num_deltas > 0]) makes training
    impossible, in exact arithmetic: the percentile rank
    [100 * (1 - deltas_used / num_deltas)] is above 100, [np.percentile]
    refuses it, and so no training aggregation and no training step ever
    returns. *)
Theorem negative_deltas_used_never_trains (num_rollouts : option Z)
  (s : Agent) :
  (deltas_used s < 0)%Z ->
  (0 < num_deltas s)%Z ->
  (forall s' g,
     aggregate_rollouts (NA := NQ) num_rollouts false s <> (s', Ok g))
  /\ (forall s', train_step (NA := NQ) s <> (s', Ok tt)).
Proof.
  intros Hdu Hnd.
  assert (Hagg : forall nr s' g,
    aggregate_rollouts (NA := NQ) nr false s <> (s', Ok g)).
  { intros nr s' g Hrun.
    destruct (aggregate_stages (NA := NQ) nr s Hrun)
      as (s1 & s2 & ai & ar & kept & g_hat & Hgen & Hsel & _).
    assert (H1 : preserves (fun s : Agent => (deltas_used s, num_deltas s))
                   (generate_rollouts (NA := NQ) nr false)).
    { apply preserves_generate_rollouts; [reflexivity | right; reflexivity]. }
    specialize (H1 s).
    rewrite Hgen in H1. cbn [fst] in H1. injection H1 as Hd1 Hn1.
    destruct ar as [a1 | rows];
      [unfold select_top, raise in Hsel; discriminate Hsel |].
    apply select_top_runs in Hsel. destruct Hsel as (p & Hp & _).
    rewrite np_percentile_rank_above_100 in Hp; [discriminate Hp |].
    unfold clamped_rank.
    cbn [nleb ndiv nmul nsub nadd of_Z nfloor NQ Qc_numeric].
    rewrite Hd1, Hn1. rewrite Z.min_l by lia.
    change (Qc_of_Z 1) with 1.
    set (D := Qc_of_Z (deltas_used s)). set (N := Qc_of_Z (num_deltas s)).
    assert (HN : 0 < N).
    { unfold N. change 0 with (Qc_of_Z 0).
      apply (proj1 (Qc_of_Z_lt 0 (num_deltas s))). exact Hnd. }
    assert (HD : D < 0).
    { unfold D. change 0 with (Qc_of_Z 0).
      apply (proj1 (Qc_of_Z_lt (deltas_used s) 0)). exact Hdu. }
    assert (HN0 : N <> 0).
    { intros H0. apply Qclt_not_eq in HN. congruence. }
    assert (H100 : Qc_of_Z 100 <> 0).
    { intros H0. apply Qc_of_Z_eq_0 in H0. discriminate H0. }
    replace (Qc_of_Z 100 * (1 - D / N) / Qc_of_Z 100) with (1 - D / N)
      by (field; split; assumption).
    assert (Hneg : D / N < 0).
    { apply Qcnot_le_lt. intros Hge.
      apply (Qcmult_le_compat_r _ _ N) in Hge; [| now apply Qclt_le_weak].
      replace (D / N * N) with D in Hge by (field; exact HN0).
      rewrite Qcmult_0_l in Hge. now apply Qclt_not_le in HD. }
    apply (proj2 (Qclt_minus_iff _ _)).
    replace (1 - D / N + - (1)) with (0 + - (D / N)) by ring.
    apply (proj1 (Qclt_minus_iff (D / N) 0)). exact Hneg. }
  split; [apply Hagg |].
  intros s' Hrun.
  unfold train_step in Hrun. unfold bind at 1 in Hrun.
  destruct (aggregate_rollouts (NA := NQ) None false s) as [s1 [g | e]]
    eqn:Ha; [| discriminate Hrun].
  now apply (Hagg None s1 g).
Qed.

End SelectRank.

(** ** A training step: the update *)

Section TrainStepMore.
Import ARSAgent.
Context {A : Type} {NA : Numeric A} {G : Type} {RS : RandomState G}.
Context {Env Ob Act Filter Opt : Type}.
Context {GY : Gym A Env Ob Act} {PM : PolicyModel A Filter Ob Act}.
Context {OP : Optimizer A Opt}.
Implicit Types s : ARSAgent.t A G Env Filter Opt.

Lemma zip_with_length {X Y W : Type} (f : X -> Y -> W) (l : list X)
  (r : list Y) :
  length l = length r -> length (zip_with f l r) = length l.
Proof.
  revert r. induction l as [| x l IH]; intros [| y r] Hlen; try discriminate;
    [reflexivity |].
  simpl. f_equal. apply IH. now inversion Hlen.
Qed.

(** X19: a training step is all or nothing on the weights, and never
    changes their number. If it raises, wherever it does (in the rollouts,
    the selection, the optimizer or the reshape of a step of the wrong
    size), [w_policy] is what it was. If it returns, the optimizer was run
    once on the estimate aggregation returned, its step has the size of
    [w_policy], and [w_policy] is the old one minus that step, component by
    component; the optimizer keeps the state the call left. *)
Theorem train_step_updates_or_keeps s s' (r : res unit) :
  train_step s = (s', r) ->
  len (w_policy s') = len (w_policy s)
  /\ match r with
     | Raise _ => w_policy s' = w_policy s
     | Ok _ =>
         exists s1 g_hat step,
           aggregate_rollouts None false s = (s1, Ok (Array1 g_hat))
           /\ _compute_step g_hat (optimizer s1) = (optimizer s', Ok step)
           /\ len step = len (w_policy s)
           /\ w_policy s' = vsub (w_policy s) step
     end.
Proof.
  unfold train_step. unfold bind at 1.
  pose proof (keeps_aggregate_rollouts None false s) as Hkeep.
  destruct (aggregate_rollouts None false s) as [s1 [g | e]] eqn:Hagg;
    simpl in Hkeep; destruct Hkeep as (Hw & _).
  2: { intros H. inversion H; subst. now rewrite Hw. }
  destruct g as [g_hat | rows].
  2: { unfold raise. intros H. inversion H; subst. now rewrite Hw. }
  unfold bind at 1, zoom at 1.
  destruct (_compute_step g_hat (optimizer s1)) as [o' [step | e]] eqn:Hopt.
  2: { intros H. inversion H; subst.
       cbn [w_policy set_optimizer]. now rewrite Hw. }
  unfold bind at 1, gets at 1. unfold bind at 1, reshape.
  cbn [w_policy set_optimizer].
  destruct (Z.eqb_spec (len step) (len (w_policy s1))) as [Hlen | Hlen].
  - unfold ret, modify. intros H. inversion H; subst.
    cbn [w_policy set_w_policy set_optimizer optimizer].
    rewrite Hw in *. split.
    + unfold len, vsub in *. rewrite zip_with_length; [reflexivity | lia].
    + exists s1, g_hat, step. repeat split; assumption.
  - unfold raise. intros H. inversion H; subst.
    cbn [w_policy set_optimizer]. now rewrite Hw.
Qed.

End TrainStepMore.

(** ** utils.process_rollout: discounted sums *)

Section ProcessRolloutFacts.
Context {A : Type} {NA : Numeric A}.

Lemma last_cons_indep {X : Type} (x : X) (l : list X) (d d' : X) :
  last (x :: l) d = last (x :: l) d'.
Proof.
  revert x. induction l as [| y l IH]; intros x; [reflexivity |].
  change (last (y :: l) d = last (y :: l) d'). apply IH.
Qed.

Lemma hd_rev {X : Type} (l : list X) (d : X) : hd d (rev l) = last l d.
Proof.
  induction l as [| x l IH]; [reflexivity |].
  simpl rev. destruct l as [| y l]; [reflexivity |].
  change (last (x :: y :: l) d) with (last (y :: l) d).
  rewrite <- IH. simpl rev.
  destruct (rev l ++ [y]) eqn:Hr; [| reflexivity].
  destruct (rev l); discriminate Hr.
Qed.

(** What the loop leaves in [y], given what it computes from an empty
    [y]. *)
Lemma discount_sum_loop_acc (xs : list A) (gamma run_sum : A) (y : list A) :
  discount_sum_loop xs gamma run_sum y
  = y ++ discount_sum_loop xs gamma run_sum [].
Proof.
  revert run_sum y. induction xs as [| xt xs IH]; intros run_sum y; simpl.
  - now rewrite app_nil_r.
  - rewrite IH. rewrite (IH _ [_]). now rewrite app_assoc.
Qed.

(** The loop over two stretches: the second starts from the running sum
    the first ended with. *)
Lemma discount_sum_loop_app (xs1 xs2 : list A) (gamma run_sum : A) :
  discount_sum_loop (xs1 ++ xs2) gamma run_sum []
  = discount_sum_loop xs1 gamma run_sum []
    ++ discount_sum_loop xs2 gamma
         (last (discount_sum_loop xs1 gamma run_sum []) run_sum) [].
Proof.
  revert run_sum. induction xs1 as [| xt xs1 IH]; intros run_sum; simpl;
    [reflexivity |].
  rewrite discount_sum_loop_acc, IH.
  rewrite (discount_sum_loop_acc xs1 _ _ [_]).
  rewrite <- app_assoc. f_equal. f_equal. f_equal.
  set (r := nadd xt (nmul gamma run_sum)).
  destruct (discount_sum_loop xs1 gamma r []) as [| z l]; [reflexivity |].
  change ([r] ++ z :: l) with (r :: z :: l).
  change (last (r :: z :: l) run_sum) with (last (z :: l) run_sum).
  apply last_cons_indep.
Qed.

Lemma discount_sum_loop_length (xs : list A) (gamma run_sum : A) :
  length (discount_sum_loop xs gamma run_sum []) = length xs.
Proof.
  revert run_sum. induction xs as [| xt xs IH]; intros run_sum; simpl;
    [reflexivity |].
  rewrite discount_sum_loop_acc, length_app, IH. reflexivity.
Qed.

(** X21: [discount_sum] computes the discounted returns by the backward
    recursion: the result has one entry for each reward; the entry at [t]
    is [x[t] + gamma * y[t + 1]], and the entry after the last one is taken
    to be [terminal]. An empty [x] gives an empty array. *)
Theorem discount_sum_recursion (x : list A) (gamma terminal : A) :
  length (discount_sum x gamma terminal) = length x
  /\ forall (r : A),
       discount_sum (r :: x) gamma terminal
       = nadd r (nmul gamma (hd terminal (discount_sum x gamma terminal)))
         :: discount_sum x gamma terminal.
Proof.
  unfold discount_sum. split.
  - now rewrite length_rev, discount_sum_loop_length, length_rev.
  - intros r. simpl rev at 2. rewrite discount_sum_loop_app.
    rewrite rev_app_distr. rewrite hd_rev. reflexivity.
Qed.

(** X22: discounting a trajectory cut in two: the returns of the first
    part are those of [discount_sum] on it alone with, as terminal value,
    the first return of the second part (or [terminal] when the second part
    is empty); the returns of the second part do not depend on the
    first. *)
Theorem discount_sum_app (x1 x2 : list A) (gamma terminal : A) :
  discount_sum (x1 ++ x2) gamma terminal
  = discount_sum x1 gamma (hd terminal (discount_sum x2 gamma terminal))
    ++ discount_sum x2 gamma terminal.
Proof.
  unfold discount_sum.
  rewrite rev_app_distr, discount_sum_loop_app, rev_app_distr, hd_rev.
  reflexivity.
Qed.

End ProcessRolloutFacts.

(** ** Further concrete runs *)

Lemma no_workers_raises_witness :
  Toy.aggregate_Qc (Some 4) true Cases.no_workers
  = (Cases.no_workers, Raise ZeroDivisionError)
  /\ Toy.train_step_Qc Cases.no_workers
     = (Cases.no_workers, Raise ZeroDivisionError).
Proof.
  apply (no_workers_raises (NA := Toy.NQ) (GY := Toy.linear_env)
           (PM := Toy.first_weight (NA := Toy.NQ))
           (OP := Toy.sgd (NA := Toy.NQ)) (Some 4) true Cases.no_workers).
  reflexivity.
Defined.

Lemma aggregation_clamps_deltas_used_witness :
  let s := Toy.agent_Qc 5 in
  let s' := fst (Toy.aggregate_Qc None false s) in
  ARSAgent.deltas_used s'
  = Z.min (ARSAgent.deltas_used s) (ARSAgent.num_deltas s)
  /\ ARSAgent.num_deltas s' = ARSAgent.num_deltas s.
Proof.
  apply (aggregation_clamps_deltas_used (NA := Toy.NQ) (GY := Toy.linear_env)
           (PM := Toy.first_weight (NA := Toy.NQ)) None (Toy.agent_Qc 5)
           (g := match snd (Toy.aggregate_Qc None false (Toy.agent_Qc 5)) with
                 | Ok g => g
                 | Raise _ => Array1 []
                 end)).
  vm_compute. reflexivity.
Defined.

Lemma empty_batch_raises_witness :
  Toy.aggregate_Qc None false Cases.no_deltas
  = (Cases.no_deltas, Raise ValueError)
  /\ (@None Z = None ->
      Toy.train_step_Qc Cases.no_deltas = (Cases.no_deltas, Raise ValueError)).
Proof.
  apply (empty_batch_raises (NA := Toy.NQ) (GY := Toy.linear_env)
           (PM := Toy.first_weight (NA := Toy.NQ))
           (OP := Toy.sgd (NA := Toy.NQ)) None false Cases.no_deltas).
  - vm_compute. discriminate.
  - reflexivity.
Defined.

Lemma round_collects_what_was_asked_witness :
  let s := Toy.agent_Qc 2 in
  let run := Toy.generate_Qc None false s in
  let idx := match snd run with Ok r => fst r | Raise _ => [] end in
  let arr := match snd run with Ok r => snd r | Raise _ => Array1 [] end in
  len idx = asked None s
  /\ 1 <= asked None s
  /\ exists rows, arr = Array2 rows /\ len rows = asked None s.
Proof.
  apply (round_collects_what_was_asked (NA := Toy.NQ) (GY := Toy.linear_env)
           (PM := Toy.first_weight (NA := Toy.NQ)) (Opt := Qc)
           None false (Toy.agent_Qc 2)
           (s' := fst (Toy.generate_Qc None false (Toy.agent_Qc 2)))).
  - reflexivity.
  - vm_compute. discriminate.
  - vm_compute. reflexivity.
Defined.

Lemma training_counts_its_steps_witness :
  let s := Toy.agent_Qc 2 in
  (ARSAgent.timesteps s
     <= ARSAgent.timesteps (fst (Toy.aggregate_Qc None false s))
     <= ARSAgent.timesteps s + 2 * asked None s * Z.max 0 2)
  /\ (@None Z = None ->
        ARSAgent.timesteps s
        <= ARSAgent.timesteps (fst (Toy.train_step_Qc s))
        <= ARSAgent.timesteps s + 2 * ARSAgent.num_deltas s * Z.max 0 2).
Proof.
  apply (training_counts_its_steps (NA := Toy.NQ) (GY := Toy.linear_env)
           (PM := Toy.first_weight (NA := Toy.NQ))
           (OP := Toy.sgd (NA := Toy.NQ)) None (Toy.agent_Qc 2) (L := 2)).
  - reflexivity.
  - vm_compute. discriminate.
  - repeat constructor; vm_compute; discriminate.
Defined.

Lemma evaluation_returns_witness :
  let s := Toy.agent_Qc 2 in
  exists s' a,
    Toy.aggregate_Qc (Some 5) true s = (s', Ok (Array1 a))
    /\ len a = asked (Some 5) s.
Proof.
  apply (evaluation_returns (NA := Toy.NQ) (GY := Toy.linear_env)
           (PM := Toy.first_weight (NA := Toy.NQ)) (Opt := Qc)
           (Some 5) (Toy.agent_Qc 2)).
  - reflexivity.
  - vm_compute. discriminate.
  - vm_compute. discriminate.
Defined.

Lemma select_top_keeps_pairs_witness :
  let s := Toy.agent_Qc 2 in
  let run := Toy.select_top_Qc [0; 1; 2] (Array2 Toy.rows_Qc) s in
  let kept := match snd run with Ok k => k | Raise _ => ([], []) end in
  exists p,
    np_percentile (NA := Toy.NQ) (map (row_max (NA := Toy.NQ)) Toy.rows_Qc)
      (clamped_rank (NA := Toy.NQ) s) = Ok p
    /\ combine (fst kept) (snd kept)
       = filter (fun t => nleb (Numeric := Toy.NQ) p
                            (row_max (NA := Toy.NQ) (snd t)))
           (combine [0; 1; 2] Toy.rows_Qc).
Proof.
  apply (select_top_keeps_pairs (NA := Toy.NQ) (G := Z) (Env := Z)
           (Filter := Z) (Opt := Qc) [0; 1; 2] Toy.rows_Qc
           (Toy.agent_Qc 2)
           (s' := fst (Toy.select_top_Qc [0; 1; 2] (Array2 Toy.rows_Qc)
                         (Toy.agent_Qc 2)))).
  - reflexivity.
  - vm_compute. reflexivity.
Defined.

Lemma train_step_updates_or_keeps_witness :
  let s := Toy.agent_Qc 2 in
  let s' := fst (Toy.train_step_Qc s) in
  len (ARSAgent.w_policy s') = len (ARSAgent.w_policy s)
  /\ exists s1 g_hat step,
       Toy.aggregate_Qc None false s = (s1, Ok (Array1 g_hat))
       /\ _compute_step (Optimizer := Toy.sgd (NA := Toy.NQ)) g_hat
            (ARSAgent.optimizer s1) = (ARSAgent.optimizer s', Ok step)
       /\ len step = len (ARSAgent.w_policy s)
       /\ ARSAgent.w_policy s' = vsub (NA := Toy.NQ) (ARSAgent.w_policy s) step.
Proof.
  apply (train_step_updates_or_keeps (NA := Toy.NQ) (GY := Toy.linear_env)
           (PM := Toy.first_weight (NA := Toy.NQ))
           (OP := Toy.sgd (NA := Toy.NQ)) (Toy.agent_Qc 2)
           (s' := fst (Toy.train_step_Qc (Toy.agent_Qc 2))) (r := Ok tt)).
  vm_compute. reflexivity.
Defined.

Lemma negative_deltas_used_never_trains_witness :
  let s := Toy.agent_Qc (-1) in
  (forall s' g, Toy.aggregate_Qc None false s <> (s', Ok g))
  /\ (forall s', Toy.train_step_Qc s <> (s', Ok tt)).
Proof.
  apply (@negative_deltas_used_never_trains Qc_sqrt Z lcg_RandomState Z Z Qc
           Z Qc Toy.linear_env (Toy.first_weight (NA := Toy.NQ))
           (Toy.sgd (NA := Toy.NQ)) None (Toy.agent_Qc (-1))).
  - reflexivity.
  - reflexivity.
Defined.

Lemma short_tables_stop_training_witness :
  Toy.aggregate_Qc None false Cases.short_table
  = (Cases.short_table, Raise ValueError)
  /\ (@None Z = None ->
      Toy.train_step_Qc Cases.short_table
      = (Cases.short_table, Raise ValueError)).
Proof.
  apply (short_tables_stop_training (NA := Toy.NQ) (GY := Toy.linear_env)
           (PM := Toy.first_weight (NA := Toy.NQ))
           (OP := Toy.sgd (NA := Toy.NQ)) None Cases.short_table).
  - reflexivity.
  - vm_compute. discriminate.
  - vm_compute. discriminate.
  - repeat constructor.
Defined.
